(** * thelounge-theme-external-notify: dispatch engine and provider schema

    A shallow embedding of the notification pipeline of the plugin
    ([lib/format-template.js], [lib/notification-manager.js] and
    [lib/notifiers/base.js]) together with the properties the specification
    states about it, and of what surrounds the pipeline: the constructors
    of the provider classes, the stored document
    ([lib/config-manager.js]), the handler of chat messages ([index.js])
    and the comparison of versions ([lib/version-check.js]).

    Conventions of the embedding:
    - a JavaScript string is a [string]: a finite sequence of code units.
      No function below inspects the numeric value of a unit;
      [toLowerCase] is the host's;
    - a plain object used as a dictionary is a [gmap string _] where only
      lookups matter, and an association list in declaration order where
      the code iterates it ([Object.entries], [for .. in]);
    - the logger collaborator is an append-only trace of (level, text),
      shared by the manager and its notifiers;
    - a promise is represented by the way it settles ([Settled]), a
      rejection by its reason, which may be [null] or [undefined];
    - what the outside contributes to one call of the manager is an
      explicit parameter of the call ([World]): the instant of the clock,
      the reply of the network to each notifier's request, and the order
      in which the requests end.  The state a call returns is the manager
      once every request of the call has ended;
    - the timer that clears the deduplication set is not modelled: the
      clearing is an operation of the manager that may run between two
      calls. *)

From Stdlib Require Import String Ascii List Bool Arith Lia Permutation.
From Stdlib Require QArith.
From stdpp Require Import base option list gmap strings.

(** ** String primitives of the host language *)

Module JsString.

(** [strip_prefix p s] is [Some rest] when [s = p ++ rest]. *)
Fixpoint strip_prefix (p s : string) : option string :=
  match p with
  | EmptyString => Some s
  | String a p' =>
      match s with
      | EmptyString => None
      | String b s' => if Ascii.eqb a b then strip_prefix p' s' else None
      end
  end.

(** [String.prototype.startsWith]. *)
Definition startsWith (s p : string) : bool :=
  match strip_prefix p s with Some _ => true | None => false end.

Fixpoint take (n : nat) (s : string) : string :=
  match n, s with
  | S n', String c s' => String c (take n' s')
  | _, _ => EmptyString
  end.

Fixpoint drop (n : nat) (s : string) : string :=
  match n, s with
  | S n', String _ s' => drop n' s'
  | _, _ => s
  end.

(** [String.prototype.substring(start, end)]: both indices are clamped to
    the length of the string and swapped when [start > end]. *)
Definition substring (s : string) (start end_ : nat) : string :=
  let lo := Nat.min start end_ in
  let hi := Nat.max start end_ in
  take (hi - lo) (drop lo s).

(** The code unit at an index, [None] past the end. *)
Fixpoint charAt (i : nat) (s : string) : option ascii :=
  match s with
  | EmptyString => None
  | String c s' => match i with O => Some c | S i' => charAt i' s' end
  end.

(** The value of a text of decimal digits, [acc] being the value of the
    digits already read; [None] when another unit occurs. *)
Fixpoint digits (acc : nat) (s : string) : option nat :=
  match s with
  | EmptyString => Some acc
  | String c s' =>
      let n := nat_of_ascii c in
      if (48 <=? n) && (n <=? 57) then digits (10 * acc + (n - 48)) s' else None
  end.

(** A non-empty text of decimal digits, with its value. *)
Definition numeral (s : string) : option nat :=
  match s with
  | EmptyString => None
  | _ => digits 0 s
  end.

(** [n] opening braces. *)
Fixpoint braces (n : nat) : string :=
  match n with
  | O => EmptyString
  | S n' => String "{"%char (braces n')
  end.

(** [Array.prototype.join]. *)
Fixpoint join (sep : string) (l : list string) : string :=
  match l with
  | [] => ""
  | [x] => x
  | x :: rest => x +:+ sep +:+ join sep rest
  end.

Fixpoint mem (c : ascii) (s : string) : bool :=
  match s with
  | EmptyString => false
  | String d s' => Ascii.eqb c d || mem c s'
  end.

Fixpoint all_units (f : ascii → bool) (s : string) : bool :=
  match s with
  | EmptyString => true
  | String c s' => f c && all_units f s'
  end.

(** The replacement-text expansion of [String.prototype.replace]
    (GetSubstitution) for a pattern without capture groups: [$$] is a
    dollar sign, [$&] the matched text, [$`] the text before the match,
    [$'] the text after it; [$n] and [$<] stay literal because the
    pattern captures nothing. *)
Fixpoint GetSubstitution (matched before after replacement : string) : string :=
  match replacement with
  | EmptyString => EmptyString
  | String c r =>
      if Ascii.eqb c "$"%char then
        match r with
        | String d r' =>
            if Ascii.eqb d "$"%char then String "$"%char (GetSubstitution matched before after r')
            else if Ascii.eqb d "&"%char then matched +:+ GetSubstitution matched before after r'
            else if Ascii.eqb d "`"%char then before +:+ GetSubstitution matched before after r'
            else if Ascii.eqb d "'"%char then after +:+ GetSubstitution matched before after r'
            else String c (GetSubstitution matched before after r)
        | EmptyString => String c EmptyString
        end
      else String c (GetSubstitution matched before after r)
  end.

(** One left-to-right pass of a global replace of the literal, non-empty
    pattern [pat]: matches do not overlap and the replacement text is not
    scanned again.  [skip] counts the units of a match still to be
    consumed, [before] is the part of the subject already passed. *)
Fixpoint replace_scan (pat rep : string) (skip : nat) (before s : string) : string :=
  match s with
  | EmptyString => EmptyString
  | String c s' =>
      match skip with
      | S k => replace_scan pat rep k (before +:+ String c "") s'
      | O =>
          match strip_prefix pat s with
          | Some after =>
              GetSubstitution pat before after rep
                +:+ replace_scan pat rep (String.length pat - 1) (before +:+ String c "") s'
          | None => String c (replace_scan pat rep 0 (before +:+ String c "") s')
          end
      end
  end.

(** [s.replace(new RegExp(pat, 'g'), rep)] for a pattern that is a
    literal. *)
Definition replace_all (pat rep s : string) : string :=
  replace_scan pat rep 0 "" s.

End JsString.

(** ** What the host supplies

    Numbers, dates, the case mapping of strings, the network and the
    colour/markup helpers of the plugin's [format] module are not part of
    the code under study: they are taken as an interface.  A number is an
    abstract value produced by [parseFloat] and tested by [isNaN]; a
    [Date] is an abstract instant with the three renderings
    [getVariables] asks for; a [Reply] is what the outside answers to one
    request of a notifier. *)

(** The two values that have no properties. *)
Inductive Nullish := Null | Undefined.

Class Host := {
  number : Type;
  parseFloat : string → number;
  isNaN : number → bool;
  num_zero : number;
  (** [n === 0] *)
  isZero : number → bool;
  (** [String.prototype.toLowerCase] *)
  toLowerCase : string → string;
  (** the message of the TypeError for reading the property [message] of
      [null] or of [undefined] *)
  no_message : Nullish → string;
  Date : Type;
  Reply : Type;
  (** [toLocaleString('en-US', {month, day, hour, minute, hour12: false})] *)
  toLocaleString_short : Date → string;
  toISOString : Date → string;
  (** [toLocaleTimeString('en-US', {hour, minute, hour12: false})] *)
  toLocaleTimeString_hm : Date → string;
  (** [C.ORANGE], [C.CYAN], [C.RESET] *)
  C_ORANGE : string;
  C_CYAN : string;
  C_RESET : string;
  (** [F.ERROR], [F.SUCCESS], [F.INDENT] *)
  F_ERROR : string → string;
  F_SUCCESS : string → string;
  F_INDENT : nat → string
}.

Module Js.
Section WithHost.
Context `{Host}.

(** A configuration value.  [VObj] stands for any object or array; only
    its identity is kept. *)
Inductive JsVal :=
| VUndefined
| VNull
| VBool (b : bool)
| VNum (n : number)
| VStr (s : string)
| VObj (ref : nat).

Inductive JsType := TUndefined | TObject | TBoolean | TNumber | TString.

(** [typeof v] *)
Definition typeof (v : JsVal) : JsType :=
  match v with
  | VUndefined => TUndefined
  | VNull => TObject
  | VBool _ => TBoolean
  | VNum _ => TNumber
  | VStr _ => TString
  | VObj _ => TObject
  end.

(** The truth value of [v] in a condition. *)
Definition truthy (v : JsVal) : bool :=
  match v with
  | VUndefined | VNull => false
  | VBool b => b
  | VNum n => negb (isNaN n || isZero n)
  | VStr s => negb (String.eqb s "")
  | VObj _ => true
  end.

(** [obj[key]] on a dictionary of values: a missing key reads as
    [undefined]. *)
Definition get (obj : gmap string JsVal) (key : string) : JsVal :=
  from_option id VUndefined (obj !! key).

End WithHost.
End Js.

Inductive LogLevel := LogDebug | LogInfo | LogWarn | LogError.

(** One call of a logger method. *)
Definition LogEntry : Type := LogLevel * string.

(** ** Promises, by the way they settle *)

Module Promise.

(** A value that is neither [null] nor [undefined], as far as the code
    looks at it: the text its property [message] gives in a template
    literal.  For an [Error] object, built with [new Error(..)] or handed
    over by the error event of a request, that is its message. *)
Record Error := { message : string }.

(** The reason of a rejection, which is the value a function threw or a
    promise was rejected with: any value, [null] and [undefined]
    included. *)
Inductive Reason :=
| NoValue (n : Nullish)
| Value (e : Error).

(** How a promise settles. *)

Inductive Settled (A : Type) :=
| Fulfilled (a : A)
| Rejected (r : Reason).
Arguments Fulfilled {A} a.
Arguments Rejected {A} r.

(** [p.then(onFulfilled)]: the handler runs on the state [S] its closure
    captures; a rejection passes through. *)
Definition then_ {S A B} (p : Settled A) (onFulfilled : A → S → Settled B * S)
  : S → Settled B * S :=
  fun st =>
    match p with
    | Fulfilled a => onFulfilled a st
    | Rejected r => (Rejected r, st)
    end.

(** [p.catch(onRejected)] *)
Definition catch_ {S A} (p : Settled A) (onRejected : Reason → S → Settled A * S)
  : S → Settled A * S :=
  fun st =>
    match p with
    | Fulfilled a => (Fulfilled a, st)
    | Rejected r => onRejected r st
    end.

(** [Promise.all(ps)], the promises listed in the order they settle:
    rejected with the reason of the first one to reject, fulfilled when
    none does. *)
Fixpoint all {A} (ps : list (Settled A)) : Settled (list A) :=
  match ps with
  | [] => Fulfilled []
  | Fulfilled a :: rest =>
      match all rest with
      | Fulfilled l => Fulfilled (a :: l)
      | Rejected r => Rejected r
      end
  | Rejected r :: _ => Rejected r
  end.

(** The order in which pending promises settle.  Each pick names, among
    the promises still pending, the next one to settle; when the picks
    run out the remaining ones settle in the order they were created.
    Every order of settlement is the image of some list of picks. *)
Fixpoint completion_order {A} (picks : list nat) (pending : list A) : list A :=
  match picks with
  | [] => pending
  | k :: picks' =>
      match pending with
      | [] => []
      | x :: _ =>
          let i := k `mod` length pending in
          nth i pending x :: completion_order picks' (delete i pending)
      end
  end.

End Promise.

(** ** The event and the notification *)

Module MessageData.
Section WithHost.
Context `{Host}.

(** The [messageData] object built by the plugin entry point for every
    chat message that is not the user's own. *)
Record t := {
  type : string;
  network : string;
  channel : string;
  nick : string;
  message : string;
  timestamp : option Date;
  highlight : bool
}.

End WithHost.
End MessageData.

Module Notification.
Section WithHost.
Context `{Host}.

Record t := {
  title : string;
  message : string;
  timestamp : option Date
}.

End WithHost.
End Notification.

(** ** lib/format-template.js *)

Module FormatTemplate.
Import JsString.

(** A template variable: a string, or [None] for [undefined]/[null]. *)
Definition Variables := list (string * option string).

(** The source of the regular expression built for a key,
    [\{\{key\}\}].  For a key of letters, digits and underscores it
    matches exactly the text returned here. *)
Definition placeholder (key : string) : string := "{{" +:+ key +:+ "}}".

(** [value || ''] *)
Definition or_empty (value : option string) : string :=
  match value with Some v => v | None => "" end.

(** [FormatTemplate.process(template, variables)].  The template is
    [None] when it is not a string. *)
Definition process (template : option string) (variables : Variables) : string :=
  match template with
  | None => ""
  | Some "" => ""
  | Some t =>
      fold_left
        (fun result kv => replace_all (placeholder kv.1) (or_empty kv.2) result)
        variables t
  end.

(** The four templates of a format configuration; a field is [None] when
    it is not configured. *)
Record FormatConfig := {
  title : option string;
  titleWithChannel : option string;
  message : option string;
  actionMessage : option string
}.

(** [FormatTemplate.getDefaults()] *)
Definition getDefaults : FormatConfig := {|
  title := Some "{{network}}";
  titleWithChannel := Some "{{network}} - {{channel}}";
  message := Some "<{{nick}}> {{message}}";
  actionMessage := Some "* {{nick}} {{message}}"
|}.

(** [s || d] on strings *)
Definition str_or (s d : string) : string :=
  if String.eqb s "" then d else s.

Section WithHost.
Context `{Host}.

(** [FormatTemplate.getVariables(messageData)]; [now] is the instant
    [new Date()] gives at this call. *)
Definition getVariables (now : Date) (messageData : MessageData.t) : Variables :=
  let timestamp := from_option id now (MessageData.timestamp messageData) in
  let dateFormatted := toLocaleString_short timestamp in
  let isPrivateMessage :=
    String.eqb (MessageData.channel messageData) ""
    || negb (startsWith (MessageData.channel messageData) "#") in
  let channelDisplay :=
    if isPrivateMessage then "PM" else MessageData.channel messageData in
  [ ("date", Some dateFormatted);
    ("timestamp", Some (toISOString timestamp));
    ("time", Some (toLocaleTimeString_hm timestamp));
    ("nick", Some (str_or (MessageData.nick messageData) ""));
    ("user", Some (str_or (MessageData.nick messageData) ""));
    ("message", Some (str_or (MessageData.message messageData) ""));
    ("text", Some (str_or (MessageData.message messageData) ""));
    ("channel", Some channelDisplay);
    ("network", Some (str_or (MessageData.network messageData) ""));
    ("server", Some (str_or (MessageData.network messageData) ""));
    ("type", Some (str_or (MessageData.type messageData) "message")) ].

End WithHost.
End FormatTemplate.

(** ** The configuration document *)

Module Config.
Section WithHost.
Context `{Host}.

Record FilterChannels := {
  whitelist : list string;
  blacklist : list string
}.

Record FilterConfig := {
  onlyWhenAway : bool;
  highlights : bool;
  channels : option FilterChannels
}.

(** The per-user document.  [services] is [None] when the property is
    missing; a service entry maps a field name to its value and holds the
    reserved key [enabled]. *)
Record t := {
  enabled : bool;
  channelName : string;
  services : option (gmap string (gmap string Js.JsVal));
  filters : FilterConfig;
  format : option FormatTemplate.FormatConfig
}.

(** [config.services = s] *)
Definition set_services (config : t) (s : gmap string (gmap string Js.JsVal)) : t :=
  {| enabled := enabled config;
     channelName := channelName config;
     services := Some s;
     filters := filters config;
     format := format config |}.

End WithHost.
End Config.

(** ** lib/notifiers/base.js *)

Module FieldDescriptor.
Section WithHost.
Context `{Host}.

(** A field descriptor as a provider writes it: every attribute may be
    absent ([hasOwnProperty] is false exactly when the field is [None]). *)
Record t := {
  default : option Js.JsVal;
  example : option Js.JsVal;
  description : option string;
  required : option bool;
  validationError : option string;
  validate : option (Js.JsVal → bool)
}.

Definition set_required (d : t) (v : bool) : t :=
  {| default := default d; example := example d; description := description d;
     required := Some v; validationError := validationError d;
     validate := validate d |}.

Definition set_example (d : t) (v : Js.JsVal) : t :=
  {| default := default d; example := Some v; description := description d;
     required := required d; validationError := validationError d;
     validate := validate d |}.

Definition set_validationError (d : t) (v : string) : t :=
  {| default := default d; example := example d; description := description d;
     required := required d; validationError := Some v;
     validate := validate d |}.

Definition set_validate (d : t) (v : Js.JsVal → bool) : t :=
  {| default := default d; example := example d; description := description d;
     required := required d; validationError := validationError d;
     validate := Some v |}.

End WithHost.
End FieldDescriptor.

Module BaseNotifier.
Import JsString Js Promise.
Section WithHost.
Context `{Host}.

(** One call of [send] as the other users of the logger see it: the
    lines it writes before it returns its promise, the lines it writes
    when its request ends, and the way the promise then settles.  [send]
    is an async method: what its body throws is the reason its promise is
    rejected with. *)
Record Sending := {
  started : list LogEntry;
  ended : list LogEntry;
  outcome : Settled unit
}.

(** A call that throws [reason] at once: nothing is written. *)
Definition refused (reason : Error) : Sending :=
  {| started := []; ended := []; outcome := Rejected (Value reason) |}.

(** A notifier object.  [transport] is the body of the [send] a provider
    class supplies, [None] for the base class itself: what a call does
    with a notification depends on what the outside replies to its
    request. *)
Record t := {
  config : gmap string JsVal;
  _isSetup : bool;
  _name : string;
  _registerVariables : list (string * FieldDescriptor.t);
  _defaultServiceConfig : gmap string JsVal;
  transport : option (Notification.t → Reply → Sending)
}.

(** [typeof value === 'string' && value.length > 0] *)
Definition non_empty_string (value : JsVal) : bool :=
  match value with
  | VStr s => negb (String.eqb s "")
  | _ => false
  end.

(** [new BaseNotifier(config, logger)] *)
Definition new (config : gmap string JsVal) : t :=
  {| config := config;
     _isSetup := false;
     _name := "BaseNotifier";
     _registerVariables :=
       [ ("userKey",
          {| FieldDescriptor.default := Some (VStr "");
             FieldDescriptor.example := Some (VStr "YOUR_USER_KEY");
             FieldDescriptor.description := Some "Your user key for the service";
             FieldDescriptor.required := Some true;
             FieldDescriptor.validationError := Some "User key must be a non-empty string";
             FieldDescriptor.validate := Some non_empty_string |});
         ("apiToken",
          {| FieldDescriptor.default := Some (VStr "");
             FieldDescriptor.example := Some (VStr "YOUR_API_TOKEN");
             FieldDescriptor.description := Some "Your API token for the service";
             FieldDescriptor.required := Some true;
             FieldDescriptor.validationError := Some "API token must be a non-empty string";
             FieldDescriptor.validate := Some non_empty_string |}) ];
     _defaultServiceConfig := ∅;
     transport := None |}.

(** [get isMetadataMode] *)
Definition isMetadataMode (self : t) : bool := negb (_isSetup self).

(** [get name] *)
Definition name (self : t) : string := _name self.

(** [get registerVariables] *)
Definition registerVariables (self : t) : list (string * FieldDescriptor.t) :=
  _registerVariables self.

(** [send(notification)]: every provider class first refuses to send in
    metadata mode, then runs its transport, to whose request the outside
    answers [reply]. *)
Definition send (self : t) (notification : Notification.t) (reply : Reply) : Sending :=
  if negb (_isSetup self) then
    refused {| message := name self +:+ " notifier is not properly configured" |}
  else
    match transport self with
    | None => refused {| message := "send() must be implemented by subclass" |}
    | Some f => f notification reply
    end.

(** [value === undefined || value === null || value === ''] *)
Definition is_blank (value : JsVal) : bool :=
  match value with
  | VUndefined | VNull => true
  | VStr s => String.eqb s ""
  | _ => false
  end.

(** [variable.required && (value is blank)] *)
Definition missing_required (variable : FieldDescriptor.t) (value : JsVal) : bool :=
  from_option id false (FieldDescriptor.required variable) && is_blank value.

(** [variable.validate && !variable.validate(value)] *)
Definition rejected_by_validator (variable : FieldDescriptor.t) (value : JsVal) : bool :=
  match FieldDescriptor.validate variable with
  | Some check => negb (check value)
  | None => false
  end.

Fixpoint validate_loop (vars : list (string * FieldDescriptor.t))
    (config : gmap string JsVal) : bool :=
  match vars with
  | [] => true
  | (key, variable) :: rest =>
      let value := get config key in
      if missing_required variable value then false
      else if rejected_by_validator variable value then false
      else validate_loop rest config
  end.

(** [validate()] *)
Definition validate (self : t) : bool :=
  validate_loop (registerVariables self) (config self).

(** [variable.validationError || `Configuration error: ...`] *)
Definition error_text (self_name key : string) (variable : FieldDescriptor.t) : string :=
  match FieldDescriptor.validationError variable with
  | Some e =>
      if String.eqb e "" then
        "Configuration error: " +:+ key +:+ " is required for " +:+ self_name
      else e
  | None => "Configuration error: " +:+ key +:+ " is required for " +:+ self_name
  end.

Fixpoint validateWithLogging_loop (self_name : string)
    (vars : list (string * FieldDescriptor.t))
    (config : gmap string JsVal) : bool * list LogEntry :=
  match vars with
  | [] => (true, [])
  | (key, variable) :: rest =>
      let value := get config key in
      let validationError := error_text self_name key variable in
      if missing_required variable value then (false, [(LogError, validationError)])
      else if rejected_by_validator variable value then (false, [(LogError, validationError)])
      else validateWithLogging_loop self_name rest config
  end.

(** [validateWithLogging()]: the result and what was sent to the logger. *)
Definition validateWithLogging (self : t) : bool * list LogEntry :=
  validateWithLogging_loop (name self) (registerVariables self) (config self).

(** The body of the [registerVariables] setter for one key. *)
Definition normalize (key : string) (d : FieldDescriptor.t) : FieldDescriptor.t :=
  let d1 :=
    match FieldDescriptor.required d with
    | None => FieldDescriptor.set_required d false
    | Some _ => d
    end in
  let d2 :=
    match FieldDescriptor.example d1, FieldDescriptor.default d1 with
    | None, Some v => FieldDescriptor.set_example d1 v
    | _, _ => d1
    end in
  let d3 :=
    match FieldDescriptor.validationError d2 with
    | None => FieldDescriptor.set_validationError d2 ("Invalid value for " +:+ key)
    | Some _ => d2
    end in
  match FieldDescriptor.validate d3 with
  | None => FieldDescriptor.set_validate d3 (fun _ => true)
  | Some _ => d3
  end.

(** What the setter stores for the raw map [value]. *)
Definition normalize_all (value : list (string * FieldDescriptor.t))
  : list (string * FieldDescriptor.t) :=
  map (fun kv => (kv.1, normalize kv.1 kv.2)) value.

(** [set registerVariables(value)] *)
Definition set_registerVariables (self : t) (value : list (string * FieldDescriptor.t)) : t :=
  {| config := config self;
     _isSetup := _isSetup self;
     _name := _name self;
     _registerVariables := normalize_all value;
     _defaultServiceConfig := _defaultServiceConfig self;
     transport := transport self |}.

(** [opt] read as a property: [undefined] when absent. *)
Definition prop (opt : option JsVal) : JsVal := from_option id VUndefined opt.

Definition is_undefined (v : JsVal) : bool :=
  match v with VUndefined => true | _ => false end.

(** [variable.example !== undefined ? typeof variable.example
                                    : typeof variable.default] *)
Definition typeOf (variable : FieldDescriptor.t) : JsType :=
  if is_undefined (prop (FieldDescriptor.example variable))
  then typeof (prop (FieldDescriptor.default variable))
  else typeof (prop (FieldDescriptor.example variable)).

(** The value [defaultServiceConfig] gives a field. *)
Definition defaultValue (variable : FieldDescriptor.t) : JsVal :=
  if negb (is_undefined (prop (FieldDescriptor.default variable))) then
    prop (FieldDescriptor.default variable)
  else if negb (is_undefined (prop (FieldDescriptor.example variable))) then
    prop (FieldDescriptor.example variable)
  else
    match typeOf variable with
    | TString => VStr ""
    | TNumber => VNum num_zero
    | TBoolean => VBool false
    | _ => VNull
    end.

(** [get defaultServiceConfig] *)
Definition defaultServiceConfig (self : t) : gmap string JsVal :=
  if decide (_defaultServiceConfig self = ∅) then
    fold_left (fun defaultConfig kv => <[kv.1 := defaultValue kv.2]> defaultConfig)
      (registerVariables self) {[ "enabled" := VBool false ]}
  else _defaultServiceConfig self.

(** The object [handleConfig] returns; [autoEnabled] is only present on
    success. *)
Record HandleResult := {
  success : bool;
  messages : list string;
  autoEnabled : option bool
}.

(** The first lines of [handleConfig]: a missing [services] map and a
    missing entry for this notifier are created. *)
Definition init_config (self : t) (config : Config.t) : Config.t :=
  match Config.services config with
  | None =>
      Config.set_services config {[ name self := defaultServiceConfig self ]}
  | Some services =>
      match services !! name self with
      | Some _ => config
      | None =>
          Config.set_services config
            (<[ name self := defaultServiceConfig self ]> services)
      end
  end.

(** [config.services[this.name]] *)
Definition service_entry (self : t) (config : Config.t) : gmap string JsVal :=
  from_option id ∅ (from_option id ∅ (Config.services config) !! name self).

(** [config.services[this.name] = entry] *)
Definition set_service_entry (self : t) (config : Config.t)
    (entry : gmap string JsVal) : Config.t :=
  Config.set_services config
    (<[ name self := entry ]> (from_option id ∅ (Config.services config))).

(** [key.toLowerCase() === setting.toLowerCase()] *)
Definition same_setting (setting key : string) : bool :=
  String.eqb (toLowerCase key) (toLowerCase setting).

(** [Object.keys(this.registerVariables).find(...)] together with the
    descriptor stored under the key found.  The keys of an object are
    distinct, so the first entry with a matching key is the entry of the
    first matching key. *)
Definition find_setting (self : t) (setting : string)
  : option (string * FieldDescriptor.t) :=
  List.find (fun kv => same_setting setting kv.1) (registerVariables self).

Definition unknown_setting (self : t) (setting : string) : HandleResult :=
  {| success := false;
     messages :=
       [ F_ERROR ("Unknown " +:+ name self +:+ " setting: "
                    +:+ C_ORANGE +:+ setting +:+ C_RESET);
         F_INDENT 1 +:+ "Valid settings: " +:+ C_CYAN
           +:+ join ", " (map fst (registerVariables self)) +:+ C_RESET ];
     autoEnabled := None |}.

Definition failure (text : string) : HandleResult :=
  {| success := false; messages := [F_ERROR text]; autoEnabled := None |}.

(** The [switch] on [typeof variable.example]: the parsed value, or the
    text of the error. *)
Definition parse_value (variable : FieldDescriptor.t) (setting value : string)
  : JsVal + string :=
  match typeof (prop (FieldDescriptor.example variable)) with
  | TNumber =>
      let parsedValue := parseFloat value in
      if isNaN parsedValue then
        inr ("Invalid value for " +:+ setting +:+ ": expected a number")
      else inl (VNum parsedValue)
  | TBoolean =>
      let parsedValue := toLowerCase value in
      if String.eqb parsedValue "true" || String.eqb parsedValue "1" then
        inl (VBool true)
      else if String.eqb parsedValue "false" || String.eqb parsedValue "0" then
        inl (VBool false)
      else
        inr ("Invalid value for " +:+ setting +:+ ": expected a boolean (true/false)")
  | _ => inl (VStr value)
  end.

(** [Object.create(this)] with [config] replaced. *)
Definition with_config (self : t) (config : gmap string JsVal) : t :=
  {| config := config;
     _isSetup := _isSetup self;
     _name := _name self;
     _registerVariables := _registerVariables self;
     _defaultServiceConfig := _defaultServiceConfig self;
     transport := transport self |}.

(** [handleConfig(config, setting, value)]: the result object and the
    configuration document as the call leaves it.  The document is mutated
    in place by the code; here the new document is returned.  The notifier
    is one the command layer builds for this call alone; that an entry
    created from a non-empty [_defaultServiceConfig] shares that object
    with the notifier is therefore not followed. *)
Definition handleConfig (self : t) (config : Config.t) (setting value : string)
  : HandleResult * Config.t :=
  let config := init_config self config in
  match find_setting self setting with
  | None => (unknown_setting self setting, config)
  | Some (actualKey, variable) =>
      if String.eqb actualKey "" then (unknown_setting self setting, config)
      else
        match parse_value variable setting value with
        | inr text => (failure text, config)
        | inl parsedValue =>
            if rejected_by_validator variable parsedValue then
              (failure (from_option id "undefined"
                          (FieldDescriptor.validationError variable)), config)
            else
              let entry := <[ actualKey := parsedValue ]> (service_entry self config) in
              let messages :=
                [ F_SUCCESS (name self +:+ " setting " +:+ C_CYAN +:+ actualKey
                               +:+ C_RESET +:+ " updated") ] in
              if negb (truthy (get entry "enabled")) && validate (with_config self entry)
              then
                ({| success := true;
                    messages :=
                      messages ++
                      [ F_SUCCESS (name self
                          +:+ " service auto-enabled (all required fields are set)") ];
                    autoEnabled := Some true |},
                 set_service_entry self config (<[ "enabled" := VBool true ]> entry))
              else
                ({| success := true; messages := messages; autoEnabled := Some false |},
                 set_service_entry self config entry)
        end
  end.

End WithHost.
End BaseNotifier.

(** ** The provider classes: lib/notifiers/prowl.js, ntfy.js, webhook.js

    The three constructors are the same code around different constants:
    the name, the schema, the body of [send], and, for the webhook alone,
    two debug lines on the way to metadata mode. *)

Module Provider.
Import JsString Js Promise.
Section WithHost.
Context `{Host}.

(** What a provider class fixes. *)
Record Class := {
  class_name : string;
  (** the object literal assigned to [registerVariables] *)
  class_variables : list (string * FieldDescriptor.t);
  (** the body of [send] once the notifier is set up; it reads
      [this.config] and writes to the logger *)
  class_transport : gmap string JsVal → Notification.t → Reply → BaseNotifier.Sending;
  (** the constructor says why it stays in metadata mode (webhook.js) *)
  class_debug : bool
}.

(** [if (!variable.required && this.config[key] === undefined)
       this.config[key] = variable.default] for every declared field, in
    declaration order. *)
Definition apply_defaults (variables : list (string * FieldDescriptor.t))
    (config : gmap string JsVal) : gmap string JsVal :=
  fold_left
    (fun config kv =>
       if negb (from_option id false (FieldDescriptor.required kv.2))
          && BaseNotifier.is_undefined (get config kv.1)
       then <[ kv.1 := BaseNotifier.prop (FieldDescriptor.default kv.2) ]> config
       else config)
    variables config.

(** The notifier before the last statement of the constructor: named,
    with the normalized schema and the defaults applied to its
    configuration. *)
Definition prepare (c : Class) (config : gmap string JsVal) : BaseNotifier.t :=
  let variables := BaseNotifier.normalize_all (class_variables c) in
  let config := apply_defaults variables config in
  {| BaseNotifier.config := config;
     BaseNotifier._isSetup := false;
     BaseNotifier._name := class_name c;
     BaseNotifier._registerVariables := variables;
     BaseNotifier._defaultServiceConfig := ∅;
     BaseNotifier.transport := Some (class_transport c config) |}.

(** [this._isSetup = true] *)
Definition set_up (self : BaseNotifier.t) : BaseNotifier.t :=
  {| BaseNotifier.config := BaseNotifier.config self;
     BaseNotifier._isSetup := true;
     BaseNotifier._name := BaseNotifier._name self;
     BaseNotifier._registerVariables := BaseNotifier._registerVariables self;
     BaseNotifier._defaultServiceConfig := BaseNotifier._defaultServiceConfig self;
     BaseNotifier.transport := BaseNotifier.transport self |}.

(** [new NotifierClass(config, logger)]: the notifier and what the
    constructor sent to the logger.  [validateWithLogging] only runs when
    the configuration is enabled. *)
Definition construct (c : Class) (config : gmap string JsVal)
  : BaseNotifier.t * list LogEntry :=
  let self := prepare c config in
  if truthy (get (BaseNotifier.config self) "enabled") then
    let checked := BaseNotifier.validateWithLogging self in
    if checked.1 then (set_up self, checked.2)
    else
      (self,
       checked.2 ++
       (if class_debug c
        then [(LogDebug, BaseNotifier.name self +:+ " validation failed")]
        else []))
  else
    (self,
     if class_debug c
     then [(LogDebug, BaseNotifier.name self +:+ " not enabled in config")]
     else []).

(** The text matched by [new RegExp(`{{${key}}}`, 'g')] for a key of
    letters, digits and underscores.  The braces are not escaped: the
    first one is a literal, and the second one opens a quantifier of it
    when digits alone stand before the next closing brace, so that the
    pattern of the key [2] asks for two opening braces and one closing
    brace.  With any other such key the four braces are literals. *)
Definition pattern (key : string) : string :=
  match numeral key with
  | Some n => braces n +:+ "}"
  | None => FormatTemplate.placeholder key
  end.

(** [WebhookNotifier.processTemplate(template, values)] *)
Definition processTemplate (template : string) (values : list (string * string)) : string :=
  fold_left
    (fun result kv => replace_all (pattern kv.1) kv.2 result)
    values template.

End WithHost.
End Provider.

(** ** lib/config-manager.js *)

Module ConfigManager.
Import Js.
Section WithHost.
Context `{Host}.

(** What a property that should hold an object may hold: something falsy
    (the property is missing, null, false, 0 or the empty string), a
    truthy value that is not an object and so has none of the properties
    asked for, or an object with its properties. *)
Inductive RawObject :=
| Falsy
| Primitive
| Object (props : gmap string JsVal).

(** The same for [services]; the entries of an object are taken to be
    objects themselves. *)
Inductive RawServices :=
| NoServices
| NotAnObject
| Services (entries : gmap string (gmap string JsVal)).

(** A document as [JSON.parse] returns it or as a caller hands it to
    [save]: the five properties [validateConfig] reads. *)
Record Raw := {
  enabled : JsVal;
  channelName : JsVal;
  services : RawServices;
  filters : RawObject;
  format : RawObject
}.

(** [getDefaultConfig()] *)
Definition getDefaultConfig : Config.t :=
  {| Config.enabled := false;
     Config.channelName := "external-notify";
     Config.services := Some ∅;
     Config.filters :=
       {| Config.onlyWhenAway := true;
          Config.highlights := true;
          Config.channels := None |};
     Config.format := Some FormatTemplate.getDefaults |}.

(** [typeof v === "boolean" ? v : d] *)
Definition boolean_or (v : JsVal) (d : bool) : bool :=
  match v with VBool b => b | _ => d end.

(** [typeof v === "string" ? v : d] *)
Definition string_or (v : JsVal) (d : option string) : option string :=
  match v with VStr s => Some s | _ => d end.

(** [config.filters || {}], as far as its properties go. *)
Definition props_of (o : RawObject) : gmap string JsVal :=
  match o with Object props => props | _ => ∅ end.

(** [validateConfig(config)] *)
Definition validateConfig (config : Raw) : Config.t :=
  let defaults := getDefaultConfig in
  let filters := props_of (filters config) in
  let format := props_of (format config) in
  let default_format := FormatTemplate.getDefaults in
  {| Config.enabled := boolean_or (enabled config) (Config.enabled defaults);
     Config.channelName :=
       match channelName config with
       | VStr s => s
       | _ => Config.channelName defaults
       end;
     Config.services :=
       match services config with
       | Services entries => Some entries
       | NoServices => Config.services defaults
       | NotAnObject => Some ∅
       end;
     Config.filters :=
       {| Config.onlyWhenAway :=
            boolean_or (get filters "onlyWhenAway")
              (Config.onlyWhenAway (Config.filters defaults));
          Config.highlights :=
            boolean_or (get filters "highlights")
              (Config.highlights (Config.filters defaults));
          Config.channels := None |};
     Config.format :=
       Some {| FormatTemplate.title :=
                 string_or (get format "title") (FormatTemplate.title default_format);
               FormatTemplate.titleWithChannel :=
                 string_or (get format "titleWithChannel")
                   (FormatTemplate.titleWithChannel default_format);
               FormatTemplate.message :=
                 string_or (get format "message") (FormatTemplate.message default_format);
               FormatTemplate.actionMessage :=
                 string_or (get format "actionMessage")
                   (FormatTemplate.actionMessage default_format) |} |}.

(** What [load] finds: no file, a file that cannot be read or parsed, the
    JSON text [null], or a parsed document. *)
Inductive File :=
| Missing
| Unparsable
| ParsedNull
| Parsed (config : Raw).

(** [load()]: every exception, also the one [validateConfig(null)]
    throws, ends in the default configuration. *)
Definition load (file : File) : Config.t :=
  match file with
  | Parsed config => validateConfig config
  | Missing | Unparsable | ParsedNull => getDefaultConfig
  end.

(** [isValid()].  [require] stands for [require(`./notifiers/${fileName}`)]
    and [keys] for the keys of the services map in the order
    [Object.entries] lists them; the notifier is built with the silent
    logger of the base class. *)
Definition isValid (require : string → Provider.Class + Promise.Error)
    (keys : list string) (file : File) : bool :=
  let config := load file in
  match Config.services config with
  | None => false
  | Some services =>
      existsb
        (fun serviceName =>
           match services !! serviceName with
           | None => false
           | Some serviceConfig =>
               let fileName := toLowerCase serviceName in
               match require fileName with
               | inl NotifierClass =>
                   let tempNotifier :=
                     (Provider.construct NotifierClass serviceConfig).1 in
                   BaseNotifier.validate tempNotifier
               | inr _ => false
               end
           end)
        keys
  end.

End WithHost.
End ConfigManager.

(** ** lib/notification-manager.js *)

Module NotificationManager.
Import JsString Promise.
Section WithHost.
Context `{Host}.

(** The client object of the chat server, as far as the manager reads it:
    [client.user] may be absent, [client.user.away] is the away flag. *)
Record User := { away : bool }.
Record Client := { user : option User }.

(** The manager: its configuration, the logger's trace, the active
    notifiers in the order [Object.entries] lists them, and the set of
    recently seen deduplication keys. *)
Record t := {
  config : Config.t;
  logger : list LogEntry;
  notifiers : list (string * BaseNotifier.t);
  recentNotifications : gset string
}.

(** What [processMessage] resolves with when a notification was sent. *)
Record Result := {
  notification : Notification.t;
  services : list string;
  messageData : MessageData.t
}.

(** What the outside contributes to one call of the manager: the instant
    [new Date()] gives, what is replied to the request of each notifier,
    named by its key in the notifier map, and the order in which the
    requests end ([Promise.completion_order]). *)
Record World := {
  now : Date;
  reply : string → Reply;
  picks : list nat
}.

(** Methods run on the manager and may change it. *)
Definition M (A : Type) : Type := t → A * t.

Definition ret {A} (a : A) : M A := fun this => (a, this).

Definition bind {A B} (m : M A) (f : A → M B) : M B :=
  fun this => let (a, this') := m this in f a this'.

Notation "x <~ m ;; k" := (bind m (fun x => k))
  (at level 100, m at next level, right associativity).
Notation "m ;;; k" := (bind m (fun _ => k))
  (at level 100, right associativity).

Definition gets {A} (f : t → A) : M A := fun this => (f this, this).

(** [this.logger.<level>(text)] *)
Definition log (level : LogLevel) (text : string) : M unit :=
  fun this =>
    (tt, {| config := config this;
            logger := logger this ++ [(level, text)];
            notifiers := notifiers this;
            recentNotifications := recentNotifications this |}).

(** The lines a notifier writes to the logger it shares with the
    manager, and those a constructor writes. *)
Definition log_all (trace : list LogEntry) : M unit :=
  fun this =>
    (tt, {| config := config this;
            logger := logger this ++ trace;
            notifiers := notifiers this;
            recentNotifications := recentNotifications this |}).

(** [this.recentNotifications.add(key)] *)
Definition remember (key : string) : M unit :=
  fun this =>
    (tt, {| config := config this;
            logger := logger this;
            notifiers := notifiers this;
            recentNotifications := {[ key ]} ∪ recentNotifications this |}).

(** A double quote. *)
Definition dquote : string := String (ascii_of_nat 34) EmptyString.

(** [shouldNotify(messageData, client)] *)
Definition shouldNotify (messageData : MessageData.t) (client : Client) : M bool :=
  filters <~ gets (fun this => Config.filters (config this));;
  log LogDebug ("Checking notification for message from "
                  +:+ MessageData.nick messageData +:+ " in "
                  +:+ MessageData.channel messageData +:+ ": " +:+ dquote
                  +:+ MessageData.message messageData +:+ dquote);;;
  if Config.onlyWhenAway filters
     && match user client with Some u => negb (away u) | None => false end
  then
    log LogDebug "Skipping notification: onlyWhenAway is enabled and user is not away";;;
    ret false
  else if Config.highlights filters && MessageData.highlight messageData then
    log LogDebug "Message is a highlight - sending notification";;;
    ret true
  else
    log LogDebug "Message is not a highlight - skipping notification";;;
    ret false.

(** [x && x.length > 0], the truth of an optional template. *)
Definition configured (template : option string) : bool :=
  match template with
  | Some s => negb (String.eqb s "")
  | None => false
  end.

(** [formatNotification(messageData)], called at the instant [now]. *)
Definition formatNotification (config : Config.t) (now : Date)
    (messageData : MessageData.t) : Notification.t :=
  let format := from_option id FormatTemplate.getDefaults (Config.format config) in
  let variables := FormatTemplate.getVariables now messageData in
  let isChannelMessage :=
    negb (String.eqb (MessageData.channel messageData) "")
    && startsWith (MessageData.channel messageData) "#" in
  let titleTemplate :=
    if isChannelMessage && configured (FormatTemplate.titleWithChannel format)
    then FormatTemplate.titleWithChannel format
    else FormatTemplate.title format in
  let messageTemplate :=
    if String.eqb (MessageData.type messageData) "action"
       && configured (FormatTemplate.actionMessage format)
    then FormatTemplate.actionMessage format
    else FormatTemplate.message format in
  {| Notification.title := FormatTemplate.process titleTemplate variables;
     Notification.message := FormatTemplate.process messageTemplate variables;
     Notification.timestamp := MessageData.timestamp messageData |}.

(** [getDeduplicationKey(messageData)] *)
Definition getDeduplicationKey (messageData : MessageData.t) : string :=
  let msgHash := substring (MessageData.message messageData) 0 50 in
  MessageData.network messageData +:+ "-" +:+ MessageData.channel messageData
    +:+ "-" +:+ MessageData.nick messageData +:+ "-" +:+ msgHash.

(** [cleanupRecentNotifications()], run by the timer every minute. *)
Definition cleanupRecentNotifications : M unit :=
  fun this =>
    log LogDebug "Cleared recent notifications cache"
      {| config := config this;
         logger := logger this;
         notifiers := notifiers this;
         recentNotifications := ∅ |}.

(** The loop of [processMessage]: every notifier's [send] is started, in
    the order of the entries, and the call kept with the name. *)
Fixpoint start_sends (notification : Notification.t) (reply : string → Reply)
    (entries : list (string * BaseNotifier.t))
  : M (list (string * BaseNotifier.Sending)) :=
  match entries with
  | [] => ret []
  | (name, notifier) :: rest =>
      log LogDebug ("Sending notification via " +:+ name);;;
      let sending := BaseNotifier.send notifier notification (reply name) in
      log_all (BaseNotifier.started sending);;;
      pending <~ start_sends notification reply rest;;
      ret ((name, sending) :: pending)
  end.

(** What the two handlers chained on one [send] share: the array
    [sentVia] and the logger. *)
Definition Handlers : Type := list string * list LogEntry.

(** [.then(() => { sentVia.push(name) })] *)
Definition on_sent (name : string) (_ : unit) : Handlers → Settled unit * Handlers :=
  fun st => (Fulfilled tt, (st.1 ++ [name], st.2)).

(** [.catch(err => { this.logger.error(`Failed to send via ...`) })].
    Reading [err.message] throws when the reason is [null] or
    [undefined]: the handler then writes nothing and the promise it
    returns is rejected with the TypeError. *)
Definition on_failed (name : string) (err : Reason) : Handlers → Settled unit * Handlers :=
  fun st =>
    match err with
    | Value e =>
        (Fulfilled tt,
         (st.1, st.2 ++ [(LogError, "Failed to send via " +:+ name +:+ ": " +:+ message e)]))
    | NoValue n => (Rejected (Value {| message := no_message n |}), st)
    end.

(** [notifier.send(notification).then(..).catch(..)] once [send] has
    settled as [p]: how the chained promise settles. *)
Definition chained (name : string) (p : Settled unit) : Handlers → Settled unit * Handlers :=
  fun st =>
    let (q, st') := then_ p (on_sent name) st in
    catch_ q (on_failed name) st'.

(** The requests end in the order listed: each writes its last lines,
    its promise settles and the handlers chained on it run. *)
Fixpoint settle_all (settled : list (string * BaseNotifier.Sending))
  : Handlers → list (Settled unit) * Handlers :=
  fun st =>
    match settled with
    | [] => ([], st)
    | (name, sending) :: rest =>
        let (q, st') :=
          chained name (BaseNotifier.outcome sending)
            (st.1, st.2 ++ BaseNotifier.ended sending) in
        let (qs, st'') := settle_all rest st' in
        (q :: qs, st'')
    end.

(** [await Promise.all(promises)] with the sends settling in the order
    [picks] selects. *)
Definition await_all (picks : list nat) (pending : list (string * BaseNotifier.Sending))
  : M (Settled (list unit) * list string) :=
  fun this =>
    let '(qs, (sentVia, logger')) :=
      settle_all (completion_order picks pending) ([], logger this) in
    ((all qs, sentVia),
     {| config := config this;
        logger := logger';
        notifiers := notifiers this;
        recentNotifications := recentNotifications this |}).

(** [processMessage(messageData, client)]: the way the returned promise
    settles.  It is rejected when the failure handler of a send throws;
    the other sends go on all the same, and the manager returned is the
    one they leave. *)
Definition processMessage (messageData : MessageData.t) (client : Client)
    (world : World) : M (Settled (option Result)) :=
  pass <~ shouldNotify messageData client;;
  if negb pass then ret (Fulfilled None)
  else
    let dedupKey := getDeduplicationKey messageData in
    seen <~ gets (fun this => bool_decide (dedupKey ∈ recentNotifications this));;
    if (seen : bool) then
      log LogDebug ("Skipping duplicate notification: " +:+ dedupKey);;;
      ret (Fulfilled None)
    else
      remember dedupKey;;;
      notification <~
        gets (fun this => formatNotification (config this) (now world) messageData);;
      entries <~ gets notifiers;;
      pending <~ start_sends notification (reply world) entries;;
      joined <~ await_all (picks world) pending;;
      match joined.1 with
      | Rejected r => ret (Rejected r)
      | Fulfilled _ =>
          ret (Fulfilled (Some {| notification := notification;
                                  services := joined.2;
                                  messageData := messageData |}))
      end.

(** [obj[key]] on an object listed in insertion order. *)
Fixpoint obj_get {A} (key : string) (obj : list (string * A)) : option A :=
  match obj with
  | [] => None
  | (k, v) :: rest => if String.eqb k key then Some v else obj_get key rest
  end.

(** [obj[key] = value]: an existing key keeps its place, a new one goes
    to the end. *)
Fixpoint obj_set {A} (key : string) (value : A) (obj : list (string * A))
  : list (string * A) :=
  match obj with
  | [] => [(key, value)]
  | (k, v) :: rest =>
      if String.eqb k key then (k, value) :: rest
      else (k, v) :: obj_set key value rest
  end.

(** [this.notifiers[newNotifier.name] = newNotifier] *)
Definition register (newNotifier : BaseNotifier.t) : M unit :=
  fun this =>
    (tt, {| config := config this;
            logger := logger this;
            notifiers := obj_set (BaseNotifier.name newNotifier) newNotifier (notifiers this);
            recentNotifications := recentNotifications this |}).

(** The constructor of a notifier writes the defaults into the very
    object it is given, which is the entry of the manager's document. *)
Definition write_entry (serviceName : string) (entry : gmap string Js.JsVal) : M unit :=
  fun this =>
    (tt, {| config :=
              match Config.services (config this) with
              | Some services =>
                  Config.set_services (config this) (<[ serviceName := entry ]> services)
              | None => config this
              end;
            logger := logger this;
            notifiers := notifiers this;
            recentNotifications := recentNotifications this |}).

(** One turn of the loop of [initializeNotifiers].  [require] stands for
    [require(`./notifiers/${serviceName}`)]: the class the module exports,
    or the error thrown when it cannot be loaded. *)
Definition initialize_one (require : string → Provider.Class + Error)
    (serviceName : string) : M unit :=
  services <~ gets (fun this => Config.services (config this));;
  match services ≫= (fun services => services !! serviceName) with
  | None => ret tt
  | Some serviceConfig =>
      if negb (Js.truthy (Js.get serviceConfig "enabled")) then
        log LogDebug ("Skipping " +:+ serviceName +:+ ": service is not enabled")
      else
        match require serviceName with
        | inr err =>
            log LogError ("Failed to initialize " +:+ serviceName +:+ ": " +:+ message err)
        | inl NotifierClass =>
            let built := Provider.construct NotifierClass serviceConfig in
            let newNotifier := built.1 in
            write_entry serviceName (BaseNotifier.config newNotifier);;;
            log_all built.2;;;
            if negb (BaseNotifier.isMetadataMode newNotifier) then
              register newNotifier;;;
              log LogInfo (BaseNotifier.name newNotifier +:+ " notifier initialized")
            else
              log LogWarn (serviceName +:+ " is enabled but failed validation")
        end
  end.

Fixpoint initialize_each (require : string → Provider.Class + Error)
    (keys : list string) : M unit :=
  match keys with
  | [] => ret tt
  | serviceName :: rest =>
      initialize_one require serviceName;;;
      initialize_each require rest
  end.

(** [initializeNotifiers()].  [keys] are the keys of
    [this.config.services] in the order [Object.entries] lists them. *)
Definition initializeNotifiers (require : string → Provider.Class + Error)
    (keys : list string) : M unit :=
  services <~ gets (fun this => Config.services (config this));;
  match services with
  | None => ret tt
  | Some _ => initialize_each require keys
  end.

(** [new NotificationManager(config, logger)] *)
Definition new (require : string → Provider.Class + Error) (keys : list string)
    (config : Config.t) (logger : list LogEntry) : t :=
  (initializeNotifiers require keys
     {| config := config;
        logger := logger;
        notifiers := [];
        recentNotifications := ∅ |}).2.

(** The notification [sendTestNotification] sends at the instant
    [now]. *)
Definition test_notification (now : Date) : Notification.t :=
  {| Notification.title := "TheLounge External Notify";
     Notification.message := "Test notification - your notifications are working!";
     Notification.timestamp := Some now |}.

(** The second loop of [sendTestNotification]: as [start_sends], at
    level info. *)
Fixpoint start_test_sends (notification : Notification.t) (reply : string → Reply)
    (entries : list (string * BaseNotifier.t))
  : M (list (string * BaseNotifier.Sending)) :=
  match entries with
  | [] => ret []
  | (name, notifier) :: rest =>
      log LogInfo ("Sending test notification via " +:+ name);;;
      let sending := BaseNotifier.send notifier notification (reply name) in
      log_all (BaseNotifier.started sending);;;
      pending <~ start_test_sends notification reply rest;;
      ret ((name, sending) :: pending)
  end.

(** [await Promise.all(promises)] on the sends themselves: no handler is
    chained, the requests write their last lines as they end. *)
Definition await_sends (picks : list nat) (pending : list (string * BaseNotifier.Sending))
  : M (Settled unit) :=
  let settled := completion_order picks pending in
  log_all (flat_map (fun np => BaseNotifier.ended np.2) settled);;;
  match all (BaseNotifier.outcome <$> settled.*2) with
  | Fulfilled _ => ret (Fulfilled tt)
  | Rejected r => ret (Rejected r)
  end.

(** The names every object inherits from [Object.prototype].  The
    notifier map is a plain object: looking one of these names up finds a
    value of the prototype, which is truthy and has no [send]. *)
Definition inherited (name : string) : bool :=
  bool_decide
    (name ∈ [ "constructor"; "hasOwnProperty"; "isPrototypeOf"; "propertyIsEnumerable";
              "toLocaleString"; "toString"; "valueOf"; "__defineGetter__";
              "__defineSetter__"; "__lookupGetter__"; "__lookupSetter__"; "__proto__" ]).

(** [sendTestNotification(serviceName)]: the way the returned promise
    settles.  [serviceName] is [None] for [null]; [not_a_function] is the
    message of the TypeError for calling a [send] that is not there. *)
Definition sendTestNotification (not_a_function : string) (serviceName : option string)
    (world : World) : M (Settled unit) :=
  let notification := test_notification (now world) in
  match serviceName with
  | Some name =>
      if String.eqb name "" then
        entries <~ gets notifiers;;
        pending <~ start_test_sends notification (reply world) entries;;
        await_sends (picks world) pending
      else
        found <~ gets (fun this => obj_get name (notifiers this));;
        match found with
        | None =>
            if inherited name then
              log LogInfo ("Sending test notification via " +:+ name);;;
              ret (Rejected (Value {| message := not_a_function |}))
            else
              ret (Rejected (Value
                     {| message := "Service " +:+ dquote +:+ name +:+ dquote
                                     +:+ " not found or not configured" |}))
        | Some notifier =>
            log LogInfo ("Sending test notification via " +:+ name);;;
            let sending := BaseNotifier.send notifier notification (reply world name) in
            log_all (BaseNotifier.started sending);;;
            log_all (BaseNotifier.ended sending);;;
            ret (BaseNotifier.outcome sending)
        end
  | None =>
      entries <~ gets notifiers;;
      pending <~ start_test_sends notification (reply world) entries;;
      await_sends (picks world) pending
  end.

End WithHost.
End NotificationManager.

(** ** The commands: the service named in the test command *)

Module Commands.
Section WithHost.
Context `{Host}.

(** [args[0] ? args[0].toLowerCase() : null] in [handleTest]: the name
    passed on to [sendTestNotification]. *)
Definition test_serviceName (arg : option string) : option string :=
  match arg with
  | Some name => if String.eqb name "" then None else Some (toLowerCase name)
  | None => None
  end.

End WithHost.
End Commands.

(** ** index.js: the messages of the chat server *)

Module Plugin.
Import JsString Js Promise.
Section WithHost.
Context `{Host}.

(** [timestamp.toLocaleTimeString()], and the message of the TypeError
    for a notification without timestamp. *)
Variable toLocaleTimeString : Date → string.
Variable no_timestamp : string.

(** [msg.from]: a user object with its nick, or a plain string. *)
Inductive From :=
| FromUser (nick : string)
| FromText (name : string).

(** A message as the chat server pushes it to a channel. *)
Record Msg := {
  self : bool;
  type : string;
  from : From;
  text : string;
  time : option Date;
  highlight : option bool
}.

(** The plugin state of one client on one network. *)
Record State := {
  enabled : bool;
  notificationManager : option NotificationManager.t;
  client : NotificationManager.Client;
  network_name : string
}.

(** [msg.from.nick || msg.from].  A user object without nick is itself
    the value; every use of the nick turns it into a string. *)
Definition nick_of (f : From) : string :=
  match f with
  | FromUser nick => if String.eqb nick "" then "[object Object]" else nick
  | FromText name => name
  end.

(** The [messageData] built for a message. *)
Definition messageData_of (state : State) (channel_name : string) (msg : Msg)
  : MessageData.t :=
  {| MessageData.type := type msg;
     MessageData.network := network_name state;
     MessageData.channel := channel_name;
     MessageData.nick := nick_of (from msg);
     MessageData.message := text msg;
     MessageData.timestamp := time msg;
     MessageData.highlight := from_option id false (highlight msg) |}.

Definition with_manager (state : State) (manager : NotificationManager.t) : State :=
  {| enabled := enabled state;
     notificationManager := Some manager;
     client := client state;
     network_name := network_name state |}.

(** [logNotificationToChannel(state, result)]: the line sent to the
    virtual channel, or the error logged instead. *)
Definition logNotificationToChannel (result : NotificationManager.Result)
  : string + LogEntry :=
  match Notification.timestamp (NotificationManager.notification result) with
  | Some timestamp =>
      inl ("[" +:+ toLocaleTimeString timestamp +:+ "] Notification sent via "
             +:+ join ", " (NotificationManager.services result) +:+ ": "
             +:+ Notification.title (NotificationManager.notification result) +:+ " - "
             +:+ Notification.message (NotificationManager.notification result))
  | None =>
      inr (LogError, "Error logging notification to channel: " +:+ no_timestamp)
  end.

(** [['message', 'action', 'notice'].includes(type)] *)
Definition notifiable_type (type : string) : bool :=
  String.eqb type "message" || String.eqb type "action" || String.eqb type "notice".

(** [handleTheloungeMessage(state, channel, msg)] together with the
    handlers chained on [processMessage]: the state afterwards and the
    lines sent to the virtual channel.  The logger of the plugin is the
    logger the manager was given; the line about a rejection is listed
    after the lines of the call, though sends still under way when the
    rejection is noticed write theirs after it.  When the reason of the
    rejection is [null] or [undefined] the handler throws and writes
    nothing. *)
Definition handleTheloungeMessage (state : State) (channel_name : string) (msg : Msg)
    (world : NotificationManager.World) : State * list string :=
  match notificationManager state with
  | None => (state, [])
  | Some manager =>
      if negb (enabled state) then (state, [])
      else if self msg then (state, [])
      else if negb (notifiable_type (type msg)) then (state, [])
      else
        let out :=
          NotificationManager.processMessage (messageData_of state channel_name msg)
            (client state) world manager in
        match out.1 with
        | Fulfilled (Some result) =>
            match NotificationManager.services result with
            | [] => (with_manager state out.2, [])
            | _ :: _ =>
                match logNotificationToChannel result with
                | inl line => (with_manager state out.2, [line])
                | inr entry =>
                    (with_manager state
                       (NotificationManager.log entry.1 entry.2 out.2).2, [])
                end
            end
        | Fulfilled None => (with_manager state out.2, [])
        | Rejected (Value err) =>
            (with_manager state
               (NotificationManager.log LogError
                  ("Error processing notification: " +:+ message err) out.2).2, [])
        | Rejected (NoValue _) => (with_manager state out.2, [])
        end
  end.

End WithHost.
End Plugin.

(** ** lib/version-check.js *)

Module VersionCheck.
Import JsString.

(** A number of the host language: not-a-number, an infinity, or a
    finite value, which is a rational.  The two zeros are one value here;
    no operation used below tells them apart. *)
Inductive Num :=
| NaN
| NegInfinity
| Finite (q : QArith_base.Q)
| Infinity.

Definition zero : Num := Finite (QArith_base.Qmake 0 1).

(** [a < b] *)
Definition lt (a b : Num) : bool :=
  match a, b with
  | NaN, _ | _, NaN => false
  | NegInfinity, NegInfinity => false
  | NegInfinity, _ => true
  | _, NegInfinity => false
  | Infinity, _ => false
  | Finite _, Infinity => true
  | Finite p, Finite q =>
      match QArith_base.Qcompare p q with Lt => true | _ => false end
  end.

(** The truth value of a number: false for NaN and for zero. *)
Definition truthy (n : Num) : bool :=
  match n with
  | NaN => false
  | Finite q => negb (QArith_base.Qeq_bool q (QArith_base.Qmake 0 1))
  | NegInfinity | Infinity => true
  end.

(** [parts[i] || 0] *)
Definition part (parts : list Num) (i : nat) : Num :=
  match parts !! i with
  | Some n => if truthy n then n else zero
  | None => zero
  end.

(** [s.replace(/^v/, '')] *)
Definition strip_v (s : string) : string :=
  match s with
  | String c rest => if Ascii.eqb c "v"%char then rest else s
  | EmptyString => s
  end.

(** [s.split('.')]: the pieces between the dots, at least one. *)
Fixpoint split_dots (piece s : string) : list string :=
  match s with
  | EmptyString => [piece]
  | String c rest =>
      if Ascii.eqb c "."%char then piece :: split_dots "" rest
      else split_dots (piece +:+ String c "") rest
  end.

Definition split (s : string) : list string := split_dots "" s.

Section WithNumber.

(** [Number(text)] *)
Variable Number : string → Num.

(** The loop of [compareVersions] from index [i] on, [n] turns left. *)
Fixpoint compare_from (i n : nat) (currentParts latestParts : list Num) : Z :=
  match n with
  | O => 0%Z
  | S n' =>
      let currentPart := part currentParts i in
      let latestPart := part latestParts i in
      if lt currentPart latestPart then (-1)%Z
      else if lt latestPart currentPart then 1%Z
      else compare_from (S i) n' currentParts latestParts
  end.

(** [compareVersions(current, latest)] *)
Definition compareVersions (current latest : string) : Z :=
  let cleanCurrent := strip_v current in
  let cleanLatest := strip_v latest in
  let currentParts := List.map Number (split cleanCurrent) in
  let latestParts := List.map Number (split cleanLatest) in
  compare_from 0 3 currentParts latestParts.

End WithNumber.
End VersionCheck.

(** ** A host to run the definitions on

    Numbers are the natural numbers written in decimal, with [None] for
    NaN; lower-casing maps the letters A to Z; there is one instant; a
    reply is the status of the response, or [None] when the connection
    fails; the markup helpers add a plain prefix. *)

Module ExampleHost.

Definition lower_ascii (c : ascii) : ascii :=
  let n := nat_of_ascii c in
  if (65 <=? n) && (n <=? 90) then ascii_of_nat (n + 32) else c.

Fixpoint lower (s : string) : string :=
  match s with
  | EmptyString => EmptyString
  | String c s' => String (lower_ascii c) (lower s')
  end.

Fixpoint parse_digits (acc : nat) (s : string) : option nat :=
  match s with
  | EmptyString => Some acc
  | String c s' =>
      match Ascii.is_nat c with
      | Some d => parse_digits (10 * acc + d) s'
      | None => None
      end
  end.

Definition parse_number (s : string) : option nat :=
  match s with
  | EmptyString => None
  | _ => parse_digits 0 s
  end.

Definition host : Host := {|
  number := option nat;
  parseFloat := parse_number;
  isNaN := fun n => match n with None => true | Some _ => false end;
  num_zero := Some 0;
  isZero := fun n => match n with Some 0 => true | _ => false end;
  toLowerCase := lower;
  no_message := fun n =>
    match n with
    | Null => "Cannot read properties of null (reading 'message')"
    | Undefined => "Cannot read properties of undefined (reading 'message')"
    end;
  Date := unit;
  Reply := option nat;
  toLocaleString_short := fun _ => "Jan 1, 00:00";
  toISOString := fun _ => "1970-01-01T00:00:00.000Z";
  toLocaleTimeString_hm := fun _ => "00:00";
  C_ORANGE := "";
  C_CYAN := "";
  C_RESET := "";
  F_ERROR := fun text => "error: " +:+ text;
  F_SUCCESS := fun text => "ok: " +:+ text;
  F_INDENT := fun n => String.concat "" (repeat "  " n)
|}.

End ExampleHost.

(** ** Templates as the specification reads them

    A template is a sequence of literal text and placeholders; rendering
    replaces a placeholder by the value bound to its key. *)

Module Template.
Import JsString.

Inductive Segment :=
| Lit (text : string)
| Var (key : string).

Definition segment_text (seg : Segment) : string :=
  match seg with
  | Lit text => text
  | Var key => FormatTemplate.placeholder key
  end.

(** The template string the segments spell. *)
Definition text (segs : list Segment) : string :=
  foldr (fun seg rest => segment_text seg +:+ rest) "" segs.

(** The value bound to [key]: the first entry with that key. *)
Fixpoint binding (key : string) (variables : FormatTemplate.Variables)
  : option (option string) :=
  match variables with
  | [] => None
  | (k, value) :: rest => if String.eqb k key then Some value else binding key rest
  end.

(** A placeholder whose key is bound renders as the value, the empty
    string when the value is [undefined], [null] or empty; a placeholder
    whose key is not bound is kept as it is written. *)
Definition render_segment (variables : FormatTemplate.Variables) (seg : Segment) : string :=
  match seg with
  | Lit text => text
  | Var key =>
      match binding key variables with
      | Some value => FormatTemplate.or_empty value
      | None => FormatTemplate.placeholder key
      end
  end.

Definition render (variables : FormatTemplate.Variables) (segs : list Segment) : string :=
  foldr (fun seg rest => render_segment variables seg +:+ rest) "" segs.

(** The same, with every unbound placeholder rendered as the empty
    string. *)
Definition render_blank (variables : FormatTemplate.Variables) (segs : list Segment)
  : string :=
  foldr (fun seg rest =>
           match seg with
           | Lit text => text
           | Var key =>
               match binding key variables with
               | Some value => FormatTemplate.or_empty value
               | None => ""
               end
           end +:+ rest) "" segs.

(** [seg] once the placeholders of [key] are replaced by [rep]. *)
Definition subst (key rep : string) (seg : Segment) : Segment :=
  match seg with
  | Lit text => Lit text
  | Var k => if String.eqb k key then Lit rep else Var k
  end.

(** A letter, a digit or an underscore. *)
Definition word_unit (c : ascii) : bool :=
  let n := nat_of_ascii c in
  ((48 <=? n) && (n <=? 57)) || ((65 <=? n) && (n <=? 90))
  || ((97 <=? n) && (n <=? 122)) || (n =? 95).

(** A key made of letters, digits and underscores: the regular
    expression built from it matches its placeholder and nothing else. *)
Definition plain_key (key : string) : Prop := all_units word_unit key = true.

(** Text without an opening brace. *)
Definition brace_free (s : string) : Prop := mem "{"%char s = false.

(** Text without a dollar sign, which [String.prototype.replace] would
    read as a replacement pattern. *)
Definition dollar_free (s : string) : Prop := mem "$"%char s = false.

Definition well_formed (seg : Segment) : Prop :=
  match seg with
  | Lit text => brace_free text
  | Var key => plain_key key
  end.

Definition plain_binding (kv : string * option string) : Prop :=
  plain_key kv.1
  ∧ brace_free (FormatTemplate.or_empty kv.2)
  ∧ dollar_free (FormatTemplate.or_empty kv.2).

(** Text that is inserted as it stands and cannot spell a placeholder. *)
Definition plain_text (s : string) : Prop := brace_free s ∧ dollar_free s.

(** The template has a placeholder of [key]. *)
Definition uses (segs : list Segment) (key : string) : bool :=
  existsb (fun seg => match seg with
                      | Lit _ => false
                      | Var k => String.eqb k key
                      end) segs.

(** A variable with a plain key whose value is plain text when the
    template has a placeholder for it; the value of a variable the
    template does not use is not restricted. *)
Definition plain_where_used (segs : list Segment) (kv : string * option string) : Prop :=
  plain_key kv.1
  ∧ (uses segs kv.1 = true → plain_text (FormatTemplate.or_empty kv.2)).

End Template.

(** ** Vocabulary of the specification *)

Module Spec.
Import JsString Js Promise.
Section WithHost.
Context `{Host}.

(** The presence of the identity is known and it is not away. *)
Definition is_not_away (client : NotificationManager.Client) : Prop :=
  ∃ u, NotificationManager.user client = Some u ∧ NotificationManager.away u = false.

(** Two messages agree on their first [n] code units. *)
Definition agree_upto (n : nat) (a b : string) : Prop :=
  ∀ i, i < n → charAt i a = charAt i b.

(** The manager with another channels filter. *)
Definition with_channels (this : NotificationManager.t)
    (c : option Config.FilterChannels) : NotificationManager.t :=
  {| NotificationManager.config :=
       {| Config.enabled := Config.enabled (NotificationManager.config this);
          Config.channelName := Config.channelName (NotificationManager.config this);
          Config.services := Config.services (NotificationManager.config this);
          Config.filters :=
            {| Config.onlyWhenAway :=
                 Config.onlyWhenAway (Config.filters (NotificationManager.config this));
               Config.highlights :=
                 Config.highlights (Config.filters (NotificationManager.config this));
               Config.channels := c |};
          Config.format := Config.format (NotificationManager.config this) |};
     NotificationManager.logger := NotificationManager.logger this;
     NotificationManager.notifiers := NotificationManager.notifiers this;
     NotificationManager.recentNotifications :=
       NotificationManager.recentNotifications this |}.

(** The event as it would arrive from another channel. *)
Definition from_channel (messageData : MessageData.t) (channel : string) : MessageData.t :=
  {| MessageData.type := MessageData.type messageData;
     MessageData.network := MessageData.network messageData;
     MessageData.channel := channel;
     MessageData.nick := MessageData.nick messageData;
     MessageData.message := MessageData.message messageData;
     MessageData.timestamp := MessageData.timestamp messageData;
     MessageData.highlight := MessageData.highlight messageData |}.

(** A promise that settled by fulfilling. *)
Definition resolved {A} (p : Settled A) : bool :=
  match p with Fulfilled _ => true | Rejected _ => false end.

(** The services named by the result a call resolved with, if it did
    resolve with one. *)
Definition delivered_by (p : Settled (option NotificationManager.Result))
  : option (list string) :=
  match p with
  | Fulfilled (Some result) => Some (NotificationManager.services result)
  | _ => None
  end.

(** The sends of the entries of the notifier map, each with its name,
    when the outside replies [reply]. *)
Definition sends (notification : Notification.t) (reply : string → Reply)
    (entries : list (string * BaseNotifier.t)) : list (string * BaseNotifier.Sending) :=
  map (fun kv => (kv.1, BaseNotifier.send kv.2 notification (reply kv.1))) entries.

(** The names of the sends that resolved, in the order given. *)
Definition sent_names (settled : list (string * BaseNotifier.Sending)) : list string :=
  (List.filter (fun np => resolved (BaseNotifier.outcome np.2)) settled).*1.

(** What is written while the sends are started: for every entry the
    manager's line, at [level] and with the entry's name after [text],
    and then what the send writes before it returns. *)
Definition start_trace (level : LogLevel) (text : string) (notification : Notification.t)
    (reply : string → Reply) (entries : list (string * BaseNotifier.t)) : list LogEntry :=
  flat_map (fun kv => (level, text +:+ kv.1)
                      :: BaseNotifier.started
                           (BaseNotifier.send kv.2 notification (reply kv.1))) entries.

(** The line the manager logs for a failed send. *)
Definition failure_line (name : string) (e : Error) : LogEntry :=
  (LogError, "Failed to send via " +:+ name +:+ ": " +:+ message e).

(** The promise was rejected with [null] or [undefined]. *)
Definition without_reason {A} (p : Settled A) : Prop :=
  ∃ n, p = Rejected (NoValue n).

(** What is written as the requests end in the order given: the last
    lines of each request, followed by the manager's line when the send
    failed with a reason that has a message. *)
Definition settle_trace (settled : list (string * BaseNotifier.Sending)) : list LogEntry :=
  flat_map (fun np => BaseNotifier.ended np.2 ++
                      match BaseNotifier.outcome np.2 with
                      | Rejected (Value e) => [failure_line np.1 e]
                      | _ => []
                      end) settled.

(** How the promises chained on the sends settle: rejected where the
    failure handler could not read the reason. *)
Definition chained_all (settled : list (string * BaseNotifier.Sending))
  : list (Settled unit) :=
  map (fun np => match BaseNotifier.outcome np.2 with
                 | Rejected (NoValue n) => Rejected (Value {| message := no_message n |})
                 | _ => Fulfilled tt
                 end) settled.

(** The channel of the event is excluded by the channels filter, as the
    specification words it: it is on the blacklist, or a non-empty
    whitelist does not list it. *)
Definition channel_excluded (filters : Config.FilterConfig) (channel : string) : Prop :=
  ∃ c, Config.channels filters = Some c ∧
       (channel ∈ Config.blacklist c ∨
        (Config.whitelist c ≠ [] ∧ channel ∉ Config.whitelist c)).

(** *** Provider schema *)

(** The five attributes of a normalized descriptor are all present. *)
Definition has_all_five (d : FieldDescriptor.t) : Prop :=
  is_Some (FieldDescriptor.default d)
  ∧ is_Some (FieldDescriptor.example d)
  ∧ is_Some (FieldDescriptor.required d)
  ∧ is_Some (FieldDescriptor.validationError d)
  ∧ is_Some (FieldDescriptor.validate d).

(** The attributes normalization always provides. *)
Definition has_synthesized (d : FieldDescriptor.t) : Prop :=
  is_Some (FieldDescriptor.required d)
  ∧ is_Some (FieldDescriptor.validationError d)
  ∧ is_Some (FieldDescriptor.validate d)
  ∧ (is_Some (FieldDescriptor.default d) → is_Some (FieldDescriptor.example d)).

(** [norm] is [raw] normalized under the name [key], rule by rule. *)
Definition field_normalized (key : string) (raw norm : FieldDescriptor.t) : Prop :=
  FieldDescriptor.required norm
    = Some (from_option id false (FieldDescriptor.required raw))
  ∧ FieldDescriptor.example norm
    = match FieldDescriptor.example raw with
      | Some e => Some e
      | None => FieldDescriptor.default raw
      end
  ∧ FieldDescriptor.validationError norm
    = Some (from_option id ("Invalid value for " +:+ key)
              (FieldDescriptor.validationError raw))
  ∧ match FieldDescriptor.validate raw with
    | Some check => FieldDescriptor.validate norm = Some check
    | None => ∃ check, FieldDescriptor.validate norm = Some check ∧ ∀ v, check v = true
    end
  ∧ FieldDescriptor.default norm = FieldDescriptor.default raw
  ∧ FieldDescriptor.description norm = FieldDescriptor.description raw.

(** The field [key] of the configuration fails validation: it is required
    and its value is undefined, null or the empty string, or its validator
    rejects the value. *)
Definition field_fails (config : gmap string JsVal) (key : string)
    (variable : FieldDescriptor.t) : Prop :=
  (FieldDescriptor.required variable = Some true
   ∧ (get config key = VUndefined ∨ get config key = VNull ∨ get config key = VStr ""))
  ∨ (∃ check, FieldDescriptor.validate variable = Some check
              ∧ check (get config key) = false).

(** The schema declares the field [key]. *)
Definition declared (self : BaseNotifier.t) (key : string) : Prop :=
  key ∈ (BaseNotifier.registerVariables self).*1.

(** The declared names are not empty and differ even when case is
    ignored. *)
Definition well_named (self : BaseNotifier.t) : Prop :=
  ("" ∉ (BaseNotifier.registerVariables self).*1)
  ∧ NoDup (toLowerCase <$> (BaseNotifier.registerVariables self).*1).

(** The entry of the service [service] in a document, if any. *)
Definition entry_of (config : Config.t) (service : string)
  : option (gmap string JsVal) :=
  Config.services config ≫= (fun services => services !! service).

(** [config'] is [config] except that a missing entry for the notifier
    [self] (and with it a missing [services] map) has been created with
    the notifier's default service configuration. *)
Definition initialized (self : BaseNotifier.t) (config config' : Config.t) : Prop :=
  Config.enabled config' = Config.enabled config
  ∧ Config.channelName config' = Config.channelName config
  ∧ Config.filters config' = Config.filters config
  ∧ Config.format config' = Config.format config
  ∧ (∀ service, service ≠ BaseNotifier.name self →
       entry_of config' service = entry_of config service)
  ∧ entry_of config' (BaseNotifier.name self)
    = Some (from_option id (BaseNotifier.defaultServiceConfig self)
              (entry_of config (BaseNotifier.name self)))
  ∧ (is_Some (entry_of config (BaseNotifier.name self)) → config' = config).

(** *** Start-up *)

(** The entry of a service once [initializeNotifiers] has dealt with it:
    the constructor of a class that could be loaded has written the
    defaults of the class into the entry of an enabled service. *)
Definition written (require : string → Provider.Class + Error)
    (serviceName : string) (entry : gmap string JsVal) : gmap string JsVal :=
  if truthy (get entry "enabled") then
    match require serviceName with
    | inl NotifierClass =>
        Provider.apply_defaults
          (BaseNotifier.normalize_all (Provider.class_variables NotifierClass)) entry
    | inr _ => entry
    end
  else entry.

(** The service [serviceName] of the document is enabled, its module
    exports the class [NotifierClass], and its entry, completed with the
    defaults of the class, passes the validation of every field the class
    declares. *)
Definition activates (require : string → Provider.Class + Error) (config : Config.t)
    (serviceName : string) (NotifierClass : Provider.Class)
    (entry : gmap string JsVal) : Prop :=
  entry_of config serviceName = Some entry
  ∧ truthy (get entry "enabled") = true
  ∧ require serviceName = inl NotifierClass
  ∧ BaseNotifier.validate_loop (Provider.class_variables NotifierClass)
      (written require serviceName entry) = true.

(** The active notifier that start-up builds from the entry of a
    service, if it builds one. *)
Definition activated (require : string → Provider.Class + Error)
    (serviceName : string) (entry : gmap string JsVal) : option BaseNotifier.t :=
  if truthy (get entry "enabled") then
    match require serviceName with
    | inl NotifierClass =>
        let newNotifier := (Provider.construct NotifierClass entry).1 in
        if BaseNotifier.isMetadataMode newNotifier then None else Some newNotifier
    | inr _ => None
    end
  else None.

(** A notifier as the dispatch loop expects it: stored under its own
    name, set up, enabled and valid, and of a class that can send. *)
Definition ready (kv : string * BaseNotifier.t) : Prop :=
  kv.1 = BaseNotifier.name kv.2
  ∧ BaseNotifier.isMetadataMode kv.2 = false
  ∧ truthy (get (BaseNotifier.config kv.2) "enabled") = true
  ∧ BaseNotifier.validate kv.2 = true
  ∧ is_Some (BaseNotifier.transport kv.2).

(** What start-up logs about a service that is listed but does not
    become active. *)
Definition start_up_report (require : string → Provider.Class + Error)
    (serviceName : string) (entry : gmap string JsVal) : option LogEntry :=
  if truthy (get entry "enabled") then
    match require serviceName with
    | inl NotifierClass =>
        if BaseNotifier.validate_loop (Provider.class_variables NotifierClass)
             (written require serviceName entry)
        then None
        else Some (LogWarn, serviceName +:+ " is enabled but failed validation")
    | inr err =>
        Some (LogError, "Failed to initialize " +:+ serviceName +:+ ": " +:+ message err)
    end
  else Some (LogDebug, "Skipping " +:+ serviceName +:+ ": service is not enabled").

(** *** The stored document *)

(** A document with every property [validateConfig] writes: a services
    map, no channel lists, and a format with its four templates. *)
Definition populated (config : Config.t) : Prop :=
  is_Some (Config.services config)
  ∧ Config.channels (Config.filters config) = None
  ∧ ∃ format, Config.format config = Some format
              ∧ is_Some (FormatTemplate.title format)
              ∧ is_Some (FormatTemplate.titleWithChannel format)
              ∧ is_Some (FormatTemplate.message format)
              ∧ is_Some (FormatTemplate.actionMessage format).

(** [obj[key] = s] when the template is there. *)
Definition with_template (key : string) (template : option string)
    (obj : gmap string JsVal) : gmap string JsVal :=
  match template with
  | Some s => <[ key := VStr s ]> obj
  | None => obj
  end.

(** A document read as the object it is, for the properties
    [validateConfig] looks at. *)
Definition as_raw (config : Config.t) : ConfigManager.Raw :=
  {| ConfigManager.enabled := VBool (Config.enabled config);
     ConfigManager.channelName := VStr (Config.channelName config);
     ConfigManager.services :=
       match Config.services config with
       | Some entries => ConfigManager.Services entries
       | None => ConfigManager.NoServices
       end;
     ConfigManager.filters :=
       ConfigManager.Object
         (<[ "onlyWhenAway" := VBool (Config.onlyWhenAway (Config.filters config)) ]>
            {[ "highlights" := VBool (Config.highlights (Config.filters config)) ]});
     ConfigManager.format :=
       match Config.format config with
       | Some format =>
           ConfigManager.Object
             (with_template "title" (FormatTemplate.title format)
                (with_template "titleWithChannel" (FormatTemplate.titleWithChannel format)
                   (with_template "message" (FormatTemplate.message format)
                      (with_template "actionMessage"
                         (FormatTemplate.actionMessage format) ∅))))
       | None => ConfigManager.Falsy
       end |}.

End WithHost.
End Spec.

(** ** Objects to run the definitions on *)

Module Examples.
Import Js Promise.
#[local] Existing Instance ExampleHost.host.

(** Highlights are notified, away or not; two channel lists are
    configured. *)
Definition filters : Config.FilterConfig :=
  {| Config.onlyWhenAway := false;
     Config.highlights := true;
     Config.channels :=
       Some {| Config.whitelist := ["#allowed"]; Config.blacklist := ["#blocked"] |} |}.

(** A document without any service entry. *)
Definition config : Config.t :=
  {| Config.enabled := true;
     Config.channelName := "external-notify";
     Config.services := Some ∅;
     Config.filters := filters;
     Config.format := Some FormatTemplate.getDefaults |}.

(** A highlighted message of bob on freenode. *)
Definition event (type channel message : string) : MessageData.t :=
  {| MessageData.type := type;
     MessageData.network := "freenode";
     MessageData.channel := channel;
     MessageData.nick := "bob";
     MessageData.message := message;
     MessageData.timestamp := Some tt;
     MessageData.highlight := true |}.

Definition present : NotificationManager.Client :=
  {| NotificationManager.user := Some {| NotificationManager.away := false |} |}.

(** The body of a [send] in the manner of the providers of the
    repository: a response with a status from 200 to 299 is logged and
    resolves the promise; any other response, and a connection that
    fails, is logged as an error and rejects it with that error. *)
Definition transport (name : string) (_ : Notification.t) (reply : option nat)
  : BaseNotifier.Sending :=
  match reply with
  | Some status =>
      if (200 <=? status) && (status <? 300) then
        {| BaseNotifier.started := [];
           BaseNotifier.ended := [(LogDebug, name +:+ " notification sent")];
           BaseNotifier.outcome := Fulfilled tt |}
      else
        {| BaseNotifier.started := [];
           BaseNotifier.ended := [(LogError, name +:+ " error: API error")];
           BaseNotifier.outcome := Rejected (Value {| message := "API error" |}) |}
  | None =>
      {| BaseNotifier.started := [];
         BaseNotifier.ended := [(LogError, name +:+ " error: connect ECONNREFUSED")];
         BaseNotifier.outcome := Rejected (Value {| message := "connect ECONNREFUSED" |}) |}
  end.

(** An active notifier with that transport. *)
Definition notifier (name : string) : BaseNotifier.t :=
  {| BaseNotifier.config := {[ "enabled" := VBool true ]};
     BaseNotifier._isSetup := true;
     BaseNotifier._name := name;
     BaseNotifier._registerVariables := [];
     BaseNotifier._defaultServiceConfig := ∅;
     BaseNotifier.transport := Some (transport name) |}.


(** A manager with two active notifiers. *)
Definition manager : NotificationManager.t :=
  {| NotificationManager.config := config;
     NotificationManager.logger := [];
     NotificationManager.notifiers := [ ("up", notifier "up"); ("down", notifier "down") ];
     NotificationManager.recentNotifications := ∅ |}.


(** The world in which every server answers with status 200, except the
    one of [down], which cannot be reached; the requests end in the order
    [picks]. *)
Definition world (picks : list nat) : NotificationManager.World :=
  {| NotificationManager.now := tt;
     NotificationManager.reply :=
       fun name => if String.eqb name "down" then None else Some 200;
     NotificationManager.picks := picks |}.

(** The world in which every server answers with status 200. *)
Definition fair (picks : list nat) : NotificationManager.World :=
  {| NotificationManager.now := tt;
     NotificationManager.reply := fun _ => Some 200;
     NotificationManager.picks := picks |}.

(** A descriptor written without any attribute. *)
Definition bare : FieldDescriptor.t :=
  {| FieldDescriptor.default := None;
     FieldDescriptor.example := None;
     FieldDescriptor.description := None;
     FieldDescriptor.required := None;
     FieldDescriptor.validationError := None;
     FieldDescriptor.validate := None |}.

(** The base notifier in metadata mode, as the commands build it. *)
Definition base : BaseNotifier.t := BaseNotifier.new ∅.

(** Sixty code units; the two messages differ from the 56th on. *)
Definition long_message (tail : string) : string :=
  "0123456789012345678901234567890123456789012345678901234" +:+ tail.

(** A manager whose one notifier is registered under a capitalized
    name, as the Prowl class names itself. *)
Definition prowl_manager : NotificationManager.t :=
  {| NotificationManager.config := config;
     NotificationManager.logger := [];
     NotificationManager.notifiers := [ ("Prowl", notifier "Prowl") ];
     NotificationManager.recentNotifications := ∅ |}.

(** A message of bob that is no highlight. *)
Definition chatter : MessageData.t :=
  {| MessageData.type := "message";
     MessageData.network := "freenode";
     MessageData.channel := "#test";
     MessageData.nick := "bob";
     MessageData.message := "good morning";
     MessageData.timestamp := Some tt;
     MessageData.highlight := false |}.

(** A provider class with a required token and an optional sound. *)
Definition provider (name : string) : Provider.Class :=
  {| Provider.class_name := name;
     Provider.class_variables :=
       [ ("token",
          {| FieldDescriptor.default := Some (VStr "");
             FieldDescriptor.example := Some (VStr "YOUR_TOKEN");
             FieldDescriptor.description := Some "Access token of the pager";
             FieldDescriptor.required := Some true;
             FieldDescriptor.validationError := Some "Token must be a non-empty string";
             FieldDescriptor.validate := Some BaseNotifier.non_empty_string |});
         ("sound",
          {| FieldDescriptor.default := Some (VStr "pulse");
             FieldDescriptor.example := None;
             FieldDescriptor.description := None;
             FieldDescriptor.required := None;
             FieldDescriptor.validationError := None;
             FieldDescriptor.validate := None |}) ];
     Provider.class_transport := fun _ => transport name;
     Provider.class_debug := false |}.

Definition pager : Provider.Class := provider "pager".

(** The modules that can be loaded. *)
Definition require (fileName : string) : Provider.Class + Error :=
  if String.eqb fileName "pager" || String.eqb fileName "siren"
     || String.eqb fileName "gong"
  then inl (provider fileName)
  else inr {| message := "Cannot find module" |}.

(** The names of the services of the document below. *)
Definition service_names : list string := ["pager"; "beeper"; "siren"; "gong"].

(** A document with four services: one complete, one without module,
    one not enabled, one without its token. *)
Definition document : Config.t :=
  {| Config.enabled := true;
     Config.channelName := "external-notify";
     Config.services :=
       Some (<[ "pager" := <[ "enabled" := VBool true ]> {[ "token" := VStr "secret" ]} ]>
            (<[ "beeper" := {[ "enabled" := VBool true ]} ]>
            (<[ "siren" := <[ "enabled" := VBool false ]> {[ "token" := VStr "secret" ]} ]>
               {[ "gong" := {[ "enabled" := VBool true ]} ]})));
     Config.filters := filters;
     Config.format := Some FormatTemplate.getDefaults |}.

(** The session of the plugin around the example manager. *)
Definition session : Plugin.State :=
  {| Plugin.enabled := true;
     Plugin.notificationManager := Some manager;
     Plugin.client := present;
     Plugin.network_name := "freenode" |}.

(** A message of bob as the chat server pushes it. *)
Definition pushed (self : bool) (highlight : option bool) : Plugin.Msg :=
  {| Plugin.self := self;
     Plugin.type := "message";
     Plugin.from := Plugin.FromUser "bob";
     Plugin.text := "hey alice";
     Plugin.time := Some tt;
     Plugin.highlight := highlight |}.

(** [toLocaleTimeString()] of the one instant. *)
Definition clock (_ : Date) : string := "12:00:00".

(** [Number] on decimal numerals, the empty text reading as zero. *)
Definition Number (text : string) : VersionCheck.Num :=
  match text with
  | EmptyString => VersionCheck.zero
  | _ =>
      match ExampleHost.parse_number text with
      | Some n => VersionCheck.Finite (QArith_base.Qmake (Z.of_nat n) 1)
      | None => VersionCheck.NaN
      end
  end.

End Examples.

(** * Properties *)

(** ** Strings *)

Section StringFacts.
Import JsString.

Lemma substring_from_start (s : string) (n : nat) :
  substring s 0 n = take n s.
Proof.
  unfold substring. rewrite Nat.min_0_l, Nat.max_0_l, Nat.sub_0_r.
  now destruct s.
Qed.

Lemma take_eq_agree (n : nat) (a b : string) :
  take n a = take n b ↔ (∀ i, i < n → charAt i a = charAt i b).
Proof.
  revert a b. induction n as [|n IH]; intros a b.
  - split; [intros _ i Hi; lia | now destruct a, b].
  - destruct a as [|x a], b as [|y b]; simpl.
    + split; [reflexivity | reflexivity].
    + split; [discriminate | intros Hag; specialize (Hag 0 ltac:(lia)); discriminate].
    + split; [discriminate | intros Hag; specialize (Hag 0 ltac:(lia)); discriminate].
    + split.
      * intros Heq; injection Heq as -> Ht. intros [|i] Hi; [reflexivity|].
        simpl. apply IH; [exact Ht | lia].
      * intros Hag. f_equal.
        -- specialize (Hag 0 ltac:(lia)). now injection Hag.
        -- apply IH. intros i Hi. apply (Hag (S i)). lia.
Qed.

End StringFacts.

(** ** The template engine *)

Section TemplateEngine.
Import JsString FormatTemplate Template.
#[local] Arguments Ascii.eqb : simpl never.

Lemma append_cons (c : ascii) (s t : string) : String c s +:+ t = String c (s +:+ t).
Proof. reflexivity. Qed.

Lemma append_empty_l (s : string) : "" +:+ s = s.
Proof. reflexivity. Qed.

Lemma append_empty_r (s : string) : s +:+ "" = s.
Proof. induction s as [|c s IH]; [reflexivity|]. now rewrite append_cons, IH. Qed.

Lemma append_assoc (s t u : string) : (s +:+ t) +:+ u = s +:+ (t +:+ u).
Proof. induction s as [|c s IH]; [reflexivity|]. now rewrite !append_cons, IH. Qed.

Lemma mem_append (c : ascii) (s t : string) : mem c (s +:+ t) = mem c s || mem c t.
Proof.
  induction s as [|d s IH]; [reflexivity|].
  rewrite append_cons. cbn. now rewrite IH, orb_assoc.
Qed.

Lemma word_unit_not (c d : ascii) :
  word_unit c = true → word_unit d = false → Ascii.eqb d c = false.
Proof.
  intros Hc Hd. apply Ascii.eqb_neq. intros ->. congruence.
Qed.

Lemma plain_key_mem (key : string) (d : ascii) :
  plain_key key → word_unit d = false → mem d key = false.
Proof.
  unfold plain_key. induction key as [|c key IH]; [reflexivity|]. cbn.
  intros [Hc Hkey]%andb_true_iff Hd.
  now rewrite (word_unit_not c d Hc Hd), IH.
Qed.

Lemma strip_prefix_append (p rest : string) : strip_prefix p (p +:+ rest) = Some rest.
Proof.
  induction p as [|c p IH]; [reflexivity|].
  rewrite append_cons. cbn. now rewrite Ascii.eqb_refl.
Qed.

(** A replacement without dollar signs is inserted as it is. *)
Lemma GetSubstitution_plain (matched before after rep : string) :
  dollar_free rep → GetSubstitution matched before after rep = rep.
Proof.
  unfold dollar_free. induction rep as [|c rep IH]; [reflexivity|]. cbn.
  intros [Hc Hrep]%orb_false_iff. rewrite Ascii.eqb_sym in Hc. rewrite Hc.
  now rewrite IH.
Qed.

Lemma replace_scan_skip (pat rep x before rest : string) :
  replace_scan pat rep (String.length x) before (x +:+ rest)
  = replace_scan pat rep 0 (before +:+ x) rest.
Proof.
  revert before. induction x as [|c x IH]; intros before.
  - now rewrite append_empty_l, append_empty_r.
  - rewrite append_cons. cbn [String.length replace_scan]. rewrite IH.
    now rewrite append_assoc.
Qed.

(** The scan copies text in which the pattern cannot start. *)
Lemma replace_scan_text (c : ascii) (pat rep text before rest : string) :
  mem c text = false →
  replace_scan (String c pat) rep 0 before (text +:+ rest)
  = text +:+ replace_scan (String c pat) rep 0 (before +:+ text) rest.
Proof.
  revert before. induction text as [|d text IH]; intros before Hfree.
  - now rewrite append_empty_l, append_empty_r.
  - cbn in Hfree. apply orb_false_iff in Hfree as [Hd Htext].
    rewrite !append_cons. cbn [replace_scan strip_prefix]. rewrite Hd.
    rewrite (IH _ Htext). now rewrite append_assoc.
Qed.

(** The scan replaces the pattern where it stands. *)
Lemma replace_scan_hit (c : ascii) (pat rep before rest : string) :
  replace_scan (String c pat) rep 0 before (String c pat +:+ rest)
  = GetSubstitution (String c pat) before rest rep
      +:+ replace_scan (String c pat) rep 0 (before +:+ String c pat) rest.
Proof.
  rewrite append_cons. cbn [replace_scan strip_prefix String.length].
  rewrite Ascii.eqb_refl, strip_prefix_append.
  replace (S (String.length pat) - 1) with (String.length pat) by lia.
  rewrite replace_scan_skip. now rewrite append_assoc.
Qed.

(** Two placeholders with plain keys match only when the keys are equal. *)
Lemma strip_prefix_key (key key' rest : string) :
  plain_key key → plain_key key' →
  is_Some (strip_prefix (key +:+ "}}") ((key' +:+ "}}") +:+ rest)) → key = key'.
Proof.
  unfold plain_key. revert key'. induction key as [|a key IH]; intros [|b key'] Hk Hk'.
  - reflexivity.
  - rewrite ?append_empty_l, ?append_cons. cbn in Hk'. apply andb_true_iff in Hk' as [Hb _].
    change "}}" with (String "}" (String "}" "")). cbn [strip_prefix].
    rewrite (word_unit_not b "}"%char Hb eq_refl). intros [? [=]].
  - rewrite ?append_empty_l, ?append_cons. cbn in Hk. apply andb_true_iff in Hk as [Ha _].
    change "}}" with (String "}" (String "}" "")). rewrite ?append_cons. cbn [strip_prefix].
    rewrite Ascii.eqb_sym, (word_unit_not a "}"%char Ha eq_refl). intros [? [=]].
  - rewrite !append_cons. cbn in Hk, Hk'. cbn [strip_prefix].
    apply andb_true_iff in Hk as [_ Hk], Hk' as [_ Hk'].
    destruct (Ascii.eqb a b) eqn:Hab; [|intros [? [=]]].
    apply Ascii.eqb_eq in Hab as ->. intros Hsome. f_equal. now apply IH.
Qed.

(** The scan copies the placeholder of another key. *)
Lemma replace_scan_miss (key key' rep before rest : string) :
  plain_key key → plain_key key' → key' ≠ key →
  replace_scan (placeholder key) rep 0 before (placeholder key' +:+ rest)
  = placeholder key' +:+ replace_scan (placeholder key) rep 0
                           (before +:+ placeholder key') rest.
Proof.
  intros Hk Hk' Hne. unfold placeholder.
  change ("{{" +:+ key +:+ "}}") with (String "{" (String "{" (key +:+ "}}"))).
  change ("{{" +:+ key' +:+ "}}") with (String "{" (String "{" (key' +:+ "}}"))).
  rewrite !append_cons.
  (* no match at the first brace *)
  cbn [replace_scan strip_prefix]. rewrite !Ascii.eqb_refl.
  destruct (strip_prefix (key +:+ "}}") ((key' +:+ "}}") +:+ rest)) as [after|] eqn:Hstrip.
  { exfalso. apply Hne. symmetry.
    apply (strip_prefix_key key key' rest Hk Hk'). rewrite Hstrip. eauto. }
  (* nor at the second *)
  assert (Hsecond : strip_prefix (String "{" (key +:+ "}}")) ((key' +:+ "}}") +:+ rest) = None).
  { destruct key' as [|b key']; [reflexivity|].
    rewrite !append_cons. cbn. unfold plain_key in Hk'. cbn in Hk'.
    apply andb_true_iff in Hk' as [Hb _].
    now rewrite (word_unit_not b "{"%char Hb eq_refl). }
  cbn [strip_prefix] in Hsecond. rewrite Hsecond.
  (* and the rest of the placeholder has no opening brace *)
  rewrite (replace_scan_text "{"%char).
  - now rewrite !append_assoc.
  - rewrite mem_append, (plain_key_mem key' "{"%char Hk' eq_refl). reflexivity.
Qed.

Lemma subst_well_formed (key rep : string) (seg : Segment) :
  brace_free rep → well_formed seg → well_formed (subst key rep seg).
Proof.
  intros Hrep. destruct seg as [text|k]; [easy|]. cbn.
  now destruct (String.eqb k key).
Qed.

(** One pass of [process] over a template, segment by segment. *)
Lemma replace_scan_segments (key rep : string) (segs : list Segment)
    (before rest : string) :
  plain_key key → dollar_free rep → Forall well_formed segs →
  replace_scan (placeholder key) rep 0 before (text segs +:+ rest)
  = text (subst key rep <$> segs)
      +:+ replace_scan (placeholder key) rep 0 (before +:+ text segs) rest.
Proof.
  intros Hk Hrep Hsegs. revert before.
  induction Hsegs as [|seg segs Hseg _ IH]; intros before.
  - cbn. now rewrite append_empty_l, append_empty_r.
  - cbn [text foldr fmap list_fmap]. fold (text segs). fold (text (subst key rep <$> segs)).
    rewrite !append_assoc.
    destruct seg as [lit|k]; cbn [segment_text subst].
    + unfold placeholder at 1. change ("{{" +:+ key +:+ "}}") with (String "{" ("{" +:+ key +:+ "}}")).
      rewrite (replace_scan_text "{"%char) by exact Hseg.
      change (String "{" ("{" +:+ key +:+ "}}")) with (placeholder key).
      now rewrite IH, !append_assoc.
    + destruct (String.eqb k key) eqn:Hkk.
      * apply String.eqb_eq in Hkk as ->. cbn [segment_text].
        unfold placeholder at 1 3.
        change ("{{" +:+ key +:+ "}}") with (String "{" ("{" +:+ key +:+ "}}")).
        rewrite replace_scan_hit, GetSubstitution_plain by exact Hrep.
        change (String "{" ("{" +:+ key +:+ "}}")) with (placeholder key).
        now rewrite IH, !append_assoc.
      * apply String.eqb_neq in Hkk. cbn [segment_text].
        rewrite replace_scan_miss by assumption.
        now rewrite IH, !append_assoc.
Qed.

Lemma replace_all_segments (key rep : string) (segs : list Segment) :
  plain_key key → dollar_free rep → Forall well_formed segs →
  replace_all (placeholder key) rep (text segs) = text (subst key rep <$> segs).
Proof.
  intros Hk Hrep Hsegs. unfold replace_all.
  rewrite <- (append_empty_r (text segs)) at 1.
  rewrite replace_scan_segments by assumption. cbn. now rewrite append_empty_r.
Qed.

(** [process] is the fold over the variables, also on the empty
    template. *)
Lemma process_fold (t : string) (variables : Variables) :
  process (Some t) variables
  = fold_left (fun result kv => replace_all (placeholder kv.1) (or_empty kv.2) result)
      variables t.
Proof.
  destruct t as [|c t]; [|reflexivity]. cbn.
  induction variables as [|kv rest IH]; [reflexivity|]. exact IH.
Qed.

Lemma render_segment_unbound (variables : Variables) (seg : Segment) :
  segment_text seg = render_segment [] seg.
Proof. now destruct seg. Qed.

(** Substituting for the first variable, then rendering with the others,
    is rendering with all of them. *)
Lemma render_segment_subst (kv : string * option string) (variables : Variables)
    (seg : Segment) :
  render_segment variables (subst kv.1 (or_empty kv.2) seg)
  = render_segment (kv :: variables) seg.
Proof.
  destruct kv as [key value], seg as [lit|k]; cbn; [reflexivity|].
  rewrite (String.eqb_sym key k). now destruct (String.eqb k key).
Qed.

Lemma render_subst (kv : string * option string) (variables : Variables)
    (segs : list Segment) :
  render variables (subst kv.1 (or_empty kv.2) <$> segs) = render (kv :: variables) segs.
Proof.
  induction segs as [|seg segs IH]; [reflexivity|].
  cbn [render foldr fmap list_fmap]. fold (render variables (subst kv.1 (or_empty kv.2) <$> segs)).
  fold (render (kv :: variables) segs).
  now rewrite render_segment_subst, IH.
Qed.

Lemma render_nil (segs : list Segment) : render [] segs = text segs.
Proof.
  induction segs as [|seg segs IH]; [reflexivity|].
  cbn [render text foldr]. fold (render [] segs). fold (text segs).
  rewrite IH. now destruct seg.
Qed.

(** C5, as the code has it. On a template of literal text without
    opening braces and placeholders with plain keys, and variables with
    plain keys whose values hold neither an opening brace nor a dollar
    sign, [process] renders the template: every occurrence of the
    placeholder of a bound key becomes its value (the empty string for an
    undefined, null or empty value), and a placeholder whose key is not
    bound is kept as it is written. *)
Theorem process_renders (segs : list Segment) (variables : Variables) :
  Forall well_formed segs →
  Forall plain_binding variables →
  process (Some (text segs)) variables = render variables segs.
Proof.
  intros Hsegs Hvars. rewrite process_fold. revert segs Hsegs.
  induction Hvars as [|kv variables (Hk & Hb & Hd) _ IH]; intros segs Hsegs.
  - cbn [fold_left]. symmetry. apply render_nil.
  - cbn [fold_left]. rewrite replace_all_segments by assumption.
    rewrite IH.
    + apply render_subst.
    + apply Forall_fmap. eapply Forall_impl; [exact Hsegs|].
      intros seg. now apply subst_well_formed.
Qed.

End TemplateEngine.

(** ** The dispatch engine *)

Section DispatchEngine.
Context `{Host}.
Import JsString Js Promise NotificationManager.

(** The decision of [shouldNotify], without the logging. *)
Lemma shouldNotify_answer (this : t) (messageData : MessageData.t) (client : Client) :
  (shouldNotify messageData client this).1 =
    if Config.onlyWhenAway (Config.filters (config this))
       && match user client with Some u => negb (away u) | None => false end
    then false
    else Config.highlights (Config.filters (config this))
         && MessageData.highlight messageData.
Proof.
  unfold shouldNotify, bind, gets, log, ret; simpl.
  destruct (Config.onlyWhenAway _ && _); [reflexivity|].
  now destruct (Config.highlights _ && _).
Qed.

(** [shouldNotify] only writes to the logger. *)
Lemma shouldNotify_frame (this : t) (messageData : MessageData.t) (client : Client) :
  let this' := (shouldNotify messageData client this).2 in
  config this' = config this
  ∧ notifiers this' = notifiers this
  ∧ recentNotifications this' = recentNotifications this.
Proof.
  unfold shouldNotify, bind, gets, log, ret; simpl.
  destruct (Config.onlyWhenAway _ && _); [easy|].
  now destruct (Config.highlights _ && _).
Qed.

(** C2. [shouldNotify] answers false whenever [onlyWhenAway] is set and
    the identity is not away; in every other case it answers true exactly
    when [highlights] is set and the event is a highlight. *)
Theorem shouldNotify_policy (this : t) (messageData : MessageData.t) (client : Client) :
  let filters := Config.filters (config this) in
  let answer := (shouldNotify messageData client this).1 in
  (Config.onlyWhenAway filters = true → Spec.is_not_away client → answer = false)
  ∧ (¬ (Config.onlyWhenAway filters = true ∧ Spec.is_not_away client) →
     (answer = true ↔
      Config.highlights filters = true ∧ MessageData.highlight messageData = true)).
Proof.
  cbv zeta. rewrite shouldNotify_answer. split.
  - intros -> (u & -> & ->). reflexivity.
  - intros Hgate.
    destruct (Config.onlyWhenAway _) eqn:Howa; simpl.
    + destruct (user client) as [u|] eqn:Hu; simpl.
      * destruct (away u) eqn:Haway; simpl.
        -- apply andb_true_iff.
        -- exfalso. apply Hgate. split; [reflexivity|]. now exists u.
      * apply andb_true_iff.
    + apply andb_true_iff.
Qed.

(** C6, as the code has it. The channels filter and the channel of the
    event have no part in the decision of [shouldNotify]. *)
Theorem shouldNotify_ignores_channels (this : t) (messageData : MessageData.t)
    (client : Client) (c : option Config.FilterChannels) (channel : string) :
  (shouldNotify (Spec.from_channel messageData channel) client
     (Spec.with_channels this c)).1
  = (shouldNotify messageData client this).1.
Proof. now rewrite !shouldNotify_answer. Qed.

(** C4. For events with the same network, channel and nick, the
    deduplication keys are equal exactly when the messages agree on their
    first 50 code units. *)
Theorem getDeduplicationKey_prefix (e1 e2 : MessageData.t) :
  MessageData.network e1 = MessageData.network e2 →
  MessageData.channel e1 = MessageData.channel e2 →
  MessageData.nick e1 = MessageData.nick e2 →
  (Spec.agree_upto 50 (MessageData.message e1) (MessageData.message e2) →
   getDeduplicationKey e1 = getDeduplicationKey e2)
  ∧ (¬ Spec.agree_upto 50 (MessageData.message e1) (MessageData.message e2) →
     getDeduplicationKey e1 ≠ getDeduplicationKey e2).
Proof.
  intros Hn Hc Hk. unfold getDeduplicationKey, Spec.agree_upto.
  rewrite Hn, Hc, Hk, !substring_from_start. split.
  - intros Hag. apply take_eq_agree in Hag. now rewrite Hag.
  - intros Hdiff Heq. apply Hdiff, take_eq_agree.
    repeat (apply String.app_inj in Heq). exact Heq.
Qed.


(** *** Fan-out *)

Lemma completion_order_perm {A} (picks : list nat) (pending : list A) :
  completion_order picks pending ≡ₚ pending.
Proof.
  revert pending. induction picks as [|k picks IH]; intros pending; [reflexivity|].
  destruct pending as [|x rest]; [reflexivity|].
  cbn [completion_order].
  set (l := x :: rest). set (i := k `mod` length l).
  assert (Hi : i < length l) by (apply Nat.mod_upper_bound; discriminate).
  destruct (lookup_lt_is_Some_2 l i Hi) as [y Hy].
  rewrite (nth_lookup_Some l i x y Hy), IH.
  symmetry. now apply delete_Permutation.
Qed.

(** Every order of settlement is selected by some picks. *)
Lemma completion_order_complete {A} (pending order : list A) :
  order ≡ₚ pending → ∃ picks, completion_order picks pending = order.
Proof.
  revert pending. induction order as [|x order IH]; intros pending Hperm.
  - apply Permutation_nil_l in Hperm as ->. now exists [].
  - assert (Hx : x ∈ pending) by (rewrite <- Hperm; left).
    apply list_elem_of_lookup in Hx as [i Hi].
    pose proof (lookup_lt_Some _ _ _ Hi) as Hlt.
    destruct (IH (delete i pending)) as [picks Hpicks].
    { apply (Permutation_cons_inv (a := x)).
      rewrite Hperm. now apply delete_Permutation. }
    exists (i :: picks). destruct pending as [|y rest]; [inversion Hi|].
    cbn [completion_order]. rewrite Nat.mod_small by exact Hlt.
    now rewrite (nth_lookup_Some _ _ _ _ Hi), Hpicks.
Qed.

Lemma start_sends_run (notification : Notification.t) (reply : string → Reply)
    (entries : list (string * BaseNotifier.t)) (this : t) :
  start_sends notification reply entries this
  = (Spec.sends notification reply entries,
     {| config := config this;
        logger := logger this
                    ++ Spec.start_trace LogDebug "Sending notification via "
                         notification reply entries;
        notifiers := notifiers this;
        recentNotifications := recentNotifications this |}).
Proof.
  revert this. induction entries as [|[name notifier] rest IH]; intros this.
  - cbn. rewrite app_nil_r. now destruct this.
  - cbn [start_sends]. unfold bind, log at 1, log_all at 1, ret at 1.
    rewrite IH. cbn. now rewrite <- !app_assoc.
Qed.

(** As the requests end, a send that resolved leaves its name in
    [sentVia], one that rejected with a reason that has a message leaves
    a line in the log, and the promise chained on one that rejected
    without such a reason is rejected. *)
Lemma settle_all_run (settled : list (string * BaseNotifier.Sending))
    (sentVia : list string) (trace : list LogEntry) :
  settle_all settled (sentVia, trace)
  = (Spec.chained_all settled,
     (sentVia ++ Spec.sent_names settled, trace ++ Spec.settle_trace settled)).
Proof.
  revert sentVia trace.
  induction settled as [|[name sending] rest IH]; intros sentVia trace.
  - simpl. unfold Spec.sent_names, Spec.settle_trace. simpl. now rewrite !app_nil_r.
  - cbn [settle_all fst snd]. unfold chained, then_, catch_, on_sent, on_failed.
    unfold Spec.chained_all, Spec.sent_names, Spec.settle_trace. cbn.
    destruct (BaseNotifier.outcome sending) as [[]|[n|e]]; cbn [fst snd];
      rewrite IH; cbn; now rewrite <- ?app_assoc.
Qed.

(** When no failure handler throws, every chained promise is
    fulfilled. *)
Lemma chained_all_fulfilled (settled : list (string * BaseNotifier.Sending)) :
  Forall (fun np => ¬ Spec.without_reason (BaseNotifier.outcome np.2)) settled →
  Promise.all (Spec.chained_all settled) = Fulfilled (map (fun _ => tt) settled).
Proof.
  unfold Spec.chained_all.
  induction 1 as [|[name sending] rest Hhead _ IH]; [reflexivity|].
  cbn in *. rewrite IH.
  destruct (BaseNotifier.outcome sending) as [[]|[n|e]]; try reflexivity.
  exfalso. apply Hhead. now exists n.
Qed.


(** The chained promises are never rejected with anything else. *)
Lemma chained_all_cases (settled : list (string * BaseNotifier.Sending)) :
  (∃ l, Promise.all (Spec.chained_all settled) = Fulfilled l)
  ∨ (∃ n, Promise.all (Spec.chained_all settled)
          = Rejected (Value {| message := no_message n |})).
Proof.
  unfold Spec.chained_all.
  induction settled as [|[name sending] rest IH]; [left; now exists []|].
  cbn. destruct (BaseNotifier.outcome sending) as [[]|[n|e]]; cbn.
  - destruct IH as [[l ->]|[n ->]]; [left|right]; eauto.
  - right. eauto.
  - destruct IH as [[l ->]|[n ->]]; [left|right]; eauto.
Qed.

(** What a call of [processMessage] does for an event that passes the
    filter and whose key is fresh. *)
Lemma processMessage_sent (this : t) (messageData : MessageData.t) (client : Client)
    (world : World) :
  (shouldNotify messageData client this).1 = true →
  getDeduplicationKey messageData ∉ recentNotifications this →
  let notification := formatNotification (config this) (now world) messageData in
  let settled :=
    completion_order (picks world)
      (Spec.sends notification (reply world) (notifiers this)) in
  ∃ this',
    processMessage messageData client world this
    = (match Promise.all (Spec.chained_all settled) with
       | Fulfilled _ =>
           Fulfilled (Some {| notification := notification;
                              services := Spec.sent_names settled;
                              messageData := messageData |})
       | Rejected r => Rejected r
       end, this')
    ∧ config this' = config this
    ∧ notifiers this' = notifiers this
    ∧ recentNotifications this'
      = {[ getDeduplicationKey messageData ]} ∪ recentNotifications this
    ∧ logger this'
      = logger (shouldNotify messageData client this).2
          ++ Spec.start_trace LogDebug "Sending notification via " notification
               (reply world) (notifiers this)
          ++ Spec.settle_trace settled.
Proof.
  intros Hpass Hfresh. cbv zeta.
  pose proof (shouldNotify_frame this messageData client) as Hframe. cbv zeta in Hframe.
  unfold processMessage, bind at 1.
  destruct (shouldNotify messageData client this) as [pass this1]. simpl in Hpass, Hframe.
  destruct Hframe as (Hc & Hn & Hr). subst pass. cbn [negb].
  unfold bind at 1, gets at 1. rewrite Hr.
  rewrite bool_decide_eq_false_2 by exact Hfresh.
  unfold bind at 1, remember at 1.
  unfold bind at 1, gets at 1. cbn [config]. rewrite Hc.
  unfold bind at 1, gets at 1. cbn [notifiers]. rewrite Hn.
  set (notification := formatNotification (config this) (now world) messageData).
  unfold bind at 1. rewrite start_sends_run.
  unfold bind, await_all. cbn [logger config notifiers recentNotifications].
  rewrite settle_all_run. cbn [fst snd].
  destruct (Promise.all _); cbn; eexists; (split; [reflexivity|]); cbn;
    rewrite Hr, app_assoc; repeat split.
Qed.

(** The first call for an event that passes the filter and whose key is
    fresh never answers null, and leaves the key recorded. *)
Lemma processMessage_records (this : t) (messageData : MessageData.t) (client : Client)
    (world : World) :
  (shouldNotify messageData client this).1 = true →
  getDeduplicationKey messageData ∉ recentNotifications this →
  let out := processMessage messageData client world this in
  out.1 ≠ Fulfilled None
  ∧ config out.2 = config this
  ∧ notifiers out.2 = notifiers this
  ∧ recentNotifications out.2
    = {[ getDeduplicationKey messageData ]} ∪ recentNotifications this.
Proof.
  intros Hpass Hfresh. cbv zeta.
  destruct (processMessage_sent this messageData client world Hpass Hfresh)
    as (this' & -> & Hc & Hn & Hrec & _).
  cbn [fst snd]. split; [|easy].
  now destruct (Promise.all _).
Qed.



(** The sends of a call in the order they end, against the notifier
    map. *)
Lemma settled_sends (notification : Notification.t) (world : World)
    (entries : list (string * BaseNotifier.t)) (name : string)
    (sending : BaseNotifier.Sending) :
  (name, sending)
    ∈ completion_order (picks world) (Spec.sends notification (reply world) entries)
  ↔ ∃ notifier, (name, notifier) ∈ entries
                ∧ sending = BaseNotifier.send notifier notification (reply world name).
Proof.
  rewrite completion_order_perm. unfold Spec.sends. rewrite list_elem_of_fmap. split.
  - intros ([n nf] & [= -> ->] & Hin). eauto.
  - intros (nf & Hin & ->). exists (name, nf). eauto.
Qed.


Lemma sent_names_elem (settled : list (string * BaseNotifier.Sending)) (name : string) :
  name ∈ Spec.sent_names settled
  ↔ ∃ sending, (name, sending) ∈ settled
               ∧ Spec.resolved (BaseNotifier.outcome sending) = true.
Proof.
  unfold Spec.sent_names. rewrite list_elem_of_fmap. split.
  - intros ([n p] & -> & Hf). apply list_elem_of_In, filter_In in Hf as [Hf Hr].
    exists p. split; [now apply list_elem_of_In | exact Hr].
  - intros (p & Hf & Hr). exists (name, p). split; [reflexivity|].
    apply list_elem_of_In, filter_In. split; [now apply list_elem_of_In | exact Hr].
Qed.





End DispatchEngine.

(** ** The provider schema framework *)

Section ProviderSchema.
Context `{Host}.
Import JsString Js Promise BaseNotifier.

Lemma normalize_spec (key : string) (d : FieldDescriptor.t) :
  Spec.field_normalized key d (normalize key d).
Proof.
  destruct d as [dflt ex descr [req|] [err|] [check|]]; destruct ex, dflt;
    unfold Spec.field_normalized, normalize; cbn; repeat split; eauto.
Qed.

Lemma normalize_synthesized (key : string) (d : FieldDescriptor.t) :
  Spec.has_synthesized (normalize key d).
Proof.
  destruct d as [dflt ex descr [req|] [err|] [check|]]; destruct ex, dflt;
    unfold Spec.has_synthesized, normalize; cbn; repeat split; eauto;
    intros [? [=]].
Qed.

Lemma normalize_idempotent (key : string) (d : FieldDescriptor.t) :
  normalize key (normalize key d) = normalize key d.
Proof.
  destruct d as [dflt ex descr [req|] [err|] [check|]]; destruct ex, dflt; reflexivity.
Qed.

(** C7, as the code has it. The [registerVariables] setter keeps the
    names and their order; every stored descriptor follows from the raw
    one by the four rules, so it has [required], [validationError] and
    [validate], and has [example] whenever it has [default]; [default]
    itself is left as it was written.  Storing the stored map again
    changes nothing. *)
Theorem registerVariables_normalization (self : t)
    (value : list (string * FieldDescriptor.t)) :
  let stored := registerVariables (set_registerVariables self value) in
  Forall2 (fun raw norm =>
             norm.1 = raw.1
             ∧ Spec.field_normalized raw.1 raw.2 norm.2
             ∧ Spec.has_synthesized norm.2) value stored
  ∧ set_registerVariables (set_registerVariables self value) stored
    = set_registerVariables self value.
Proof.
  cbn. split.
  - induction value as [|[key d] rest IH]; constructor; [|exact IH].
    cbn. auto using normalize_spec, normalize_synthesized.
  - unfold set_registerVariables; cbn. f_equal.
    unfold normalize_all. rewrite map_map. apply map_ext.
    intros [key d]; cbn. now rewrite normalize_idempotent.
Qed.

(** *** Validation *)

Lemma is_blank_spec (value : JsVal) :
  is_blank value = true ↔ value = VUndefined ∨ value = VNull ∨ value = VStr "".
Proof.
  destruct value as [| | | |s|]; cbn; try (split; [discriminate | intros [|[|]]; discriminate]);
    try (split; auto; fail).
  rewrite String.eqb_eq. split; [intros ->; auto | intros [|[|[= ->]]]; try discriminate; reflexivity].
Qed.

Lemma field_fails_spec (config : gmap string JsVal) (key : string)
    (variable : FieldDescriptor.t) :
  Spec.field_fails config key variable ↔
  missing_required variable (get config key) = true
  ∨ rejected_by_validator variable (get config key) = true.
Proof.
  assert (Hreq : FieldDescriptor.required variable = Some true
                 ∧ (get config key = VUndefined ∨ get config key = VNull
                    ∨ get config key = VStr "")
                 ↔ missing_required variable (get config key) = true).
  { unfold missing_required. rewrite andb_true_iff, is_blank_spec.
    destruct (FieldDescriptor.required variable) as [[]|]; cbn; intuition congruence. }
  assert (Hval : (∃ check, FieldDescriptor.validate variable = Some check
                           ∧ check (get config key) = false)
                 ↔ rejected_by_validator variable (get config key) = true).
  { unfold rejected_by_validator.
    destruct (FieldDescriptor.validate variable) as [check|].
    - rewrite negb_true_iff. split; [intros (c & [= <-] & Hc); exact Hc | eauto].
    - split; [intros (c & [=] & _) | discriminate]. }
  unfold Spec.field_fails. tauto.
Qed.

Lemma validateWithLogging_loop_fst (self_name : string)
    (vars : list (string * FieldDescriptor.t)) (config : gmap string JsVal) :
  (validateWithLogging_loop self_name vars config).1 = validate_loop vars config.
Proof.
  induction vars as [|[key variable] rest IH]; [reflexivity|]. cbn.
  destruct (missing_required _ _); [reflexivity|].
  destruct (rejected_by_validator _ _); [reflexivity | exact IH].
Qed.

Lemma validate_loop_false (vars : list (string * FieldDescriptor.t))
    (config : gmap string JsVal) :
  validate_loop vars config = false ↔
  ∃ key variable, (key, variable) ∈ vars ∧ Spec.field_fails config key variable.
Proof.
  induction vars as [|[key variable] rest IH]; cbn.
  - split; [discriminate | intros (k & v & Hin & _); inversion Hin].
  - destruct (missing_required _ _) eqn:Hreq.
    { split; [intros _ | reflexivity]. exists key, variable.
      split; [left | apply field_fails_spec; auto]. }
    destruct (rejected_by_validator _ _) eqn:Hval.
    { split; [intros _ | reflexivity]. exists key, variable.
      split; [left | apply field_fails_spec; auto]. }
    rewrite IH. split.
    + intros (k & v & Hin & Hf). exists k, v. split; [now right | exact Hf].
    + intros (k & v & Hin & Hf). apply elem_of_cons in Hin as [[= -> ->]|Hin].
      * apply field_fails_spec in Hf as [Hf|Hf]; congruence.
      * eauto.
Qed.

Lemma validateWithLogging_loop_log (self_name : string)
    (vars : list (string * FieldDescriptor.t)) (config : gmap string JsVal) :
  validate_loop vars config = false →
  ∃ before key variable after,
    vars = before ++ (key, variable) :: after
    ∧ Forall (fun kv => ¬ Spec.field_fails config kv.1 kv.2) before
    ∧ Spec.field_fails config key variable
    ∧ (validateWithLogging_loop self_name vars config).2
      = [(LogError, error_text self_name key variable)].
Proof.
  induction vars as [|[key variable] rest IH]; cbn; [discriminate|].
  destruct (missing_required _ _) eqn:Hreq.
  { intros _. exists [], key, variable, rest. repeat split; [constructor|].
    apply field_fails_spec; auto. }
  destruct (rejected_by_validator _ _) eqn:Hval.
  { intros _. exists [], key, variable, rest. repeat split; [constructor|].
    apply field_fails_spec; auto. }
  intros (before & k & v & after & -> & Hbefore & Hfail & Hlog)%IH.
  exists ((key, variable) :: before), k, v, after. repeat split; [|exact Hfail|exact Hlog].
  constructor; [|exact Hbefore]. cbn.
  intros [Hf|Hf]%field_fails_spec; congruence.
Qed.

Lemma validateWithLogging_loop_quiet (self_name : string)
    (vars : list (string * FieldDescriptor.t)) (config : gmap string JsVal) :
  validate_loop vars config = true →
  (validateWithLogging_loop self_name vars config).2 = [].
Proof.
  induction vars as [|[key variable] rest IH]; cbn; [reflexivity|].
  destruct (missing_required _ _); [discriminate|].
  destruct (rejected_by_validator _ _); [discriminate | exact IH].
Qed.

(** C10. [validate] and [validateWithLogging] return the same boolean.
    It is false exactly when some declared field fails; then
    [validateWithLogging] has sent the logger one error, the text of the
    first failing field in declaration order (its [validationError] when
    that is a non-empty string), and otherwise nothing. *)
Theorem validate_validateWithLogging (self : t) :
  (validateWithLogging self).1 = validate self
  ∧ (validate self = false ↔
     ∃ key variable, (key, variable) ∈ registerVariables self
                     ∧ Spec.field_fails (config self) key variable)
  ∧ (validate self = true → (validateWithLogging self).2 = [])
  ∧ (validate self = false →
     ∃ before key variable after,
       registerVariables self = before ++ (key, variable) :: after
       ∧ Forall (fun kv => ¬ Spec.field_fails (config self) kv.1 kv.2) before
       ∧ Spec.field_fails (config self) key variable
       ∧ (validateWithLogging self).2 = [(LogError, error_text (name self) key variable)]
       ∧ (∀ e, FieldDescriptor.validationError variable = Some e → e ≠ "" →
            (validateWithLogging self).2 = [(LogError, e)])).
Proof.
  unfold validateWithLogging, validate. split; [apply validateWithLogging_loop_fst|].
  split; [apply validate_loop_false|].
  split; [apply validateWithLogging_loop_quiet|].
  intros (before & key & variable & after & Hvars & Hbefore & Hfail & Hlog)
    %(validateWithLogging_loop_log (name self)).
  exists before, key, variable, after. repeat split; try assumption.
  intros e He Hne. rewrite Hlog. unfold error_text. rewrite He.
  now apply String.eqb_neq in Hne as ->.
Qed.

(** *** Configuration commands *)

Lemma service_entry_set (self : t) (config : Config.t) (entry : gmap string JsVal) :
  service_entry self (set_service_entry self config entry) = entry.
Proof.
  unfold service_entry, set_service_entry. cbn. now rewrite lookup_insert_eq.
Qed.

Lemma entry_of_set_other (self : t) (config : Config.t) (entry : gmap string JsVal)
    (service : string) :
  service ≠ name self →
  Spec.entry_of (set_service_entry self config entry) service
  = from_option id ∅ (Config.services config) !! service.
Proof.
  intros Hne. unfold Spec.entry_of, set_service_entry. cbn.
  now rewrite lookup_insert_ne.
Qed.

(** The first lines of [handleConfig] only create what is missing. *)
Lemma init_config_initialized (self : t) (config : Config.t) :
  Spec.initialized self config (init_config self config).
Proof.
  unfold Spec.initialized, init_config, Spec.entry_of.
  destruct config as [en ch [services|] fl fmt]; cbn.
  - destruct (services !! name self) as [entry|] eqn:Hentry; cbn.
    + rewrite Hentry. repeat split; auto.
    + repeat split; auto.
      * intros service Hne. now rewrite lookup_insert_ne.
      * now rewrite lookup_insert_eq.
      * intros [? [=]].
  - repeat split; auto.
    + intros service Hne. now rewrite lookup_singleton_ne.
    + now rewrite lookup_singleton_eq.
    + intros [? [=]].
Qed.

(** What a successful call did. *)
Lemma handleConfig_success (self : t) (config : Config.t) (setting value : string) :
  let out := handleConfig self config setting value in
  success out.1 = true →
  ∃ key variable parsedValue,
    find_setting self setting = Some (key, variable)
    ∧ key ≠ ""
    ∧ parse_value variable setting value = inl parsedValue
    ∧ rejected_by_validator variable parsedValue = false
    ∧ let entry := <[ key := parsedValue ]> (service_entry self (init_config self config)) in
      let auto := negb (truthy (get entry "enabled")) && validate (with_config self entry) in
      autoEnabled out.1 = Some auto
      ∧ out.2 = set_service_entry self (init_config self config)
                  (if auto then <[ "enabled" := VBool true ]> entry else entry).
Proof.
  cbv zeta. unfold handleConfig.
  destruct (find_setting self setting) as [[key variable]|]; [|discriminate].
  destruct (String.eqb key "") eqn:Hkey; [discriminate|].
  destruct (parse_value variable setting value) as [parsedValue|text] eqn:Hparse;
    [|discriminate].
  destruct (rejected_by_validator variable parsedValue) eqn:Hval; [discriminate|].
  intros _. exists key, variable, parsedValue.
  apply String.eqb_neq in Hkey.
  destruct (negb (truthy _) && _); repeat split; solve [assumption | reflexivity].
Qed.

(** A call that fails stores nothing. *)
Lemma handleConfig_failure (self : t) (config : Config.t) (setting value : string) :
  let out := handleConfig self config setting value in
  success out.1 = false → out.2 = init_config self config.
Proof.
  cbv zeta. unfold handleConfig.
  destruct (find_setting self setting) as [[key variable]|]; [|reflexivity].
  destruct (String.eqb key ""); [reflexivity|].
  destruct (parse_value variable setting value) as [parsedValue|text]; [|reflexivity].
  destruct (rejected_by_validator variable parsedValue); [reflexivity|].
  now destruct (negb (truthy _) && _).
Qed.

(** The lookup ignores case. *)
Lemma find_setting_declared (self : t) (setting key : string) :
  Spec.well_named self →
  Spec.declared self key →
  toLowerCase setting = toLowerCase key →
  ∃ variable, find_setting self setting = Some (key, variable)
              ∧ (key, variable) ∈ registerVariables self.
Proof.
  intros [_ Hnodup] Hdecl Hcase. unfold find_setting.
  destruct (List.find _ (registerVariables self)) as [[found variable]|] eqn:Hfind.
  - apply find_some in Hfind as [Hin Hsame]. cbn in Hsame.
    apply String.eqb_eq in Hsame. apply list_elem_of_In in Hin.
    exists variable. enough (found = key) as -> by auto.
    assert (Hfound : found ∈ (registerVariables self).*1).
    { apply list_elem_of_fmap. now exists (found, variable). }
    apply list_elem_of_lookup in Hfound as [i Hi], Hdecl as [j Hj].
    assert (i = j) as ->; [|congruence].
    eapply NoDup_lookup; [exact Hnodup| |]; rewrite list_lookup_fmap.
    + rewrite Hi. cbn. now rewrite Hsame, Hcase.
    + now rewrite Hj.
  - exfalso. apply list_elem_of_fmap in Hdecl as ([k variable] & -> & Hin).
    apply list_elem_of_In in Hin.
    pose proof (find_none _ _ Hfind _ Hin) as Hno. cbn in Hno, Hcase.
    apply String.eqb_neq in Hno. congruence.
Qed.

Lemma find_setting_unknown (self : t) (setting : string) :
  (∀ key, Spec.declared self key → toLowerCase key ≠ toLowerCase setting) →
  find_setting self setting = None.
Proof.
  intros Hunknown. unfold find_setting.
  destruct (List.find _ (registerVariables self)) as [[found variable]|] eqn:Hfind;
    [|reflexivity].
  apply find_some in Hfind as [Hin Hsame]. cbn in Hsame.
  apply String.eqb_eq in Hsame. exfalso. apply (Hunknown found); [|exact Hsame].
  apply list_elem_of_fmap. exists (found, variable).
  split; [reflexivity | now apply list_elem_of_In].
Qed.

(** C8, as the code has it. In a schema whose names are not empty and
    differ when lower-cased, a setting name whose lower-cased form is
    that of a declared name resolves to that declared name and is not
    answered with Unknown setting.  When the value parses and the
    validator of the field accepts it, the call succeeds and stores the
    parsed value under the declared name, and changes no other key of
    the entry except, on auto-enable, the reserved [enabled], nor the
    entry of any other service; when the value does not parse or is
    rejected, the call fails and stores nothing.  A setting name whose
    lower-cased form is that of no declared name gets the unsuccessful
    Unknown-setting result with the declared names.  In every case
    nothing that existed in the document before is changed by the lookup
    itself: the call starts by creating a missing entry for this notifier
    from its defaults, and that is all an unsuccessful call does to the
    document. *)
Theorem handleConfig_setting_resolution (self : t) (config : Config.t)
    (setting value : string) :
  Spec.well_named self →
  let out := handleConfig self config setting value in
  let before := service_entry self (init_config self config) in
  let after := service_entry self out.2 in
  Spec.initialized self config (init_config self config)
  ∧ (∀ key, Spec.declared self key → toLowerCase setting = toLowerCase key →
       ∃ variable,
         (key, variable) ∈ registerVariables self
         ∧ find_setting self setting = Some (key, variable)
         ∧ out.1 ≠ unknown_setting self setting
         ∧ (∀ parsedValue,
              parse_value variable setting value = inl parsedValue →
              rejected_by_validator variable parsedValue = false →
              success out.1 = true
              ∧ (key ≠ "enabled" → after !! key = Some parsedValue)
              ∧ (∀ other, other ≠ key → other ≠ "enabled" →
                   after !! other = before !! other)
              ∧ (∀ service, service ≠ name self →
                   Spec.entry_of out.2 service = Spec.entry_of config service))
         ∧ ((∃ text, parse_value variable setting value = inr text)
            ∨ (∃ parsedValue, parse_value variable setting value = inl parsedValue
                              ∧ rejected_by_validator variable parsedValue = true) →
            success out.1 = false ∧ out.2 = init_config self config))
  ∧ ((∀ key, Spec.declared self key → toLowerCase key ≠ toLowerCase setting) →
       out.1 = unknown_setting self setting
       ∧ success out.1 = false
       ∧ messages out.1
         = [ F_ERROR ("Unknown " +:+ name self +:+ " setting: "
                        +:+ C_ORANGE +:+ setting +:+ C_RESET);
             F_INDENT 1 +:+ "Valid settings: " +:+ C_CYAN
               +:+ join ", " (registerVariables self).*1 +:+ C_RESET ]
       ∧ out.2 = init_config self config).
Proof.
  intros Hnamed. cbv zeta.
  split; [apply init_config_initialized|]. split.
  - intros key Hdecl Hcase.
    destruct (find_setting_declared self setting key Hnamed Hdecl Hcase)
      as (variable & Hfind & Hin).
    exists variable. split; [exact Hin|]. split; [exact Hfind|].
    assert (Hkey : key ≠ "") by (intros ->; now apply (proj1 Hnamed)).
    apply String.eqb_neq in Hkey.
    unfold handleConfig, unknown_setting, failure. rewrite Hfind, Hkey.
    split; [|split].
    + destruct (parse_value variable setting value) as [parsedValue|text];
        [|cbn; congruence].
      destruct (rejected_by_validator variable parsedValue); [cbn; congruence|].
      destruct (negb (truthy _) && _); cbn; congruence.
    + intros parsedValue -> ->.
      set (entry := <[ key := parsedValue ]> (service_entry self (init_config self config))).
      assert (Hother : ∀ service, service ≠ name self →
                Spec.entry_of (init_config self config) service
                = Spec.entry_of config service).
      { destruct (init_config_initialized self config) as (_ & _ & _ & _ & Hother & _).
        exact Hother. }
      assert (Hservices : ∀ service, service ≠ name self →
                from_option id ∅ (Config.services (init_config self config)) !! service
                = Spec.entry_of config service).
      { intros service Hne. rewrite <- (Hother service Hne). unfold Spec.entry_of.
        now destruct (Config.services (init_config self config)). }
      destruct (negb (truthy (get entry "enabled")) && validate (with_config self entry));
        cbn [fst snd success]; rewrite service_entry_set; subst entry.
      * split; [reflexivity|]. split; [|split].
        -- intros Hne. rewrite lookup_insert_ne by congruence. apply lookup_insert_eq.
        -- intros other Hk He.
           rewrite lookup_insert_ne by congruence. now rewrite lookup_insert_ne by congruence.
        -- intros service Hne. rewrite entry_of_set_other by exact Hne. now apply Hservices.
      * split; [reflexivity|]. split; [|split].
        -- intros _. apply lookup_insert_eq.
        -- intros other Hk He. now rewrite lookup_insert_ne by congruence.
        -- intros service Hne. rewrite entry_of_set_other by exact Hne. now apply Hservices.
    + intros [[text ->]|(parsedValue & -> & ->)]; now split.
  - intros Hunknown. unfold handleConfig.
    rewrite (find_setting_unknown self setting Hunknown). cbn. repeat split.
Qed.

(** C9. After a successful field mutation, of the field the setting
    resolves to and with the parsed value: when the updated service entry
    is not enabled and passes [validate], the call sets [enabled] to true
    and reports [autoEnabled]; when it is already enabled or fails
    [validate], the entry is left as updated and [autoEnabled] is false.
    Unless the mutated field is [enabled] itself, the flag tested is the
    one the entry had before the mutation. *)
Theorem handleConfig_auto_enable (self : t) (config : Config.t) (setting value : string) :
  let out := handleConfig self config setting value in
  success out.1 = true →
  ∃ key variable parsedValue,
    let before := service_entry self (init_config self config) in
    let updated := <[ key := parsedValue ]> before in
    find_setting self setting = Some (key, variable)
    ∧ parse_value variable setting value = inl parsedValue
    ∧ (key ≠ "enabled" → get updated "enabled" = get before "enabled")
    ∧ (truthy (get updated "enabled") = false →
       validate (with_config self updated) = true →
         autoEnabled out.1 = Some true
         ∧ service_entry self out.2 = <[ "enabled" := VBool true ]> updated
         ∧ get (service_entry self out.2) "enabled" = VBool true)
    ∧ (truthy (get updated "enabled") = true
       ∨ validate (with_config self updated) = false →
         autoEnabled out.1 = Some false
         ∧ service_entry self out.2 = updated).
Proof.
  cbv zeta. intros Hok.
  destruct (handleConfig_success self config setting value Hok)
    as (key & variable & parsedValue & Hfind & _ & Hparse & _ & Hauto & Hout).
  cbv zeta in Hauto, Hout. exists key, variable, parsedValue.
  rewrite Hauto, Hout, service_entry_set.
  split; [exact Hfind|]. split; [exact Hparse|]. split; [|split].
  - intros Hne. unfold get. now rewrite lookup_insert_ne.
  - intros -> ->. cbn. repeat split. unfold get. now rewrite lookup_insert_eq.
  - intros [-> | ->]; cbn; [easy|]. now rewrite andb_false_r.
Qed.

End ProviderSchema.

(** ** The properties on concrete objects *)

Section Instances.
#[local] Existing Instance ExampleHost.host.
Import JsString Js Promise.

(** The filter matrix of the specification. *)
Example shouldNotify_matrix :
  let answer onlyWhenAway highlights away highlight :=
    (NotificationManager.shouldNotify
       {| MessageData.type := "message"; MessageData.network := "freenode";
          MessageData.channel := "#test"; MessageData.nick := "bob";
          MessageData.message := "hey"; MessageData.timestamp := None;
          MessageData.highlight := highlight |}
       {| NotificationManager.user := Some {| NotificationManager.away := away |} |}
       {| NotificationManager.config :=
            {| Config.enabled := true; Config.channelName := "external-notify";
               Config.services := None;
               Config.filters :=
                 {| Config.onlyWhenAway := onlyWhenAway;
                    Config.highlights := highlights;
                    Config.channels := None |};
               Config.format := None |};
          NotificationManager.logger := [];
          NotificationManager.notifiers := [];
          NotificationManager.recentNotifications := ∅ |}).1 in
  answer true true false true = false
  ∧ answer true true false false = false
  ∧ answer true true true true = true
  ∧ answer false true false true = true
  ∧ answer false true false false = false
  ∧ answer false false false true = false
  ∧ answer false false true true = false.
Proof. repeat split. Qed.

(** The formatting examples of the specification. *)
Example formatNotification_channel :
  NotificationManager.formatNotification Examples.config tt
    (Examples.event "message" "#test" "hello world")
  = {| Notification.title := "freenode - #test";
       Notification.message := "<bob> hello world";
       Notification.timestamp := Some tt |}.
Proof. reflexivity. Qed.

Example formatNotification_action :
  Notification.message
    (NotificationManager.formatNotification Examples.config tt
       (Examples.event "action" "#test" "hello world"))
  = "* bob hello world".
Proof. reflexivity. Qed.

Example formatNotification_private :
  Notification.title
    (NotificationManager.formatNotification Examples.config tt
       (Examples.event "message" "bob" "hello world"))
  = "freenode".
Proof. reflexivity. Qed.


(** On that run the result lists [up] alone, and the log ends with the
    failure of [down], as the notifier and as the manager report it, and
    the line of [up]. *)
Example processMessage_fanout_run :
  let out :=
    NotificationManager.processMessage (Examples.event "message" "#test" "hey bob")
      Examples.present (Examples.world [1]) Examples.manager in
  Spec.delivered_by out.1 = Some ["up"]
  ∧ NotificationManager.logger out.2
    = [ (LogDebug, "Checking notification for message from bob in #test: "
                     +:+ NotificationManager.dquote +:+ "hey bob"
                     +:+ NotificationManager.dquote);
        (LogDebug, "Message is a highlight - sending notification");
        (LogDebug, "Sending notification via up");
        (LogDebug, "Sending notification via down");
        (LogError, "down error: connect ECONNREFUSED");
        (LogError, "Failed to send via down: connect ECONNREFUSED");
        (LogDebug, "up notification sent") ].
Proof. vm_compute. split; reflexivity. Qed.




(** C4 on two long messages that differ after the 50th code unit. *)
Lemma getDeduplicationKey_prefix_witness :
  let e1 := Examples.event "message" "#test" (Examples.long_message "first") in
  let e2 := Examples.event "message" "#test" (Examples.long_message "other") in
  (Spec.agree_upto 50 (MessageData.message e1) (MessageData.message e2) →
   NotificationManager.getDeduplicationKey e1 = NotificationManager.getDeduplicationKey e2)
  ∧ (¬ Spec.agree_upto 50 (MessageData.message e1) (MessageData.message e2) →
     NotificationManager.getDeduplicationKey e1 ≠ NotificationManager.getDeduplicationKey e2).
Proof.
  apply (getDeduplicationKey_prefix
           (Examples.event "message" "#test" (Examples.long_message "first"))
           (Examples.event "message" "#test" (Examples.long_message "other")));
    reflexivity.
Defined.

(** The keys of these two messages are the same; those of two short
    messages that differ are not. *)
Example getDeduplicationKey_run :
  NotificationManager.getDeduplicationKey
    (Examples.event "message" "#test" (Examples.long_message "first"))
  = NotificationManager.getDeduplicationKey
      (Examples.event "message" "#test" (Examples.long_message "other"))
  ∧ NotificationManager.getDeduplicationKey (Examples.event "message" "#test" "hello world")
    = "freenode-#test-bob-hello world"
  ∧ NotificationManager.getDeduplicationKey (Examples.event "message" "#test" "goodbye world")
    = "freenode-#test-bob-goodbye world".
Proof. repeat split. Qed.

(** C5, the example of the specification. *)
Lemma process_renders_witness :
  FormatTemplate.process (Some "{{a}}-{{a}}") [("a", Some "x")] = "x-x".
Proof.
  apply (process_renders [Template.Var "a"; Template.Lit "-"; Template.Var "a"]
           [("a", Some "x")]).
  - repeat constructor.
  - repeat constructor.
Defined.

(** C5 as stated fails: a placeholder whose key is not among the
    variables is not rendered as the empty string, it stays in the
    output. *)
Lemma process_keeps_unbound_placeholder :
  Template.binding "b" [("a", Some "x")] = None
  ∧ FormatTemplate.process (Some "{{b}}") [("a", Some "x")] = "{{b}}"
  ∧ FormatTemplate.process (Some (Template.text [Template.Var "b"])) [("a", Some "x")]
    ≠ Template.render_blank [("a", Some "x")] [Template.Var "b"].
Proof. repeat split. discriminate. Qed.

(** C6 as stated fails: a highlight from a channel that is on the
    blacklist, and not on the non-empty whitelist, is notified. *)
Lemma shouldNotify_notifies_blacklisted :
  Spec.channel_excluded
    (Config.filters (NotificationManager.config Examples.manager)) "#blocked"
  ∧ (NotificationManager.shouldNotify (Examples.event "message" "#blocked" "hey bob")
       Examples.present Examples.manager).1 = true.
Proof.
  split; [|reflexivity].
  eexists. split; [reflexivity|]. left. cbn. left.
Qed.

(** C7 as stated fails: a field declared without [default] and [example]
    has neither after normalization. *)
Lemma normalize_leaves_default_absent :
  ¬ Spec.has_all_five (BaseNotifier.normalize "token" Examples.bare).
Proof. intros ([v Hdefault] & _). discriminate Hdefault. Qed.

(** The base notifier without a user key: both checks fail, and the
    logging one reports the user key, the first field declared. *)
Example validateWithLogging_run :
  let self := BaseNotifier.new {[ "apiToken" := VStr "secret" ]} in
  BaseNotifier.validate self = false
  ∧ BaseNotifier.validateWithLogging self
    = (false, [(LogError, "User key must be a non-empty string")]).
Proof. split; reflexivity. Qed.

(** A field written with a default alone: normalization supplies the
    other four attributes. *)
Example normalize_run :
  let raw :=
    {| FieldDescriptor.default := Some (VStr "POST");
       FieldDescriptor.example := None;
       FieldDescriptor.description := None;
       FieldDescriptor.required := None;
       FieldDescriptor.validationError := None;
       FieldDescriptor.validate := None |} in
  let norm := BaseNotifier.normalize "method" raw in
  FieldDescriptor.example norm = Some (VStr "POST")
  ∧ FieldDescriptor.required norm = Some false
  ∧ FieldDescriptor.validationError norm = Some "Invalid value for method"
  ∧ Spec.has_all_five norm.
Proof. repeat split; eexists; reflexivity. Qed.

(** C8 on the base notifier and a document without entries. *)
Lemma handleConfig_setting_resolution_witness :
  let self := Examples.base in
  let config := Examples.config in
  let setting := "USERKEY" in
  let value := "abc" in
  let out := BaseNotifier.handleConfig self config setting value in
  let before := BaseNotifier.service_entry self (BaseNotifier.init_config self config) in
  let after := BaseNotifier.service_entry self out.2 in
  Spec.initialized self config (BaseNotifier.init_config self config)
  ∧ (∀ key, Spec.declared self key → toLowerCase setting = toLowerCase key →
       ∃ variable,
         (key, variable) ∈ BaseNotifier.registerVariables self
         ∧ BaseNotifier.find_setting self setting = Some (key, variable)
         ∧ out.1 ≠ BaseNotifier.unknown_setting self setting
         ∧ (∀ parsedValue,
              BaseNotifier.parse_value variable setting value = inl parsedValue →
              BaseNotifier.rejected_by_validator variable parsedValue = false →
              BaseNotifier.success out.1 = true
              ∧ (key ≠ "enabled" → after !! key = Some parsedValue)
              ∧ (∀ other, other ≠ key → other ≠ "enabled" →
                   after !! other = before !! other)
              ∧ (∀ service, service ≠ BaseNotifier.name self →
                   Spec.entry_of out.2 service = Spec.entry_of config service))
         ∧ ((∃ text, BaseNotifier.parse_value variable setting value = inr text)
            ∨ (∃ parsedValue,
                 BaseNotifier.parse_value variable setting value = inl parsedValue
                 ∧ BaseNotifier.rejected_by_validator variable parsedValue = true) →
            BaseNotifier.success out.1 = false
            ∧ out.2 = BaseNotifier.init_config self config))
  ∧ ((∀ key, Spec.declared self key → toLowerCase key ≠ toLowerCase setting) →
       out.1 = BaseNotifier.unknown_setting self setting
       ∧ BaseNotifier.success out.1 = false
       ∧ BaseNotifier.messages out.1
         = [ F_ERROR ("Unknown " +:+ BaseNotifier.name self +:+ " setting: "
                        +:+ C_ORANGE +:+ setting +:+ C_RESET);
             F_INDENT 1 +:+ "Valid settings: " +:+ C_CYAN
               +:+ join ", " (BaseNotifier.registerVariables self).*1 +:+ C_RESET ]
       ∧ out.2 = BaseNotifier.init_config self config).
Proof.
  apply (handleConfig_setting_resolution Examples.base Examples.config "USERKEY" "abc").
  split; apply (bool_decide_unpack _); vm_compute; exact I.
Defined.

(** On that call the value is stored under [userKey]; no key [USERKEY]
    appears. *)
Example handleConfig_uppercase_run :
  let out := BaseNotifier.handleConfig Examples.base Examples.config "USERKEY" "abc" in
  BaseNotifier.success out.1 = true
  ∧ BaseNotifier.service_entry Examples.base out.2 !! "userKey" = Some (VStr "abc")
  ∧ BaseNotifier.service_entry Examples.base out.2 !! "USERKEY" = None
  ∧ BaseNotifier.service_entry Examples.base out.2 !! "enabled" = Some (VBool false).
Proof. repeat split. Qed.

(** C8 as stated fails: a call with an unknown setting name on a
    document that has no entry for the notifier creates the entry. *)
Lemma handleConfig_unknown_setting_initializes :
  (∀ key, Spec.declared Examples.base key →
     toLowerCase key ≠ toLowerCase "invalidkey")
  ∧ Spec.entry_of Examples.config "BaseNotifier" = None
  ∧ is_Some (Spec.entry_of
               (BaseNotifier.handleConfig Examples.base Examples.config
                  "invalidkey" "value").2 "BaseNotifier")
  ∧ (BaseNotifier.handleConfig Examples.base Examples.config "invalidkey" "value").2
    ≠ Examples.config.
Proof.
  split; [|split; [reflexivity|split]].
  - intros key Hdecl. unfold Spec.declared in Hdecl. cbn in Hdecl.
    apply elem_of_cons in Hdecl as [->|Hdecl]; [discriminate|].
    apply elem_of_cons in Hdecl as [->|Hdecl]; [discriminate|].
    inversion Hdecl.
  - eexists. reflexivity.
  - intros Heq.
    apply (f_equal (fun c => Spec.entry_of c "BaseNotifier")) in Heq.
    discriminate Heq.
Qed.

(** C9 on the base notifier: the second of the two required fields. *)
Lemma handleConfig_auto_enable_witness :
  let self := Examples.base in
  let config :=
    (BaseNotifier.handleConfig Examples.base Examples.config "userkey" "abc").2 in
  let out := BaseNotifier.handleConfig self config "APITOKEN" "def" in
  ∃ key variable parsedValue,
    let before := BaseNotifier.service_entry self (BaseNotifier.init_config self config) in
    let updated := <[ key := parsedValue ]> before in
    BaseNotifier.find_setting self "APITOKEN" = Some (key, variable)
    ∧ BaseNotifier.parse_value variable "APITOKEN" "def" = inl parsedValue
    ∧ (key ≠ "enabled" → get updated "enabled" = get before "enabled")
    ∧ (truthy (get updated "enabled") = false →
       BaseNotifier.validate (BaseNotifier.with_config self updated) = true →
         BaseNotifier.autoEnabled out.1 = Some true
         ∧ BaseNotifier.service_entry self out.2 = <[ "enabled" := VBool true ]> updated
         ∧ get (BaseNotifier.service_entry self out.2) "enabled" = VBool true)
    ∧ (truthy (get updated "enabled") = true
       ∨ BaseNotifier.validate (BaseNotifier.with_config self updated) = false →
         BaseNotifier.autoEnabled out.1 = Some false
         ∧ BaseNotifier.service_entry self out.2 = updated).
Proof.
  apply (handleConfig_auto_enable Examples.base
           (BaseNotifier.handleConfig Examples.base Examples.config "userkey" "abc").2
           "APITOKEN" "def").
  reflexivity.
Defined.

(** On these two calls: the first leaves the entry disabled, the second
    enables it. *)
Example handleConfig_auto_enable_run :
  let first := BaseNotifier.handleConfig Examples.base Examples.config "userkey" "abc" in
  let second := BaseNotifier.handleConfig Examples.base first.2 "APITOKEN" "def" in
  BaseNotifier.autoEnabled first.1 = Some false
  ∧ get (BaseNotifier.service_entry Examples.base first.2) "enabled" = VBool false
  ∧ BaseNotifier.autoEnabled second.1 = Some true
  ∧ get (BaseNotifier.service_entry Examples.base second.2) "enabled" = VBool true.
Proof. repeat split. Qed.

End Instances.

(** ** The template engine and the values it inserts *)

Section TemplateValues.
Context `{Host}.
Import JsString FormatTemplate Template.
#[local] Arguments Ascii.eqb : simpl never.

Lemma replace_scan_done (pat rep before : string) (skip : nat) :
  replace_scan pat rep skip before "" = "".
Proof. reflexivity. Qed.

(** The scan copies a template that has no placeholder of the key,
    whatever the replacement is. *)
Lemma replace_scan_unused (key rep : string) (segs : list Segment)
    (before rest : string) :
  plain_key key → Forall well_formed segs → uses segs key = false →
  replace_scan (placeholder key) rep 0 before (text segs +:+ rest)
  = text segs +:+ replace_scan (placeholder key) rep 0 (before +:+ text segs) rest.
Proof.
  intros Hk Hsegs. revert before.
  induction Hsegs as [|seg segs Hseg _ IH]; intros before Hunused.
  - cbn. now rewrite append_empty_l, append_empty_r.
  - cbn [uses existsb] in Hunused. apply orb_false_iff in Hunused as [Hhead Htail].
    cbn [text foldr]. fold (text segs). rewrite !append_assoc.
    destruct seg as [lit|k]; cbn [segment_text].
    + unfold placeholder at 1.
      change ("{{" +:+ key +:+ "}}") with (String "{" ("{" +:+ key +:+ "}}")).
      rewrite (replace_scan_text "{"%char) by exact Hseg.
      change (String "{" ("{" +:+ key +:+ "}}")) with (placeholder key).
      now rewrite (IH _ Htail), !append_assoc.
    + apply String.eqb_neq in Hhead.
      rewrite replace_scan_miss by assumption.
      now rewrite (IH _ Htail), !append_assoc.
Qed.

Lemma replace_all_unused (key rep : string) (segs : list Segment) :
  plain_key key → Forall well_formed segs → uses segs key = false →
  replace_all (placeholder key) rep (text segs) = text segs.
Proof.
  intros Hk Hsegs Hunused. unfold replace_all.
  rewrite <- (append_empty_r (text segs)) at 1.
  rewrite replace_scan_unused by assumption.
  now rewrite replace_scan_done, append_empty_r.
Qed.

Lemma subst_unused (key rep : string) (segs : list Segment) :
  uses segs key = false → subst key rep <$> segs = segs.
Proof.
  induction segs as [|seg segs IH]; [reflexivity|].
  cbn [uses existsb]. intros [Hhead Htail]%orb_false_iff.
  cbn [fmap list_fmap]. fold (subst key rep <$> segs). rewrite (IH Htail).
  destruct seg as [lit|k]; [reflexivity|]. cbn. now rewrite Hhead.
Qed.

Lemma uses_subst (key rep k : string) (segs : list Segment) :
  uses (subst key rep <$> segs) k = true → uses segs k = true.
Proof.
  induction segs as [|seg segs IH]; [easy|].
  cbn [fmap list_fmap uses existsb]. fold (subst key rep <$> segs).
  intros [Hhead|Htail]%orb_true_iff; apply orb_true_iff.
  - left. destruct seg as [lit|k']; [discriminate|]. cbn in Hhead.
    destruct (String.eqb k' key); [discriminate | exact Hhead].
  - right. now apply IH.
Qed.

(** The loop of [process] and of [processTemplate] on a template given
    by its segments. *)
Lemma fold_replace_render (segs : list Segment) (variables : Variables) :
  Forall well_formed segs →
  Forall (plain_where_used segs) variables →
  fold_left (fun result kv => replace_all (placeholder kv.1) (or_empty kv.2) result)
    variables (text segs)
  = render variables segs.
Proof.
  intros Hsegs Hvars. revert segs Hsegs Hvars.
  induction variables as [|kv variables IH]; intros segs Hsegs Hvars.
  - symmetry. apply render_nil.
  - apply Forall_cons in Hvars as [[Hk Hplain] Hvars]. cbn [fold_left].
    destruct (uses segs kv.1) eqn:Hused.
    + destruct (Hplain eq_refl) as [Hb Hd].
      rewrite replace_all_segments by assumption.
      rewrite IH.
      * apply render_subst.
      * apply Forall_fmap. eapply Forall_impl; [exact Hsegs|].
        intros seg. now apply subst_well_formed.
      * eapply Forall_impl; [exact Hvars|]. intros kv' [Hk' Hplain'].
        split; [exact Hk'|]. intros Hused'. apply Hplain'.
        eapply uses_subst, Hused'.
    + rewrite replace_all_unused by assumption.
      rewrite (IH segs Hsegs Hvars).
      rewrite <- render_subst. now rewrite subst_unused.
Qed.

(** X1. [process] renders a template of literal text and placeholders
    with plain keys whenever the variables the template uses have plain
    values: the value of a variable without placeholder in the template is
    never looked at, whatever it holds. *)
Theorem process_ignores_unused_values (segs : list Segment) (variables : Variables) :
  Forall well_formed segs →
  Forall (plain_where_used segs) variables →
  process (Some (text segs)) variables = render variables segs.
Proof.
  intros Hsegs Hvars. rewrite process_fold. now apply fold_replace_render.
Qed.

Lemma placeholder_dollar_free (key : string) :
  plain_key key → dollar_free (placeholder key).
Proof.
  intros Hk. unfold dollar_free, placeholder.
  rewrite !mem_append, (plain_key_mem key "$"%char Hk eq_refl). reflexivity.
Qed.

(** One pass over a template that is a single placeholder. *)
Lemma replace_all_placeholder (key rep : string) :
  plain_key key → dollar_free rep →
  replace_all (placeholder key) rep (placeholder key) = rep.
Proof.
  intros Hk Hrep.
  rewrite <- (append_empty_r (placeholder key)) at 2.
  change (placeholder key +:+ "") with (text [Var key]).
  rewrite replace_all_segments by (repeat constructor; assumption).
  cbn. now rewrite String.eqb_refl, append_empty_r.
Qed.

Lemma replace_all_other_placeholder (key key' rep : string) :
  plain_key key → plain_key key' → key' ≠ key →
  replace_all (placeholder key) rep (placeholder key') = placeholder key'.
Proof.
  intros Hk Hk' Hne.
  rewrite <- (append_empty_r (placeholder key')).
  change (placeholder key' +:+ "") with (text [Var key']).
  apply replace_all_unused; [exact Hk | repeat constructor; exact Hk' |].
  cbn. apply String.eqb_neq in Hne. now rewrite Hne.
Qed.

(** X2. The value of a variable is handed to [String.prototype.replace]
    as a replacement pattern, not as text: in a template with one
    placeholder, a dollar pair in the value is expanded, so that [$$]
    renders as one dollar sign, [$&] as the placeholder itself, and the
    other two as the text before and after the placeholder. *)
Theorem process_expands_replacement_patterns (key before after value : string) :
  plain_key key → brace_free before → brace_free after →
  let template := before +:+ placeholder key +:+ after in
  process (Some template) [(key, Some value)]
  = before +:+ GetSubstitution (placeholder key) before after value +:+ after
  ∧ process (Some template) [(key, Some "$$")] = before +:+ "$" +:+ after
  ∧ process (Some template) [(key, Some "$&")] = template
  ∧ process (Some template) [(key, Some "$`")] = before +:+ before +:+ after
  ∧ process (Some template) [(key, Some "$'")] = before +:+ after +:+ after.
Proof.
  intros Hk Hbefore Hafter template.
  assert (Hgen : ∀ v, process (Some template) [(key, Some v)]
                      = before +:+ GetSubstitution (placeholder key) before after v +:+ after).
  { intros v. rewrite process_fold. cbn [fold_left fst snd or_empty].
    unfold replace_all, template.
    unfold placeholder at 1.
    change ("{{" +:+ key +:+ "}}") with (String "{" ("{" +:+ key +:+ "}}")).
    rewrite (replace_scan_text "{"%char) by exact Hbefore.
    unfold placeholder at 1.
    change ("{{" +:+ key +:+ "}}") with (String "{" ("{" +:+ key +:+ "}}")).
    rewrite replace_scan_hit.
    rewrite <- (append_empty_r after) at 2.
    rewrite (replace_scan_text "{"%char) by exact Hafter.
    rewrite replace_scan_done, append_empty_r, append_empty_l. reflexivity. }
  split; [apply Hgen|].
  split; [rewrite Hgen; reflexivity|].
  split.
  { rewrite Hgen.
    change (GetSubstitution (placeholder key) before after "$&")
      with (placeholder key +:+ "").
    now rewrite append_empty_r. }
  split.
  - rewrite Hgen.
    change (GetSubstitution (placeholder key) before after "$`") with (before +:+ "").
    now rewrite append_empty_r.
  - rewrite Hgen.
    change (GetSubstitution (placeholder key) before after "$'") with (after +:+ "").
    now rewrite append_empty_r.
Qed.

(** X3. A value that has been inserted is scanned again for the
    variables that come later, by [process] and, for keys that are not
    numerals, by the webhook's [processTemplate] alike: a value that
    spells the placeholder of a later variable is replaced by that
    variable's value, while the placeholder of an earlier one stays, so
    the outcome depends on the order of the variables. *)
Theorem process_rescans_inserted_values (a b value : string) :
  plain_key a → plain_key b → a ≠ b → plain_text value →
  process (Some (placeholder a)) [(a, Some (placeholder b)); (b, Some value)] = value
  ∧ process (Some (placeholder a)) [(b, Some value); (a, Some (placeholder b))]
    = placeholder b
  ∧ (numeral a = None → numeral b = None →
       Provider.processTemplate (placeholder a) [(a, placeholder b); (b, value)] = value
       ∧ Provider.processTemplate (placeholder a) [(b, value); (a, placeholder b)]
         = placeholder b).
Proof.
  intros Ha Hb Hne [_ Hdollar].
  pose proof (placeholder_dollar_free b Hb) as Hpb.
  split; [|split].
  - rewrite process_fold. cbn [fold_left fst snd or_empty].
    rewrite (replace_all_placeholder a) by assumption.
    now apply replace_all_placeholder.
  - rewrite process_fold. cbn [fold_left fst snd or_empty].
    rewrite (replace_all_other_placeholder b a) by assumption.
    now apply replace_all_placeholder.
  - intros Hna Hnb. unfold Provider.processTemplate, Provider.pattern.
    cbn [fold_left fst snd]. rewrite Hna, Hnb. split.
    + rewrite (replace_all_placeholder a) by assumption.
      now apply replace_all_placeholder.
    + rewrite (replace_all_other_placeholder b a) by assumption.
      now apply replace_all_placeholder.
Qed.

Lemma str_or_empty (s : string) : str_or s "" = s.
Proof. unfold str_or. destruct (String.eqb s "") eqn:Hs; [|reflexivity].
  now apply String.eqb_eq in Hs. Qed.

(** X4. With the default templates, a notification for an event whose
    network and channel are plain text has the title [network - channel]
    for a channel and [network] for a private message, and, when nick and
    message are plain text, the text [<nick> message], or [* nick message]
    for an action; date, time and the other variables play no part,
    whatever they hold. *)
Theorem formatNotification_default_templates (config : Config.t) (now : Date)
    (messageData : MessageData.t) :
  from_option id getDefaults (Config.format config) = getDefaults →
  let notification := NotificationManager.formatNotification config now messageData in
  let channel := MessageData.channel messageData in
  let network := MessageData.network messageData in
  let nick := MessageData.nick messageData in
  let message := MessageData.message messageData in
  (plain_text network → startsWith channel "#" = false →
     Notification.title notification = network)
  ∧ (plain_text network → plain_text channel → startsWith channel "#" = true →
       Notification.title notification = network +:+ " - " +:+ channel)
  ∧ (plain_text nick → plain_text message →
       Notification.message notification =
         if String.eqb (MessageData.type messageData) "action"
         then "* " +:+ nick +:+ " " +:+ message
         else "<" +:+ nick +:+ "> " +:+ message)
  ∧ Notification.timestamp notification = MessageData.timestamp messageData.
Proof.
  intros Hformat.
  destruct messageData as [type network channel nick message timestamp highlight].
  cbv zeta. unfold NotificationManager.formatNotification.
  rewrite Hformat.
  cbn [titleWithChannel title FormatTemplate.message actionMessage getDefaults
       Notification.title Notification.message Notification.timestamp
       MessageData.channel MessageData.network MessageData.nick MessageData.message
       MessageData.type MessageData.timestamp].
  set (messageData := {| MessageData.type := type |}).
  assert (Hkeys : ∀ segs, Forall well_formed segs →
            (uses segs "network" = true → plain_text network) →
            (uses segs "channel" = true →
               plain_text channel ∧ startsWith channel "#" = true) →
            (uses segs "nick" = true → plain_text nick) →
            (uses segs "message" = true → plain_text message) →
            uses segs "date" = false → uses segs "timestamp" = false →
            uses segs "time" = false → uses segs "user" = false →
            uses segs "text" = false → uses segs "server" = false →
            uses segs "type" = false →
            process (Some (text segs)) (getVariables now messageData)
            = render (getVariables now messageData) segs).
  { intros segs Hsegs Hnet Hchan Hnick Hmsg Hd Hts Ht Hu Htx Hs Hty.
    rewrite process_fold. apply fold_replace_render; [exact Hsegs|].
    unfold getVariables, messageData.
    cbn [MessageData.channel MessageData.network MessageData.nick MessageData.message
         MessageData.type MessageData.timestamp].
    repeat (apply List.Forall_cons); try apply List.Forall_nil;
      (split; [reflexivity|]); cbn [fst snd or_empty]; rewrite ?str_or_empty;
      try (intros Hused; congruence); try assumption.
    intros Hused. destruct (Hchan Hused) as [Hplain Hstart].
    rewrite Hstart. destruct channel; [discriminate Hstart | exact Hplain]. }
  split; [|split; [|split]].
  - intros Hnet Hpm. rewrite Hpm, andb_false_r. cbn [andb].
    change "{{network}}" with (text [Var "network"]).
    rewrite Hkeys; try reflexivity; try (intros; discriminate); try (intros; assumption).
    + unfold getVariables, messageData. cbn [render foldr render_segment].
      change (binding "network" _) with (Some (Some (str_or network ""))).
      cbn [or_empty]. now rewrite str_or_empty, append_empty_r.
    + repeat constructor.
  - intros Hnet Hchan Hstart. rewrite Hstart.
    assert (Hne : String.eqb channel "" = false).
    { destruct channel; [discriminate Hstart | reflexivity]. }
    rewrite Hne. cbn [negb andb NotificationManager.configured].
    change (String.eqb "{{network}} - {{channel}}" "") with false. cbn [negb].
    change "{{network}} - {{channel}}"
      with (text [Var "network"; Lit " - "; Var "channel"]).
    rewrite Hkeys; try reflexivity; try (intros; discriminate); try (intros; assumption).
    + unfold getVariables, messageData. cbn [render foldr render_segment].
      change (binding "network" _) with (Some (Some (str_or network ""))).
      change (binding "channel" _)
        with (Some (Some (if String.eqb channel "" || negb (startsWith channel "#")
                          then "PM" else channel))).
      cbn [or_empty MessageData.channel].
      rewrite Hstart, Hne, str_or_empty. cbn [negb orb].
      now rewrite append_empty_r.
    + repeat constructor.
    + intros _. now split.
  - intros Hnick Hmsg.
    destruct (String.eqb type "action"); cbn [andb NotificationManager.configured].
    + change (String.eqb "* {{nick}} {{message}}" "") with false. cbn [negb].
      change "* {{nick}} {{message}}"
        with (text [Lit "* "; Var "nick"; Lit " "; Var "message"]).
      rewrite Hkeys; try reflexivity; try (intros; discriminate); try (intros; assumption).
      * cbn [render foldr render_segment].
        change (binding "nick" _) with (Some (Some (str_or nick ""))).
        change (binding "message" _) with (Some (Some (str_or message ""))).
        cbn [or_empty]. now rewrite !str_or_empty, append_empty_r.
      * repeat constructor.
    + change "<{{nick}}> {{message}}"
        with (text [Lit "<"; Var "nick"; Lit "> "; Var "message"]).
      rewrite Hkeys; try reflexivity; try (intros; discriminate); try (intros; assumption).
      * cbn [render foldr render_segment].
        change (binding "nick" _) with (Some (Some (str_or nick ""))).
        change (binding "message" _) with (Some (Some (str_or message ""))).
        cbn [or_empty]. now rewrite !str_or_empty, append_empty_r.
      * repeat constructor.
  - reflexivity.
Qed.

End TemplateValues.

(** ** The dispatch engine: what is not sent, and the test notification *)

Section DispatchLifecycle.
Context `{Host}.
Import JsString Js Promise NotificationManager.

(** X5. An event that is not a highlight, or any event while the
    highlights filter is off or while the identity is present and
    [onlyWhenAway] is set, is dropped before anything else happens:
    [processMessage] resolves with null, no notifier is asked to send, the
    set of recent keys stays as it is (so the event cannot suppress a
    later one), and only debug lines are logged. *)
Theorem processMessage_filtered_event (this : t) (messageData : MessageData.t)
    (client : Client) (world : World) :
  MessageData.highlight messageData = false
  ∨ Config.highlights (Config.filters (config this)) = false
  ∨ (Config.onlyWhenAway (Config.filters (config this)) = true
     ∧ Spec.is_not_away client) →
  let out := processMessage messageData client world this in
  out.1 = Fulfilled None
  ∧ config out.2 = config this
  ∧ notifiers out.2 = notifiers this
  ∧ recentNotifications out.2 = recentNotifications this
  ∧ ∃ lines, logger out.2 = logger this ++ lines
             ∧ Forall (fun entry => entry.1 = LogDebug) lines.
Proof.
  intros Hdrop. cbv zeta.
  assert (Hanswer : (shouldNotify messageData client this).1 = false).
  { rewrite shouldNotify_answer.
    destruct Hdrop as [Hh|[Hh|[Hh (u & Hu & Ha)]]].
    - rewrite Hh, andb_false_r. now destruct (_ && _).
    - rewrite Hh. now destruct (_ && _).
    - now rewrite Hh, Hu, Ha. }
  revert Hanswer. unfold processMessage, bind at 1.
  unfold shouldNotify, bind, gets, log, ret; cbn.
  destruct (Config.onlyWhenAway _ && _); cbn.
  - intros _. repeat split. eexists. split; [rewrite <- app_assoc; reflexivity|].
    repeat constructor.
  - destruct (Config.highlights _ && _); cbn; [discriminate|].
    intros _. repeat split. eexists. split; [rewrite <- app_assoc; reflexivity|].
    repeat constructor.
Qed.

(** X6. Two events with the same deduplication key suppress each other
    within a cycle, whatever else differs between them: once the first
    has been notified, the second resolves with null and no notifier is
    asked to send it. *)
Theorem processMessage_same_key_suppressed (this : t) (first second : MessageData.t)
    (client client' : Client) (world world' : World) :
  (shouldNotify first client this).1 = true →
  getDeduplicationKey first ∉ recentNotifications this →
  getDeduplicationKey second = getDeduplicationKey first →
  let sent := processMessage first client world this in
  let out := processMessage second client' world' sent.2 in
  out.1 = Fulfilled None
  ∧ notifiers out.2 = notifiers this
  ∧ recentNotifications out.2 = recentNotifications sent.2
  ∧ ∃ lines, logger out.2 = logger sent.2 ++ lines
             ∧ Forall (fun entry => entry.1 = LogDebug) lines.
Proof.
  intros Hpass Hfresh Hkey. cbv zeta.
  destruct (processMessage_sent this first client world Hpass Hfresh)
    as (this' & -> & _ & Hn & Hrec & _).
  cbn [fst snd].
  assert (Hseen : getDeduplicationKey second ∈ recentNotifications this')
    by (rewrite Hrec, Hkey; apply elem_of_union_l, elem_of_singleton; reflexivity).
  rewrite <- Hn. clear Hn Hrec Hpass Hfresh.
  unfold processMessage, bind at 1.
  unfold shouldNotify, bind, gets, log, ret; cbn.
  destruct (Config.onlyWhenAway _ && _); cbn.
  - repeat split. eexists. split; [rewrite <- app_assoc; reflexivity|].
    repeat constructor.
  - destruct (Config.highlights _ && _); cbn.
    + rewrite bool_decide_eq_true_2 by exact Hseen. cbn. repeat split.
      eexists. split; [rewrite <- !app_assoc; reflexivity|]. repeat constructor.
    + repeat split. eexists. split; [rewrite <- app_assoc; reflexivity|].
      repeat constructor.
Qed.

(** X7. The key joins its four parts with a hyphen and does not mark
    where one part ends: moving a hyphenated piece from the end of the
    network name to the front of the channel name, or from the end of the
    channel name to the front of the nick, gives the same key, so events
    of different channels can share one. *)
Theorem getDeduplicationKey_separator_collision (type : string)
    (network piece channel nick message : string) (timestamp : option Date)
    (highlight : bool) :
  let event network channel nick :=
    {| MessageData.type := type; MessageData.network := network;
       MessageData.channel := channel; MessageData.nick := nick;
       MessageData.message := message; MessageData.timestamp := timestamp;
       MessageData.highlight := highlight |} in
  getDeduplicationKey (event (network +:+ "-" +:+ piece) channel nick)
  = getDeduplicationKey (event network (piece +:+ "-" +:+ channel) nick)
  ∧ getDeduplicationKey (event network (channel +:+ "-" +:+ piece) nick)
    = getDeduplicationKey (event network channel (piece +:+ "-" +:+ nick)).
Proof.
  cbv zeta. unfold getDeduplicationKey. cbn.
  split; now rewrite !append_assoc.
Qed.

(** X8. The timer's cleanup ends every suppression: after it the set of
    recent keys is empty, and an event that was notified before the
    cleanup is dispatched again: the next call does not answer null, it
    asks every notifier to send, and leaves the key of the event as the
    only recent one.  Unless a send rejects with null or undefined, it
    resolves with the notification formatted at its own instant and with
    the names of the notifiers whose send resolves this time. *)
Theorem cleanup_ends_suppression (this : t) (messageData : MessageData.t)
    (client : Client) (world world' : World) :
  (shouldNotify messageData client this).1 = true →
  getDeduplicationKey messageData ∉ recentNotifications this →
  let first := processMessage messageData client world this in
  let cleaned := (cleanupRecentNotifications first.2).2 in
  let again := processMessage messageData client world' cleaned in
  let notification := formatNotification (config this) (now world') messageData in
  let settles name notifier :=
    BaseNotifier.outcome (BaseNotifier.send notifier notification (reply world' name)) in
  recentNotifications cleaned = ∅
  ∧ notifiers cleaned = notifiers this
  ∧ config cleaned = config this
  ∧ again.1 ≠ Fulfilled None
  ∧ (∃ lines, logger again.2 = logger cleaned ++ lines
              ∧ ∀ name, name ∈ (notifiers this).*1 →
                  (LogDebug, "Sending notification via " +:+ name) ∈ lines)
  ∧ recentNotifications again.2 = {[ getDeduplicationKey messageData ]}
  ∧ ((∀ name notifier, (name, notifier) ∈ notifiers this →
        ¬ Spec.without_reason (settles name notifier)) →
     ∃ resent,
       again.1 = Fulfilled (Some resent)
       ∧ NotificationManager.notification resent = notification
       ∧ ∀ name, name ∈ services resent ↔
           ∃ notifier, (name, notifier) ∈ notifiers this
                       ∧ settles name notifier = Fulfilled tt).
Proof.
  intros Hpass Hfresh. cbv zeta.
  destruct (processMessage_records this messageData client world Hpass Hfresh)
    as (_ & Hc & Hn & _).
  set (cleaned := (cleanupRecentNotifications
                     (processMessage messageData client world this).2).2).
  assert (Hcc : config cleaned = config this) by (rewrite <- Hc; reflexivity).
  assert (Hcn : notifiers cleaned = notifiers this) by (rewrite <- Hn; reflexivity).
  assert (Hcr : recentNotifications cleaned = ∅) by reflexivity.
  assert (Hpass' : (shouldNotify messageData client cleaned).1 = true).
  { rewrite shouldNotify_answer in *. now rewrite Hcc. }
  assert (Hfresh' : getDeduplicationKey messageData ∉ recentNotifications cleaned).
  { rewrite Hcr. apply not_elem_of_empty. }
  destruct (processMessage_sent cleaned messageData client world' Hpass' Hfresh')
    as (this'' & Hrun & _ & _ & Hrec & Hlog).
  cbv zeta in Hrun, Hlog. rewrite Hcc, Hcn in Hrun, Hlog.
  set (notification := formatNotification (config this) (now world') messageData) in *.
  set (settled := completion_order (picks world')
                    (Spec.sends notification (reply world') (notifiers this))) in *.
  rewrite Hrun. cbn [fst snd].
  split; [exact Hcr|]. split; [exact Hcn|]. split; [exact Hcc|].
  split; [now destruct (Promise.all _)|]. split; [|split].
  - rewrite Hlog.
    assert (Hprefix : ∃ lines,
              logger (shouldNotify messageData client cleaned).2 = logger cleaned ++ lines).
    { unfold shouldNotify, bind, gets, log, ret; cbn.
      destruct (Config.onlyWhenAway _ && _); cbn; [eexists; now rewrite <- app_assoc|].
      destruct (Config.highlights _ && _); cbn; eexists; now rewrite <- app_assoc. }
    destruct Hprefix as [lines ->]. eexists. split; [now rewrite <- app_assoc|].
    intros name Hname. rewrite !elem_of_app. right. left.
    apply list_elem_of_fmap in Hname as ([n notifier] & -> & Hin).
    unfold Spec.start_trace. apply list_elem_of_In, in_flat_map.
    exists (n, notifier). split; [now apply list_elem_of_In | now left].
  - rewrite Hrec, Hcr. apply (right_id_L ∅ (∪)).
  - intros Hreasons. rewrite chained_all_fulfilled.
    2: { apply Forall_forall. intros [name sending] Hmem. cbn.
         apply settled_sends in Hmem as (notifier & Hmem & ->). eauto. }
    eexists. split; [reflexivity|]. split; [reflexivity|].
    cbn [services]. intros name. rewrite sent_names_elem. split.
    + intros (sending & Hmem & Hres).
      apply settled_sends in Hmem as (notifier & Hmem & ->).
      exists notifier. split; [exact Hmem|].
      now destruct (BaseNotifier.outcome _) as [[]|].
    + intros (notifier & Hmem & Hok). eexists. split; [apply settled_sends; eauto|].
      now rewrite Hok.
Qed.

Lemma start_test_sends_run (notification : Notification.t) (reply : string → Reply)
    (entries : list (string * BaseNotifier.t)) (this : t) :
  start_test_sends notification reply entries this
  = (Spec.sends notification reply entries,
     {| config := config this;
        logger := logger this
                    ++ Spec.start_trace LogInfo "Sending test notification via "
                         notification reply entries;
        notifiers := notifiers this;
        recentNotifications := recentNotifications this |}).
Proof.
  revert this. induction entries as [|[name notifier] rest IH]; intros this.
  - cbn. rewrite app_nil_r. now destruct this.
  - cbn [start_test_sends]. unfold bind, log at 1, log_all at 1, ret at 1.
    rewrite IH. cbn. now rewrite <- !app_assoc.
Qed.

(** [Promise.all] is fulfilled when every promise is. *)
Lemma all_fulfilled_iff {A} (ps : list (Settled A)) :
  Spec.resolved (Promise.all ps) = true ↔ Forall (fun p => Spec.resolved p = true) ps.
Proof.
  induction ps as [|[a|e] ps IH]; cbn.
  - split; [constructor | reflexivity].
  - rewrite Forall_cons, <- IH. destruct (Promise.all ps); cbn; intuition.
  - rewrite Forall_cons. cbn. intuition discriminate.
Qed.

(** It is rejected with the reason of the first promise that rejects. *)
Lemma all_rejected_iff {A} (ps : list (Settled A)) (r : Reason) :
  Promise.all ps = Rejected r ↔
  ∃ before after, ps = before ++ Rejected r :: after
                  ∧ Forall (fun p => Spec.resolved p = true) before.
Proof.
  induction ps as [|[a|r'] ps IH]; cbn.
  - split; [discriminate | intros ([|? ?] & after & Heq & _); discriminate].
  - destruct (Promise.all ps) as [l|r''].
    + split; [discriminate|]. intros (before & after & Heq & Hres).
      destruct before as [|p before]; [discriminate|]. injection Heq as <- Heq.
      apply Forall_cons in Hres as [_ Hres].
      enough (Fulfilled l = Rejected r) by discriminate.
      apply IH. eauto.
    + split.
      * intros [= ->]. destruct (proj1 IH eq_refl) as (before & after & -> & Hres).
        exists (Fulfilled a :: before), after. split; [reflexivity|].
        now constructor.
      * intros (before & after & Heq & Hres).
        destruct before as [|p before]; [discriminate|]. injection Heq as <- Heq.
        apply Forall_cons in Hres as [_ Hres]. apply IH. eauto.
  - split.
    + intros [= ->]. exists [], ps. split; [reflexivity | constructor].
    + intros (before & after & Heq & Hres).
      destruct before as [|p before]; [now injection Heq as -> _|].
      injection Heq as <- _. apply Forall_cons in Hres as [Hres _]. discriminate.
Qed.

(** The manager's lines are among what is written while the sends are
    started, in the order of the entries. *)
Lemma start_trace_sublist (level : LogLevel) (text : string)
    (notification : Notification.t) (reply : string → Reply)
    (entries : list (string * BaseNotifier.t)) :
  map (fun kv => (level, text +:+ kv.1)) entries
    `sublist_of` Spec.start_trace level text notification reply entries.
Proof.
  unfold Spec.start_trace.
  induction entries as [|[name notifier] rest IH]; cbn; [constructor|].
  apply sublist_skip. now apply sublist_inserts_l.
Qed.

(** X9. The test notification to all services has no failure isolation:
    the call resolves only when every service's send resolves; as soon as
    one rejects, the call rejects with the reason of the send that was the
    first to reject, and the manager logs no failure.  All sends are
    started, with one info line each in the order of the map; whatever
    else is written comes from the sends themselves, and the manager is
    otherwise left as it was.  The empty service name is treated as no
    name. *)
Theorem sendTestNotification_all_or_nothing (not_a_function : string) (this : t)
    (world : World) :
  let out := sendTestNotification not_a_function None world this in
  let notification := test_notification (now world) in
  let sending name notifier :=
    BaseNotifier.send notifier notification (reply world name) in
  let settled :=
    completion_order (picks world)
      (Spec.sends notification (reply world) (notifiers this)) in
  (out.1 = Fulfilled tt ↔
     ∀ name notifier, (name, notifier) ∈ notifiers this →
       BaseNotifier.outcome (sending name notifier) = Fulfilled tt)
  ∧ (∀ r, out.1 = Rejected r ↔
       ∃ before name failed after,
         settled = before ++ (name, failed) :: after
         ∧ BaseNotifier.outcome failed = Rejected r
         ∧ Forall (fun np => Spec.resolved (BaseNotifier.outcome np.2) = true) before)
  ∧ (∃ lines,
       logger out.2 = logger this ++ lines
       ∧ map (fun kv => (LogInfo, "Sending test notification via " +:+ kv.1))
           (notifiers this) `sublist_of` lines
       ∧ ∀ entry, entry ∈ lines →
           (∃ name, name ∈ (notifiers this).*1
                    ∧ entry = (LogInfo, "Sending test notification via " +:+ name))
           ∨ (∃ name notifier, (name, notifier) ∈ notifiers this
                               ∧ (entry ∈ BaseNotifier.started (sending name notifier)
                                  ∨ entry ∈ BaseNotifier.ended (sending name notifier))))
  ∧ config out.2 = config this
  ∧ notifiers out.2 = notifiers this
  ∧ recentNotifications out.2 = recentNotifications this
  ∧ sendTestNotification not_a_function (Some "") world this = out.
Proof.
  cbv zeta.
  set (notification := test_notification (now world)).
  set (settled := completion_order (picks world)
                    (Spec.sends notification (reply world) (notifiers this))).
  set (lines := Spec.start_trace LogInfo "Sending test notification via "
                  notification (reply world) (notifiers this)
                ++ flat_map (fun np => BaseNotifier.ended np.2) settled).
  set (logged :=
         {| config := config this;
            logger := logger this ++ lines;
            notifiers := notifiers this;
            recentNotifications := recentNotifications this |}).
  assert (Hrun : sendTestNotification not_a_function None world this
                 = (match Promise.all (BaseNotifier.outcome <$> settled.*2) with
                    | Fulfilled _ => Fulfilled tt
                    | Rejected r => Rejected r
                    end, logged)).
  { unfold sendTestNotification, bind, gets. fold notification.
    rewrite start_test_sends_run. unfold await_sends, bind, log_all.
    fold settled. cbn [logger config notifiers recentNotifications].
    unfold logged, lines. rewrite <- app_assoc.
    now destruct (Promise.all _). }
  assert (Hempty : sendTestNotification not_a_function (Some "") world this
                   = sendTestNotification not_a_function None world this) by reflexivity.
  rewrite Hempty, Hrun. cbn [fst snd].
  pose proof (all_fulfilled_iff (BaseNotifier.outcome <$> settled.*2)) as Hall.
  pose proof (all_rejected_iff (BaseNotifier.outcome <$> settled.*2)) as Hrej.
  split; [|split; [|split; [|repeat split]]].
  - transitivity (Forall (fun p => Spec.resolved p = true)
                    (BaseNotifier.outcome <$> settled.*2)).
    { rewrite <- Hall. destruct (Promise.all _); cbn;
        split; (reflexivity || discriminate). }
    rewrite !Forall_fmap, Forall_forall. split.
    + intros Hres name notifier Hin.
      assert ((name, BaseNotifier.send notifier notification (reply world name))
                ∈ settled) as Hmem by (apply settled_sends; eauto).
      specialize (Hres _ Hmem). cbn in Hres.
      now destruct (BaseNotifier.outcome _) as [[]|].
    + intros Hres [name sending] Hin. cbn.
      apply settled_sends in Hin as (notifier & Hin & ->). now rewrite (Hres _ _ Hin).
  - intros r.
    transitivity (Promise.all (BaseNotifier.outcome <$> settled.*2) = Rejected r).
    { destruct (Promise.all _); split; congruence. }
    rewrite Hrej. split.
    + intros (before & after & Heq & Hres).
      apply fmap_app_inv in Heq as (before' & rest & -> & Hrest & Heq).
      symmetry in Hrest. apply fmap_cons_inv in Hrest as (failed & after' & Hp & -> & ->).
      apply fmap_app_inv in Heq as (before'' & rest' & -> & Hrest & ->).
      symmetry in Hrest.
      apply fmap_cons_inv in Hrest as ([name failed'] & after'' & Hf & -> & ->).
      cbn in Hf. subst failed'.
      exists before'', name, failed, after''. split; [reflexivity|].
      split; [now symmetry|]. now rewrite !Forall_fmap in Hres.
    + intros (before & name & failed & after & -> & Hout & Hres).
      exists (BaseNotifier.outcome <$> before.*2), (BaseNotifier.outcome <$> after.*2).
      split; [rewrite !fmap_app, !fmap_cons; cbn; now rewrite Hout|].
      now rewrite !Forall_fmap.
  - exists lines. split; [reflexivity|]. split.
    + unfold lines. apply sublist_inserts_r, start_trace_sublist.
    + intros entry. unfold lines. rewrite elem_of_app. intros [Hstart|Hend].
      * unfold Spec.start_trace in Hstart.
        apply list_elem_of_In, in_flat_map in Hstart as ([name notifier] & Hin & Hentry).
        apply list_elem_of_In in Hin. cbn in Hentry. destruct Hentry as [<-|Hentry].
        -- left. exists name. split; [|reflexivity].
           apply list_elem_of_fmap. now exists (name, notifier).
        -- right. exists name, notifier. split; [exact Hin|]. left.
           now apply list_elem_of_In.
      * apply list_elem_of_In, in_flat_map in Hend as ([name sending] & Hin & Hentry).
        apply list_elem_of_In, settled_sends in Hin as (notifier & Hin & ->).
        right. exists name, notifier. split; [exact Hin|]. right.
        now apply list_elem_of_In.
Qed.

Lemma obj_get_Some_name {A} (key : string) (value : A) (obj : list (string * A)) :
  obj_get key obj = Some value → key ∈ obj.*1.
Proof.
  induction obj as [|[k v] rest IH]; cbn; [discriminate|].
  destruct (String.eqb k key) eqn:Hk.
  - intros _. apply String.eqb_eq in Hk as ->. left.
  - intros Hrest. right. now apply IH.
Qed.

Lemma obj_get_None_name {A} (key : string) (obj : list (string * A)) :
  key ∉ obj.*1 → obj_get key obj = None.
Proof.
  intros Hfree. destruct (obj_get key obj) as [value|] eqn:Hget; [|reflexivity].
  exfalso. apply Hfree. now apply (obj_get_Some_name key value).
Qed.

(** X27. The test command lower-cases the service name it is given,
    while a notifier is registered under the name its class gives
    itself.  So the test of a named service reaches the notifier
    registered under exactly the lower-cased name, with one info line
    before what that send writes, and is rejected as not found or not
    configured when there is none; when no registered name is the
    lower-cased form of any text, as with the name the Prowl class gives
    itself, a test by name is rejected however the name is typed. *)
Theorem test_command_reaches_lower_case_names (not_a_function : string) (this : t)
    (arg : string) (world : World) :
  arg ≠ "" → toLowerCase arg ≠ "" → inherited (toLowerCase arg) = false →
  let name := toLowerCase arg in
  let out :=
    sendTestNotification not_a_function (Commands.test_serviceName (Some arg)) world this in
  let not_found :=
    Rejected (Value {| message := "Service " +:+ dquote +:+ name +:+ dquote
                                    +:+ " not found or not configured" |}) in
  (∀ notifier, obj_get name (notifiers this) = Some notifier →
     let sending :=
       BaseNotifier.send notifier (test_notification (now world)) (reply world name) in
     out.1 = BaseNotifier.outcome sending
     ∧ logger out.2
       = logger this
           ++ (LogInfo, "Sending test notification via " +:+ name)
              :: BaseNotifier.started sending ++ BaseNotifier.ended sending)
  ∧ (name ∉ (notifiers this).*1 → out = (not_found, this))
  ∧ ((∀ registered, registered ∈ (notifiers this).*1 →
        ∀ text, toLowerCase text ≠ registered) →
     out = (not_found, this)).
Proof.
  intros Harg Hname Hown. cbv zeta.
  apply String.eqb_neq in Harg, Hname.
  unfold Commands.test_serviceName, sendTestNotification. rewrite Harg, Hname.
  unfold bind, gets.
  destruct (obj_get (toLowerCase arg) (notifiers this)) as [found|] eqn:Hget.
  - pose proof (obj_get_Some_name _ _ _ Hget) as Hin.
    split; [|split].
    + intros notifier [= <-]. unfold log, log_all, ret. cbn. split; [reflexivity|].
      now rewrite <- !app_assoc.
    + intros Hfree. contradiction.
    + intros Hupper. exfalso. now apply (Hupper _ Hin arg).
  - rewrite Hown. unfold ret. cbn [fst].
    split; [intros notifier [=]|]. split; reflexivity.
Qed.

End DispatchLifecycle.

(** ** The provider classes: construction and validation *)

Section ProviderLifecycle.
Context `{Host}.
Import JsString Js Promise BaseNotifier.

Lemma get_insert (config : gmap string JsVal) (key : string) (value : JsVal) :
  get (<[ key := value ]> config) key = value.
Proof. unfold get. now rewrite lookup_insert_eq. Qed.

Lemma get_insert_ne (config : gmap string JsVal) (key other : string) (value : JsVal) :
  key ≠ other → get (<[ key := value ]> config) other = get config other.
Proof. intros Hne. unfold get. now rewrite lookup_insert_ne. Qed.

Lemma missing_required_normalize (key : string) (d : FieldDescriptor.t) (value : JsVal) :
  missing_required (normalize key d) value = missing_required d value.
Proof.
  destruct d as [dflt ex descr [req|] [err|] [check|]]; destruct ex, dflt; reflexivity.
Qed.

Lemma rejected_by_validator_normalize (key : string) (d : FieldDescriptor.t)
    (value : JsVal) :
  rejected_by_validator (normalize key d) value = rejected_by_validator d value.
Proof.
  destruct d as [dflt ex descr [req|] [err|] [check|]]; destruct ex, dflt; reflexivity.
Qed.

(** Normalization does not change which configurations are valid. *)
Lemma validate_loop_normalize (vars : list (string * FieldDescriptor.t))
    (config : gmap string JsVal) :
  validate_loop (normalize_all vars) config = validate_loop vars config.
Proof.
  induction vars as [|[key d] rest IH]; [reflexivity|].
  change (validate_loop ((key, normalize key d) :: normalize_all rest) config
          = validate_loop ((key, d) :: rest) config).
  cbn [validate_loop].
  now rewrite missing_required_normalize, rejected_by_validator_normalize, IH.
Qed.

Lemma field_fails_normalize (config : gmap string JsVal) (key : string)
    (d : FieldDescriptor.t) :
  Spec.field_fails config key (normalize key d) ↔ Spec.field_fails config key d.
Proof.
  now rewrite !field_fails_spec, missing_required_normalize,
    rejected_by_validator_normalize.
Qed.

(** The check of one field, as a boolean. *)
Lemma validate_loop_forallb (vars : list (string * FieldDescriptor.t))
    (config : gmap string JsVal) :
  validate_loop vars config
  = forallb (fun kv => negb (missing_required kv.2 (get config kv.1))
                       && negb (rejected_by_validator kv.2 (get config kv.1))) vars.
Proof.
  induction vars as [|[key d] rest IH]; [reflexivity|]. cbn.
  destruct (missing_required _ _); [reflexivity|].
  destruct (rejected_by_validator _ _); [reflexivity | exact IH].
Qed.

(** X10. [validate] looks at the declared fields of the configuration
    and at nothing else: two notifiers with the same fields, declared in
    any order, whose configurations agree on every declared field are
    both valid or both invalid, whatever other keys, [enabled] among
    them, the configurations hold. *)
Theorem validate_declared_fields_only (self other : t) :
  registerVariables other ≡ₚ registerVariables self →
  (∀ key, Spec.declared self key →
     get (config other) key = get (config self) key) →
  validate other = validate self.
Proof.
  intros Hperm Hagree. unfold validate. rewrite !validate_loop_forallb.
  transitivity
    (forallb (fun kv => negb (missing_required kv.2 (get (config other) kv.1))
                        && negb (rejected_by_validator kv.2 (get (config other) kv.1)))
       (registerVariables self)).
  - apply eq_true_iff_eq. rewrite !forallb_forall.
    split; intros Hall kv Hin; apply Hall; apply list_elem_of_In;
      apply list_elem_of_In in Hin; [now rewrite Hperm | now rewrite <- Hperm].
  - unfold Spec.declared in Hagree. clear Hperm. revert Hagree.
    generalize (registerVariables self). intros l.
    induction l as [|[key d] rest IH]; intros Hagree; [reflexivity|].
    cbn. rewrite (Hagree key) by (cbn; left). f_equal.
    apply IH. intros k Hk. apply Hagree. cbn. now right.
Qed.

(** X11. The normalization of the setter does not change the verdict of
    validation: a schema is checked as it was written, a field without
    [required] being optional and one without [validate] accepting every
    value.  What it changes is the error that is logged: for the first
    failing field it is the [validationError] as written when that is a
    non-empty string, and [Invalid value for <field>] when none was
    written; the fallback text of [validateWithLogging] is logged only
    for a [validationError] written as the empty string. *)
Theorem validation_after_normalization (self : t)
    (value : list (string * FieldDescriptor.t)) :
  let stored := set_registerVariables self value in
  validate stored = validate_loop value (config self)
  ∧ (validateWithLogging stored).1 = validate_loop value (config self)
  ∧ (validate_loop value (config self) = true → (validateWithLogging stored).2 = [])
  ∧ (validate_loop value (config self) = false →
     ∃ before key d after,
       value = before ++ (key, d) :: after
       ∧ Forall (fun kv => ¬ Spec.field_fails (config self) kv.1 kv.2) before
       ∧ Spec.field_fails (config self) key d
       ∧ (validateWithLogging stored).2
         = [(LogError,
             match FieldDescriptor.validationError d with
             | None => "Invalid value for " +:+ key
             | Some e =>
                 if String.eqb e ""
                 then "Configuration error: " +:+ key +:+ " is required for " +:+ name self
                 else e
             end)]).
Proof.
  cbv zeta. unfold validate, validateWithLogging. cbn [registerVariables
    _registerVariables set_registerVariables config name _name].
  rewrite validateWithLogging_loop_fst, validate_loop_normalize.
  split; [reflexivity|]. split; [reflexivity|]. split.
  - intros Hok. apply validateWithLogging_loop_quiet.
    now rewrite validate_loop_normalize.
  - intros Hbad.
    destruct (validateWithLogging_loop_log (_name self) (normalize_all value)
                (BaseNotifier.config self))
      as (before' & key & d' & after' & Hsplit & Hbefore & Hfail & Hlog).
    { now rewrite validate_loop_normalize. }
    unfold normalize_all in Hsplit. change (map ?f ?l) with (f <$> l) in Hsplit.
    apply fmap_app_inv in Hsplit as (before & rest & -> & Hrest & ->).
    symmetry in Hrest.
    apply fmap_cons_inv in Hrest as ([k d] & after & Hkd & -> & ->).
    cbn in Hkd. injection Hkd as -> ->.
    exists before, k, d, after. split; [reflexivity|]. split; [|split].
    + apply Forall_forall. intros [k' d0] Hin. cbn.
      rewrite Forall_forall in Hbefore.
      rewrite <- field_fails_normalize.
      apply (Hbefore (k', normalize k' d0)).
      apply list_elem_of_fmap. exists (k', d0). split; [reflexivity | exact Hin].
    + apply (field_fails_normalize (config self) k d), Hfail.
    + rewrite Hlog. f_equal. f_equal. unfold error_text.
      destruct d as [dflt ex descr [req|] [err|] [check|]]; destruct ex, dflt;
        cbn; try reflexivity; destruct (String.eqb _ ""); reflexivity.
Qed.

(** *** The constructor of a provider class *)

Lemma apply_defaults_cons (kv : string * FieldDescriptor.t)
    (rest : list (string * FieldDescriptor.t)) (config : gmap string JsVal) :
  Provider.apply_defaults (kv :: rest) config
  = Provider.apply_defaults rest
      (if negb (from_option id false (FieldDescriptor.required kv.2))
          && is_undefined (get config kv.1)
       then <[ kv.1 := prop (FieldDescriptor.default kv.2) ]> config
       else config).
Proof. reflexivity. Qed.

Lemma apply_defaults_other (vars : list (string * FieldDescriptor.t))
    (config : gmap string JsVal) (key : string) :
  key ∉ vars.*1 → get (Provider.apply_defaults vars config) key = get config key.
Proof.
  revert config. induction vars as [|[k d] rest IH]; intros config Hkey; [reflexivity|].
  cbn in Hkey. apply not_elem_of_cons in Hkey as [Hne Hrest].
  rewrite apply_defaults_cons, (IH _ Hrest). cbn [fst snd].
  destruct (negb _ && _); [|reflexivity]. now apply get_insert_ne.
Qed.

(** A value that is there is never replaced by a default. *)
Lemma apply_defaults_defined (vars : list (string * FieldDescriptor.t))
    (config : gmap string JsVal) (key : string) :
  is_undefined (get config key) = false →
  get (Provider.apply_defaults vars config) key = get config key.
Proof.
  revert config. induction vars as [|[k d] rest IH]; intros config Hkey; [reflexivity|].
  rewrite apply_defaults_cons. cbn [fst snd].
  destruct (negb _ && is_undefined (get config k)) eqn:Hcond.
  - apply andb_true_iff in Hcond as [_ Hundef].
    assert (k ≠ key) by (intros ->; congruence).
    rewrite IH; rewrite get_insert_ne by assumption; [reflexivity | exact Hkey].
  - now apply IH.
Qed.

Lemma apply_defaults_declared (vars : list (string * FieldDescriptor.t))
    (config : gmap string JsVal) (key : string) (d : FieldDescriptor.t) :
  NoDup vars.*1 → (key, d) ∈ vars →
  get (Provider.apply_defaults vars config) key
  = if negb (from_option id false (FieldDescriptor.required d))
       && is_undefined (get config key)
    then prop (FieldDescriptor.default d)
    else get config key.
Proof.
  revert config. induction vars as [|[k d'] rest IH]; intros config Hnodup Hin;
    [inversion Hin|].
  cbn in Hnodup. apply NoDup_cons in Hnodup as [Hfresh Hnodup].
  rewrite apply_defaults_cons. cbn [fst snd].
  apply elem_of_cons in Hin as [[= -> ->]|Hin].
  - rewrite apply_defaults_other by exact Hfresh.
    destruct (negb _ && _); [apply get_insert | reflexivity].
  - assert (k ≠ key).
    { intros ->. apply Hfresh, list_elem_of_fmap. now exists (key, d). }
    rewrite (IH _ Hnodup Hin).
    destruct (negb (from_option id false (FieldDescriptor.required d')) && _);
      [|reflexivity].
    now rewrite get_insert_ne.
Qed.

Lemma normalize_all_names (vars : list (string * FieldDescriptor.t)) :
  (normalize_all vars).*1 = vars.*1.
Proof.
  unfold normalize_all. induction vars as [|[k d] rest IH]; [reflexivity|].
  cbn. f_equal. exact IH.
Qed.

Lemma normalize_all_elem (vars : list (string * FieldDescriptor.t)) (key : string)
    (d : FieldDescriptor.t) :
  (key, d) ∈ vars → (key, normalize key d) ∈ normalize_all vars.
Proof.
  intros Hin. unfold normalize_all. change (map ?f ?l) with (f <$> l).
  apply list_elem_of_fmap. now exists (key, d).
Qed.

Lemma normalize_required (key : string) (d : FieldDescriptor.t) :
  from_option id false (FieldDescriptor.required (normalize key d))
  = from_option id false (FieldDescriptor.required d).
Proof.
  destruct d as [dflt ex descr [req|] [err|] [check|]]; destruct ex, dflt; reflexivity.
Qed.

Lemma normalize_default (key : string) (d : FieldDescriptor.t) :
  FieldDescriptor.default (normalize key d) = FieldDescriptor.default d.
Proof.
  destruct d as [dflt ex descr [req|] [err|] [check|]]; destruct ex, dflt; reflexivity.
Qed.

(** What the constructor made of the configuration it was given. *)
Lemma construct_config (c : Provider.Class) (config : gmap string JsVal) :
  BaseNotifier.config (Provider.construct c config).1
  = Provider.apply_defaults (normalize_all (Provider.class_variables c)) config.
Proof.
  unfold Provider.construct.
  destruct (truthy _); [destruct (validateWithLogging _).1|]; reflexivity.
Qed.

(** X12. The constructor of a provider class completes the
    configuration it is given with defaults, for optional fields only and
    only where the configuration holds no value: a declared field that is
    not required and whose value is undefined gets the [default] of its
    descriptor (undefined when none is written); a required field is
    never given its default; a value that is there, of any kind, and
    every key the class does not declare are left as they are. *)
Theorem constructor_applies_defaults (c : Provider.Class) (config : gmap string JsVal) :
  NoDup (Provider.class_variables c).*1 →
  let stored := BaseNotifier.config (Provider.construct c config).1 in
  (∀ key d, (key, d) ∈ Provider.class_variables c →
     get stored key
     = if negb (from_option id false (FieldDescriptor.required d))
          && is_undefined (get config key)
       then prop (FieldDescriptor.default d)
       else get config key)
  ∧ (∀ key, key ∉ (Provider.class_variables c).*1 → get stored key = get config key)
  ∧ (∀ key, is_undefined (get config key) = false → get stored key = get config key).
Proof.
  intros Hnodup. cbv zeta. rewrite construct_config. split; [|split].
  - intros key d Hin.
    rewrite (apply_defaults_declared _ _ key (normalize key d)).
    + now rewrite normalize_required, normalize_default.
    + now rewrite normalize_all_names.
    + now apply normalize_all_elem.
  - intros key Hkey. apply apply_defaults_other. now rewrite normalize_all_names.
  - intros key Hkey. now apply apply_defaults_defined.
Qed.

(** X13. A notifier is set up by its constructor exactly when its
    configuration, completed with the defaults, is enabled and passes the
    validation of the fields the class declares.  Only then does [send]
    reach the transport of the class; a notifier that is disabled or not
    valid rejects every [send] with the error that it is not properly
    configured, without any request being made or line being written.  A
    notifier that was set up logged nothing. *)
Theorem constructed_notifier_gate (c : Provider.Class) (config : gmap string JsVal)
    (notification : Notification.t) (reply : Reply) :
  let built := Provider.construct c config in
  let stored := BaseNotifier.config built.1 in
  let ready :=
    truthy (get stored "enabled")
    && validate_loop (Provider.class_variables c) stored in
  isMetadataMode built.1 = negb ready
  ∧ name built.1 = Provider.class_name c
  ∧ validate built.1 = validate_loop (Provider.class_variables c) stored
  ∧ send built.1 notification reply
    = (if ready then Provider.class_transport c stored notification reply
       else refused {| message := Provider.class_name c
                                    +:+ " notifier is not properly configured" |})
  ∧ (if ready then built.2 = []
     else ∀ line, line ∈ built.2 → line.1 = LogError ∨ line.1 = LogDebug).
Proof.
  cbv zeta. rewrite construct_config. unfold Provider.construct.
  set (self := Provider.prepare c config).
  change (Provider.apply_defaults _ config) with (BaseNotifier.config self).
  assert (Hcheck : (validateWithLogging self).1
                   = validate_loop (Provider.class_variables c) (BaseNotifier.config self)).
  { unfold validateWithLogging. rewrite validateWithLogging_loop_fst.
    apply validate_loop_normalize. }
  assert (Hvalid : ∀ other, registerVariables other = registerVariables self →
                            BaseNotifier.config other = BaseNotifier.config self →
            validate other
            = validate_loop (Provider.class_variables c) (BaseNotifier.config self)).
  { intros other Hvars Hconfig. unfold validate. rewrite Hvars, Hconfig.
    apply validate_loop_normalize. }
  destruct (truthy (get (BaseNotifier.config self) "enabled")) eqn:Henabled;
    cbn [andb].
  - rewrite <- Hcheck.
    destruct (validateWithLogging self).1 eqn:Hok; cbn [fst snd negb].
    + split; [reflexivity|]. split; [reflexivity|].
      split; [rewrite Hcheck; now apply Hvalid|].
      split; [reflexivity|].
      apply validateWithLogging_loop_quiet.
      rewrite <- validateWithLogging_loop_fst with (self_name := name self).
      exact Hok.
    + split; [reflexivity|]. split; [reflexivity|].
      split; [rewrite Hcheck; now apply Hvalid|].
      split; [reflexivity|].
      intros line Hin. apply elem_of_app in Hin as [Hin|Hin].
      * left.
        destruct (validateWithLogging_loop_log (name self) (registerVariables self)
                    (BaseNotifier.config self))
          as (? & ? & ? & ? & _ & _ & _ & Hlog).
        { rewrite <- validateWithLogging_loop_fst with (self_name := name self).
          exact Hok. }
        unfold validateWithLogging in Hin. rewrite Hlog in Hin.
        apply list_elem_of_singleton in Hin as ->. reflexivity.
      * right. destruct (Provider.class_debug c); [|inversion Hin].
        apply list_elem_of_singleton in Hin as ->. reflexivity.
  - cbn [fst snd negb].
    split; [reflexivity|]. split; [reflexivity|].
    split; [now apply Hvalid|].
    split; [reflexivity|].
    intros line Hin. right. destruct (Provider.class_debug c); [|inversion Hin].
    apply list_elem_of_singleton in Hin as ->. reflexivity.
Qed.

(** *** The default service configuration *)

Lemma fold_insert_other (f : FieldDescriptor.t → JsVal)
    (vars : list (string * FieldDescriptor.t)) (m : gmap string JsVal) (key : string) :
  key ∉ vars.*1 →
  fold_left (fun acc kv => <[ kv.1 := f kv.2 ]> acc) vars m !! key = m !! key.
Proof.
  revert m. induction vars as [|[k d] rest IH]; intros m Hkey; [reflexivity|].
  cbn in Hkey. apply not_elem_of_cons in Hkey as [Hne Hrest].
  cbn [fold_left fst snd]. rewrite (IH _ Hrest). now apply lookup_insert_ne.
Qed.

Lemma fold_insert_declared (f : FieldDescriptor.t → JsVal)
    (vars : list (string * FieldDescriptor.t)) (m : gmap string JsVal) (key : string)
    (d : FieldDescriptor.t) :
  NoDup vars.*1 → (key, d) ∈ vars →
  fold_left (fun acc kv => <[ kv.1 := f kv.2 ]> acc) vars m !! key = Some (f d).
Proof.
  revert m. induction vars as [|[k d'] rest IH]; intros m Hnodup Hin; [inversion Hin|].
  cbn in Hnodup. apply NoDup_cons in Hnodup as [Hfresh Hnodup].
  cbn [fold_left fst snd].
  apply elem_of_cons in Hin as [[= -> ->]|Hin].
  - rewrite fold_insert_other by exact Hfresh. apply lookup_insert_eq.
  - now apply IH.
Qed.

(** The switch on the type is never decisive: it is reached only when
    [default] and [example] are both undefined, and then the type is
    [undefined]. *)
Lemma defaultValue_cases (variable : FieldDescriptor.t) :
  defaultValue variable
  = if negb (is_undefined (prop (FieldDescriptor.default variable)))
    then prop (FieldDescriptor.default variable)
    else if negb (is_undefined (prop (FieldDescriptor.example variable)))
         then prop (FieldDescriptor.example variable)
         else VNull.
Proof.
  unfold defaultValue, typeOf.
  destruct (prop (FieldDescriptor.default variable)); cbn; try reflexivity.
  destruct (prop (FieldDescriptor.example variable)); reflexivity.
Qed.

(** X14. The default service configuration of a notifier that was given
    none holds [enabled: false] and one value for every declared field:
    the [default] of the field when it is defined, else its [example]
    when that is defined, else null.  The defaults by type of the getter,
    the empty string, zero and false, are never used. *)
Theorem defaultServiceConfig_values (self : t) :
  _defaultServiceConfig self = ∅ →
  NoDup (registerVariables self).*1 →
  let defaults := defaultServiceConfig self in
  (∀ key d, (key, d) ∈ registerVariables self →
     defaults !! key
     = Some (if negb (is_undefined (prop (FieldDescriptor.default d)))
             then prop (FieldDescriptor.default d)
             else if negb (is_undefined (prop (FieldDescriptor.example d)))
                  then prop (FieldDescriptor.example d)
                  else VNull))
  ∧ (¬ Spec.declared self "enabled" → defaults !! "enabled" = Some (VBool false))
  ∧ (∀ key, ¬ Spec.declared self key → key ≠ "enabled" → defaults !! key = None).
Proof.
  intros Hnone Hnodup. cbv zeta. unfold defaultServiceConfig.
  rewrite decide_True by exact Hnone. split; [|split].
  - intros key d Hin. rewrite (fold_insert_declared defaultValue _ _ key d Hnodup Hin).
    now rewrite defaultValue_cases.
  - intros Hfree. rewrite (fold_insert_other defaultValue) by exact Hfree.
    apply lookup_singleton_eq.
  - intros key Hfree Hne. rewrite (fold_insert_other defaultValue) by exact Hfree.
    now apply lookup_singleton_ne.
Qed.

(** *** The configuration command, again *)

Lemma find_setting_elem (self : t) (setting key : string) (variable : FieldDescriptor.t) :
  find_setting self setting = Some (key, variable) →
  (key, variable) ∈ registerVariables self.
Proof.
  unfold find_setting. intros [Hin _]%find_some. now apply list_elem_of_In.
Qed.

Lemma init_config_set (self : t) (config : Config.t) (entry : gmap string JsVal) :
  init_config self (set_service_entry self config entry)
  = set_service_entry self config entry.
Proof.
  unfold init_config, set_service_entry. cbn. now rewrite lookup_insert_eq.
Qed.

Lemma set_service_entry_twice (self : t) (config : Config.t)
    (entry entry' : gmap string JsVal) :
  set_service_entry self (set_service_entry self config entry) entry'
  = set_service_entry self config entry'.
Proof.
  unfold set_service_entry, Config.set_services. cbn. now rewrite insert_insert_eq.
Qed.

(** X15. Giving the same setting the same value a second time changes
    nothing: after a successful call of [handleConfig], the same call on
    the document it left succeeds again, leaves the document as it is and
    reports no auto-enable, whether the first call enabled the service or
    not.  (The schema does not declare the reserved key [enabled].) *)
Theorem handleConfig_repeated (self : t) (config : Config.t) (setting value : string) :
  ¬ Spec.declared self "enabled" →
  success (handleConfig self config setting value).1 = true →
  let first := handleConfig self config setting value in
  let second := handleConfig self first.2 setting value in
  success second.1 = true
  ∧ autoEnabled second.1 = Some false
  ∧ second.2 = first.2.
Proof.
  intros Hreserved Hok. cbv zeta.
  destruct (handleConfig_success self config setting value Hok)
    as (key & variable & parsedValue & Hfind & Hkey & Hparse & Hval & Hauto & Hdoc).
  cbv zeta in Hauto, Hdoc.
  assert (Hne : key ≠ "enabled").
  { intros ->. apply Hreserved. apply list_elem_of_fmap.
    exists ("enabled", variable). split; [reflexivity|].
    now apply (find_setting_elem self setting). }
  set (config0 := init_config self config) in *.
  set (entry := <[ key := parsedValue ]> (service_entry self config0)) in *.
  rewrite Hdoc. clear Hdoc Hauto Hok.
  set (stored := if negb (truthy (get entry "enabled")) && validate (with_config self entry)
                 then <[ "enabled" := VBool true ]> entry else entry).
  assert (Hsame : <[ key := parsedValue ]> stored = stored).
  { subst stored entry. destruct (negb _ && _).
    - rewrite insert_insert_ne by exact Hne. now rewrite insert_insert_eq.
    - now rewrite insert_insert_eq. }
  assert (Hquiet : negb (truthy (get stored "enabled")) && validate (with_config self stored)
                   = false).
  { subst stored. destruct (negb (truthy (get entry "enabled"))) eqn:Hoff; cbn [andb].
    - destruct (validate (with_config self entry)) eqn:Hvalid.
      + now rewrite get_insert.
      + now rewrite Hoff, Hvalid.
    - now rewrite Hoff. }
  unfold handleConfig at 1 2 3.
  rewrite init_config_set, Hfind.
  apply String.eqb_neq in Hkey. rewrite Hkey, Hparse, Hval.
  rewrite service_entry_set, Hsame, Hquiet. cbn [fst snd success autoEnabled].
  split; [reflexivity|]. split; [reflexivity|].
  apply set_service_entry_twice.
Qed.

Lemma parse_value_typed (variable : FieldDescriptor.t) (setting value : string)
    (parsedValue : JsVal) :
  parse_value variable setting value = inl parsedValue →
  match typeof (prop (FieldDescriptor.example variable)) with
  | TNumber => parsedValue = VNum (parseFloat value) ∧ isNaN (parseFloat value) = false
  | TBoolean =>
      (parsedValue = VBool true
       ∧ (toLowerCase value = "true" ∨ toLowerCase value = "1"))
      ∨ (parsedValue = VBool false
         ∧ (toLowerCase value = "false" ∨ toLowerCase value = "0"))
  | _ => parsedValue = VStr value
  end.
Proof.
  unfold parse_value.
  destruct (typeof (prop (FieldDescriptor.example variable))); try (now intros [= <-]).
  - destruct (String.eqb (toLowerCase value) "true") eqn:Ht; cbn [orb].
    { intros [= <-]. left. apply String.eqb_eq in Ht. auto. }
    destruct (String.eqb (toLowerCase value) "1") eqn:H1; cbn [orb].
    { intros [= <-]. left. apply String.eqb_eq in H1. auto. }
    destruct (String.eqb (toLowerCase value) "false") eqn:Hf; cbn [orb].
    { intros [= <-]. right. apply String.eqb_eq in Hf. auto. }
    destruct (String.eqb (toLowerCase value) "0") eqn:H0; cbn [orb]; [|discriminate].
    intros [= <-]. right. apply String.eqb_eq in H0. auto.
  - destruct (isNaN (parseFloat value)) eqn:Hnan; [discriminate|].
    now intros [= <-].
Qed.

(** X16. The value [handleConfig] stores has the type of the field's
    [example]: for a numeric example it is the number [parseFloat] reads
    from the text, and never NaN; for a boolean example it is true for
    [true] and [1], false for [false] and [0], in any casing; for every
    other field, also one without example, it is the text itself.  The
    stored value has passed the validator of the field. *)
Theorem handleConfig_stores_typed_value (self : t) (config : Config.t)
    (setting value : string) :
  ¬ Spec.declared self "enabled" →
  success (handleConfig self config setting value).1 = true →
  ∃ key variable,
    find_setting self setting = Some (key, variable)
    ∧ let stored :=
        get (service_entry self (handleConfig self config setting value).2) key in
      rejected_by_validator variable stored = false
      ∧ match typeof (prop (FieldDescriptor.example variable)) with
        | TNumber => stored = VNum (parseFloat value) ∧ isNaN (parseFloat value) = false
        | TBoolean =>
            (stored = VBool true
             ∧ (toLowerCase value = "true" ∨ toLowerCase value = "1"))
            ∨ (stored = VBool false
               ∧ (toLowerCase value = "false" ∨ toLowerCase value = "0"))
        | _ => stored = VStr value
        end.
Proof.
  intros Hreserved Hok.
  destruct (handleConfig_success self config setting value Hok)
    as (key & variable & parsedValue & Hfind & Hkey & Hparse & Hval & Hauto & Hdoc).
  cbv zeta in Hauto, Hdoc.
  assert (Hne : key ≠ "enabled").
  { intros ->. apply Hreserved. apply list_elem_of_fmap.
    exists ("enabled", variable). split; [reflexivity|].
    now apply (find_setting_elem self setting). }
  exists key, variable. split; [exact Hfind|]. cbv zeta.
  rewrite Hdoc, service_entry_set. clear Hdoc Hauto Hok.
  assert (Hstored : ∀ entry : gmap string JsVal,
            get (if negb (truthy (get (<[ key := parsedValue ]> entry) "enabled"))
                    && validate (with_config self (<[ key := parsedValue ]> entry))
                 then <[ "enabled" := VBool true ]> (<[ key := parsedValue ]> entry)
                 else <[ key := parsedValue ]> entry) key = parsedValue).
  { intros entry. destruct (negb _ && _).
    - rewrite get_insert_ne by (intros Heq; apply Hne; now symmetry). apply get_insert.
    - apply get_insert. }
  rewrite Hstored. split; [exact Hval|].
  now apply (parse_value_typed variable setting).
Qed.

End ProviderLifecycle.

(** ** Start-up: from the document to the active notifiers *)

Section StartUp.
Context `{Host}.
Import JsString Js Promise NotificationManager.

Lemma obj_get_set {A} (key k : string) (value : A) (obj : list (string * A)) :
  obj_get k (obj_set key value obj)
  = if String.eqb key k then Some value else obj_get k obj.
Proof.
  induction obj as [|[k0 v] rest IH]; cbn.
  - reflexivity.
  - destruct (String.eqb k0 key) eqn:Hk0; cbn.
    + apply String.eqb_eq in Hk0 as ->. now destruct (String.eqb key k).
    + rewrite IH. destruct (String.eqb k0 k) eqn:Hk; [|reflexivity].
      apply String.eqb_eq in Hk as ->. apply String.eqb_neq in Hk0.
      assert (String.eqb key k = false) as -> by (apply String.eqb_neq; congruence).
      reflexivity.
Qed.

Lemma obj_set_names {A} (key k : string) (value : A) (obj : list (string * A)) :
  k ∈ (obj_set key value obj).*1 ↔ k = key ∨ k ∈ obj.*1.
Proof.
  induction obj as [|[k0 v] rest IH]; cbn.
  - rewrite list_elem_of_singleton. split; [auto | intros [|Hin]; [auto | inversion Hin]].
  - destruct (String.eqb k0 key) eqn:Hk0; cbn.
    + apply String.eqb_eq in Hk0 as ->. rewrite !elem_of_cons. tauto.
    + rewrite !elem_of_cons, IH. tauto.
Qed.

Lemma obj_set_keys_NoDup {A} (key : string) (value : A) (obj : list (string * A)) :
  NoDup obj.*1 → NoDup (obj_set key value obj).*1.
Proof.
  induction obj as [|[k0 v] rest IH]; cbn; intros Hnodup.
  - apply NoDup_singleton.
  - apply NoDup_cons in Hnodup as [Hfresh Hnodup].
    destruct (String.eqb k0 key) eqn:Hk0; cbn.
    + apply NoDup_cons. auto.
    + apply NoDup_cons. split; [|auto].
      rewrite obj_set_names. apply String.eqb_neq in Hk0. tauto.
Qed.

Lemma obj_set_Forall {A} (P : string * A → Prop) (key : string) (value : A)
    (obj : list (string * A)) :
  P (key, value) → Forall P obj → Forall P (obj_set key value obj).
Proof.
  intros Hnew. induction obj as [|[k0 v] rest IH]; cbn; intros Hall.
  - now constructor.
  - apply Forall_cons in Hall as [Hhead Hrest].
    destruct (String.eqb k0 key) eqn:Hk0.
    + apply String.eqb_eq in Hk0 as ->. now constructor.
    + constructor; auto.
Qed.

(** Whether the constructor sets the notifier up. *)
Lemma construct_isMetadataMode (c : Provider.Class) (config : gmap string JsVal) :
  let stored :=
    Provider.apply_defaults (BaseNotifier.normalize_all (Provider.class_variables c))
      config in
  BaseNotifier.isMetadataMode (Provider.construct c config).1
  = negb (truthy (get stored "enabled")
          && BaseNotifier.validate_loop (Provider.class_variables c) stored).
Proof.
  cbv zeta. unfold Provider.construct.
  set (self := Provider.prepare c config).
  change (Provider.apply_defaults _ config) with (BaseNotifier.config self).
  assert (Hcheck : (BaseNotifier.validateWithLogging self).1
                   = BaseNotifier.validate_loop (Provider.class_variables c)
                       (BaseNotifier.config self)).
  { unfold BaseNotifier.validateWithLogging. rewrite validateWithLogging_loop_fst.
    apply validate_loop_normalize. }
  destruct (truthy _); [|reflexivity]. rewrite <- Hcheck.
  now destruct (BaseNotifier.validateWithLogging self).1.
Qed.

Lemma construct_name (c : Provider.Class) (config : gmap string JsVal) :
  BaseNotifier.name (Provider.construct c config).1 = Provider.class_name c.
Proof.
  unfold Provider.construct.
  destruct (truthy _); [destruct (BaseNotifier.validateWithLogging _).1|]; reflexivity.
Qed.

(** The constructor builds a ready notifier or one in metadata mode. *)
Lemma construct_ready (c : Provider.Class) (config : gmap string JsVal) :
  BaseNotifier.isMetadataMode (Provider.construct c config).1 = false →
  Spec.ready (Provider.class_name c, (Provider.construct c config).1).
Proof.
  intros Hset. pose proof (construct_isMetadataMode c config) as Hmode.
  cbv zeta in Hmode. rewrite Hset in Hmode. symmetry in Hmode.
  apply negb_false_iff, andb_true_iff in Hmode as [Henabled Hvalid].
  pose proof (construct_config c config) as Hconfig.
  unfold Spec.ready. cbn [fst snd]. rewrite Hconfig.
  split; [|split; [exact Hset|split; [exact Henabled|split]]].
  - symmetry. apply construct_name.
  - unfold BaseNotifier.validate. rewrite Hconfig.
    assert (Hvars : BaseNotifier.registerVariables (Provider.construct c config).1
                    = BaseNotifier.normalize_all (Provider.class_variables c)).
    { unfold Provider.construct.
      destruct (truthy _); [destruct (BaseNotifier.validateWithLogging _).1|];
        reflexivity. }
    now rewrite Hvars, validate_loop_normalize.
  - unfold Provider.construct.
    destruct (truthy _); [destruct (BaseNotifier.validateWithLogging _).1|]; cbn; eauto.
Qed.

(** The service is activated exactly when it is enabled, its module can
    be loaded and its completed entry is valid. *)
Lemma activated_spec (require : string → Provider.Class + Error) (key : string)
    (entry : gmap string JsVal) (n : BaseNotifier.t) :
  Spec.activated require key entry = Some n ↔
  ∃ c, truthy (get entry "enabled") = true
       ∧ require key = inl c
       ∧ BaseNotifier.validate_loop (Provider.class_variables c)
           (Spec.written require key entry) = true
       ∧ n = (Provider.construct c entry).1.
Proof.
  unfold Spec.activated, Spec.written.
  destruct (truthy (get entry "enabled")) eqn:Henabled.
  2: { split; [discriminate | intros (c & [=] & _)]. }
  destruct (require key) as [c|err].
  2: { split; [discriminate | intros (c & _ & [=] & _)]. }
  rewrite construct_isMetadataMode.
  assert (Hkept : truthy (get (Provider.apply_defaults
                                 (BaseNotifier.normalize_all (Provider.class_variables c))
                                 entry) "enabled") = true).
  { rewrite apply_defaults_defined; [exact Henabled|].
    now destruct (get entry "enabled"). }
  rewrite Hkept. cbn [andb].
  destruct (BaseNotifier.validate_loop _ _) eqn:Hvalid; cbn [negb].
  - split; [intros [= <-]; eauto 10 | intros (c' & _ & [= <-] & _ & ->); reflexivity].
  - split; [discriminate | intros (c' & _ & [= <-] & Hv & _); congruence].
Qed.

Lemma entry_of_set_services (config : Config.t)
    (services : gmap string (gmap string JsVal)) (key : string) :
  Spec.entry_of (Config.set_services config services) key = services !! key.
Proof. reflexivity. Qed.

(** One turn of the start-up loop. *)
Lemma initialize_one_run (require : string → Provider.Class + Error) (key : string)
    (this : t) :
  let out := (initialize_one require key this).2 in
  recentNotifications out = recentNotifications this
  ∧ notifiers out
    = match Spec.entry_of (config this) key ≫= Spec.activated require key with
      | Some n => obj_set (BaseNotifier.name n) n (notifiers this)
      | None => notifiers this
      end
  ∧ (∀ other, other ≠ key →
       Spec.entry_of (config out) other = Spec.entry_of (config this) other)
  ∧ Spec.entry_of (config out) key
    = Spec.written require key <$> Spec.entry_of (config this) key
  ∧ Config.enabled (config out) = Config.enabled (config this)
  ∧ Config.channelName (config out) = Config.channelName (config this)
  ∧ Config.filters (config out) = Config.filters (config this)
  ∧ Config.format (config out) = Config.format (config this)
  ∧ ∃ lines,
      logger out = logger this ++ lines
      ∧ ∀ entry line, Spec.entry_of (config this) key = Some entry →
          Spec.start_up_report require key entry = Some line → line ∈ lines.
Proof.
  cbv zeta.
  assert (Hstep :
    initialize_one require key this
    = (match Spec.entry_of (config this) key with
      | None => ret tt
      | Some serviceConfig =>
          (if negb (truthy (get serviceConfig "enabled")) then
             log LogDebug ("Skipping " +:+ key +:+ ": service is not enabled")
           else
             match require key with
             | inr err =>
                 log LogError ("Failed to initialize " +:+ key +:+ ": " +:+ message err)
             | inl NotifierClass =>
                 let built := Provider.construct NotifierClass serviceConfig in
                 let newNotifier := built.1 in
                 bind (write_entry key (BaseNotifier.config newNotifier)) (fun _ =>
                 bind (log_all built.2) (fun _ =>
                 if negb (BaseNotifier.isMetadataMode newNotifier) then
                   bind (register newNotifier) (fun _ =>
                   log LogInfo (BaseNotifier.name newNotifier +:+ " notifier initialized"))
                 else
                   log LogWarn (key +:+ " is enabled but failed validation")))
             end)
      end) this) by reflexivity.
  rewrite Hstep. clear Hstep.
  destruct (Spec.entry_of (config this) key) as [entry|] eqn:Hentry;
    cbn [mbind option_bind fmap option_fmap option_map].
  2: { unfold ret. cbn [snd]. repeat split; try assumption.
       exists []. split; [now rewrite app_nil_r | intros ? ? [=]]. }
  assert (∃ services, Config.services (config this) = Some services
                      ∧ services !! key = Some entry) as (services & Hservices & Hlookup).
  { unfold Spec.entry_of in Hentry.
    destruct (Config.services (config this)) as [services|]; [eauto | discriminate]. }
  unfold Spec.activated, Spec.written.
  destruct (truthy (get entry "enabled")) eqn:Henabled; cbn [negb].
  2: { cbn. rewrite Hentry. repeat split.
       eexists. split; [reflexivity|]. intros ? line [= <-].
       unfold Spec.start_up_report. rewrite Henabled. intros [= <-]. now left. }
  destruct (require key) as [c|err] eqn:Hrequire.
  2: { cbn. rewrite Hentry. repeat split.
       eexists. split; [reflexivity|]. intros ? line [= <-].
       unfold Spec.start_up_report. rewrite Henabled, Hrequire. intros [= <-]. now left. }
  pose proof (construct_isMetadataMode c entry) as Hmode. cbv zeta in Hmode.
  pose proof (construct_config c entry) as Hconfig.
  cbv zeta. unfold bind, write_entry, log_all, register, log. cbn [fst snd config].
  rewrite Hservices, Hconfig.
  assert (Hkept : truthy (get (Provider.apply_defaults
                                 (BaseNotifier.normalize_all (Provider.class_variables c))
                                 entry) "enabled") = true).
  { rewrite apply_defaults_defined; [exact Henabled|].
    now destruct (get entry "enabled"). }
  rewrite Hkept in Hmode. cbn [andb] in Hmode.
  destruct (BaseNotifier.isMetadataMode (Provider.construct c entry).1) eqn:Hmeta;
    cbn [negb fst snd config logger notifiers recentNotifications].
  - symmetry in Hmode. apply negb_true_iff in Hmode.
    split; [reflexivity|]. split; [reflexivity|].
    split.
    { intros other Hne. unfold Spec.entry_of. rewrite Hservices. cbn.
      apply lookup_insert_ne. congruence. }
    split; [unfold Spec.entry_of; cbn; now rewrite lookup_insert_eq|].
    repeat (split; [reflexivity|]).
    eexists. split; [rewrite <- app_assoc; reflexivity|].
    intros ? line [= <-]. unfold Spec.start_up_report, Spec.written.
    rewrite Henabled, Hrequire, Hmode. intros [= <-].
    apply elem_of_app. right. now left.
  - split; [reflexivity|]. split; [reflexivity|].
    split.
    { intros other Hne. unfold Spec.entry_of. rewrite Hservices. cbn.
      apply lookup_insert_ne. congruence. }
    split; [unfold Spec.entry_of; cbn; now rewrite lookup_insert_eq|].
    repeat (split; [reflexivity|]).
    eexists. split; [rewrite <- app_assoc; reflexivity|].
    symmetry in Hmode. apply negb_false_iff in Hmode.
    intros ? line [= <-]. unfold Spec.start_up_report, Spec.written.
    rewrite Henabled, Hrequire, Hmode. intros [=].
Qed.

(** The whole loop, on keys that are distinct. *)
Lemma initialize_each_run (require : string → Provider.Class + Error)
    (keys : list string) (this : t) :
  NoDup keys →
  let out := (initialize_each require keys this).2 in
  recentNotifications out = recentNotifications this
  ∧ (∀ name, is_Some (obj_get name (notifiers out)) ↔
       is_Some (obj_get name (notifiers this))
       ∨ ∃ key entry n,
           key ∈ keys ∧ Spec.entry_of (config this) key = Some entry
           ∧ Spec.activated require key entry = Some n ∧ BaseNotifier.name n = name)
  ∧ (∀ key, key ∈ keys →
       Spec.entry_of (config out) key
       = Spec.written require key <$> Spec.entry_of (config this) key)
  ∧ (∀ key, key ∉ keys → Spec.entry_of (config out) key = Spec.entry_of (config this) key)
  ∧ Config.enabled (config out) = Config.enabled (config this)
  ∧ Config.channelName (config out) = Config.channelName (config this)
  ∧ Config.filters (config out) = Config.filters (config this)
  ∧ Config.format (config out) = Config.format (config this)
  ∧ ∃ lines,
      logger out = logger this ++ lines
      ∧ ∀ key entry line, key ∈ keys → Spec.entry_of (config this) key = Some entry →
          Spec.start_up_report require key entry = Some line → line ∈ lines.
Proof.
  intros Hnodup. revert this.
  induction Hnodup as [|key keys Hfresh Hnodup IH]; intros this; cbv zeta.
  - cbn. repeat split; try tauto.
    + intros [Hold|(k & e & n & Hin & _)]; [exact Hold | inversion Hin].
    + intros k Hin. inversion Hin.
    + exists []. split; [now rewrite app_nil_r|]. intros k e l Hin. inversion Hin.
  - cbn [initialize_each]. unfold bind.
    pose proof (initialize_one_run require key this) as Hone. cbv zeta in Hone.
    destruct (initialize_one require key this) as [[] this1]. cbn [snd] in Hone.
    destruct Hone as (Hr1 & Hn1 & Ho1 & Hk1 & He1 & Hc1 & Hf1 & Hm1 & lines1 & Hl1 & Hrep1).
    specialize (IH this1). cbv zeta in IH.
    destruct IH as (Hr & Hn & Hk & Ho & He & Hc & Hf & Hm & lines & Hl & Hrep).
    assert (Hrest : ∀ k, k ∈ keys → Spec.entry_of (config this1) k = Spec.entry_of (config this) k).
    { intros k Hin. apply Ho1. intros ->. contradiction. }
    split; [congruence|]. split; [|split; [|split; [|repeat (split; [congruence|])]]].
    + intros name. rewrite Hn. rewrite Hn1. split.
      * intros [Hold|(k & e & n & Hin & Hentry & Hact & Hname)].
        -- destruct (Spec.entry_of (config this) key ≫= Spec.activated require key)
             as [n|] eqn:Hact; [|now left].
           rewrite obj_get_set in Hold.
           destruct (String.eqb (BaseNotifier.name n) name) eqn:Hname; [|now left].
           right. apply String.eqb_eq in Hname.
           destruct (Spec.entry_of (config this) key) as [e|] eqn:Hentry; [|discriminate].
           cbn in Hact. exists key, e, n.
           split; [left|]. split; [exact Hentry|]. split; [exact Hact | exact Hname].
        -- right. exists k, e, n. rewrite <- (Hrest k Hin).
           repeat split; [now right | assumption..].
      * intros [Hold|(k & e & n & Hin & Hentry & Hact & Hname)].
        -- left. destruct (_ ≫= _); [|exact Hold].
           rewrite obj_get_set. now destruct (String.eqb _ name).
        -- apply elem_of_cons in Hin as [->|Hin].
           ++ left. rewrite Hentry. cbn. rewrite Hact, obj_get_set.
              apply String.eqb_eq in Hname. now rewrite Hname.
           ++ right. exists k, e, n. rewrite (Hrest k Hin). auto.
    + intros k [->|Hin]%elem_of_cons.
      * now rewrite (Ho key Hfresh).
      * now rewrite (Hk k Hin), (Hrest k Hin).
    + intros k [Hne Hout]%not_elem_of_cons. now rewrite (Ho k Hout), (Ho1 k Hne).
    + exists (lines1 ++ lines). split; [now rewrite Hl, Hl1, app_assoc|].
      intros k e l [->|Hin]%elem_of_cons Hentry Hreport; apply elem_of_app.
      * left. eauto.
      * right. apply (Hrep k e l Hin); [now rewrite (Hrest k Hin) | exact Hreport].
Qed.

(** The loop keeps the notifiers ready and their names distinct. *)
Lemma initialize_each_ready (require : string → Provider.Class + Error)
    (keys : list string) (this : t) :
  NoDup (notifiers this).*1 → Forall Spec.ready (notifiers this) →
  let out := (initialize_each require keys this).2 in
  NoDup (notifiers out).*1 ∧ Forall Spec.ready (notifiers out).
Proof.
  revert this. induction keys as [|key keys IH]; intros this Hnodup Hready; cbv zeta.
  - now split.
  - cbn [initialize_each]. unfold bind.
    pose proof (initialize_one_run require key this) as Hone. cbv zeta in Hone.
    destruct (initialize_one require key this) as [[] this1]. cbn [snd] in Hone.
    destruct Hone as (_ & Hn1 & _).
    apply IH; rewrite Hn1.
    + destruct (_ ≫= _); [now apply obj_set_keys_NoDup | exact Hnodup].
    + destruct (Spec.entry_of (config this) key) as [entry|]; [|exact Hready]. cbn.
      destruct (Spec.activated require key entry) as [n|] eqn:Hact; [|exact Hready].
      apply obj_set_Forall; [|exact Hready].
      unfold Spec.activated in Hact.
      destruct (truthy _); [|discriminate].
      destruct (require key) as [c|]; [|discriminate].
      destruct (BaseNotifier.isMetadataMode _) eqn:Hmeta; [discriminate|].
      injection Hact as <-.
      pose proof (construct_ready c entry Hmeta) as Hok.
      destruct Hok as (Hname & Hrest). cbn [fst snd] in Hname.
      unfold Spec.ready. cbn [fst snd]. now rewrite <- Hname.
Qed.

Lemma new_unfold (require : string → Provider.Class + Error) (keys : list string)
    (config0 : Config.t) (logger0 : list LogEntry) :
  new require keys config0 logger0
  = match Config.services config0 with
    | None =>
        {| config := config0; logger := logger0; notifiers := [];
           recentNotifications := ∅ |}
    | Some _ =>
        (initialize_each require keys
           {| config := config0; logger := logger0; notifiers := [];
              recentNotifications := ∅ |}).2
    end.
Proof.
  unfold new, initializeNotifiers, bind, gets. cbn.
  now destruct (Config.services config0).
Qed.

(** X17. The manager built at start-up has an active notifier of a given
    name exactly when some listed service is enabled in the document, its
    module can be loaded and exports a class of that name, and the
    service's entry, completed with the defaults of the class, passes the
    validation of the class.  A service that is disabled, whose module
    fails to load or whose configuration is invalid contributes no
    notifier and does not keep the others from being registered. *)
Theorem start_up_registers_exactly (require : string → Provider.Class + Error)
    (keys : list string) (config0 : Config.t) (logger0 : list LogEntry) (name : string) :
  NoDup keys →
  let this := new require keys config0 logger0 in
  is_Some (obj_get name (notifiers this)) ↔
  ∃ key NotifierClass entry,
    key ∈ keys
    ∧ Spec.activates require config0 key NotifierClass entry
    ∧ Provider.class_name NotifierClass = name.
Proof.
  intros Hnodup. cbv zeta. rewrite new_unfold.
  destruct (Config.services config0) as [services|] eqn:Hservices.
  - pose proof (initialize_each_run require keys
                  {| config := config0; logger := logger0; notifiers := [];
                     recentNotifications := ∅ |} Hnodup) as Hrun.
    cbv zeta in Hrun. destruct Hrun as (_ & Hn & _). rewrite Hn. cbn [config notifiers obj_get].
    split.
    + intros [[? [=]]|(key & entry & n & Hin & Hentry & Hact & Hname)].
      apply activated_spec in Hact as (c & Henabled & Hrequire & Hvalid & ->).
      exists key, c, entry. split; [exact Hin|]. split; [now repeat split|].
      rewrite <- Hname. symmetry. apply construct_name.
    + intros (key & c & entry & Hin & (Hentry & Henabled & Hrequire & Hvalid) & Hname).
      right. exists key, entry, (Provider.construct c entry).1.
      split; [exact Hin|]. split; [exact Hentry|]. split.
      * apply activated_spec. exists c. now repeat split.
      * rewrite <- Hname. apply construct_name.
  - cbn. split; [intros [? [=]]|].
    intros (key & c & entry & _ & (Hentry & _) & _).
    unfold Spec.entry_of in Hentry. rewrite Hservices in Hentry. discriminate.
Qed.

(** X18. Every notifier the manager holds after start-up is fit for the
    dispatch loop: it is stored under its own name, it is set up, its
    configuration is enabled and valid.  The names are distinct, the set
    of recent keys is empty, and what was logged before is kept. *)
Theorem start_up_notifiers_ready (require : string → Provider.Class + Error)
    (keys : list string) (config0 : Config.t) (logger0 : list LogEntry) :
  let this := new require keys config0 logger0 in
  NoDup (notifiers this).*1
  ∧ Forall Spec.ready (notifiers this)
  ∧ (∀ name notifier notification reply,
       (name, notifier) ∈ notifiers this →
       ∃ transport, BaseNotifier.transport notifier = Some transport
                    ∧ BaseNotifier.send notifier notification reply
                      = transport notification reply)
  ∧ (Config.services config0 = None → notifiers this = []).
Proof.
  cbv zeta. rewrite new_unfold.
  destruct (Config.services config0) as [services|] eqn:Hservices.
  - pose proof (initialize_each_ready require keys
                  {| config := config0; logger := logger0; notifiers := [];
                     recentNotifications := ∅ |}) as Hready.
    cbv zeta in Hready. destruct Hready as [Hnodup Hready]; [constructor..|].
    split; [exact Hnodup|]. split; [exact Hready|]. split; [|discriminate].
    intros name notifier notification reply Hin.
    rewrite Forall_forall in Hready.
    destruct (Hready _ Hin) as (_ & Hmeta & _ & _ & [transport Htransport]).
    cbn [snd] in Hmeta, Htransport. unfold BaseNotifier.isMetadataMode in Hmeta.
    apply negb_false_iff in Hmeta. exists transport. split; [exact Htransport|].
    unfold BaseNotifier.send. now rewrite Hmeta, Htransport.
  - cbn. repeat split; try constructor. intros ? ? ? ? Hin. inversion Hin.
Qed.

(** X19. Start-up changes the document the manager was given: the
    constructor of a notifier writes into the entry it receives, so the
    entry of every listed service that is enabled and whose module can be
    loaded ends up completed with the defaults of its class, also when
    the service then fails validation.  The entries of the other services
    and the rest of the document are left as they were. *)
Theorem start_up_completes_entries (require : string → Provider.Class + Error)
    (keys : list string) (config0 : Config.t) (logger0 : list LogEntry) :
  NoDup keys →
  let document := config (new require keys config0 logger0) in
  (∀ key, key ∈ keys →
     Spec.entry_of document key = Spec.written require key <$> Spec.entry_of config0 key)
  ∧ (∀ key, key ∉ keys → Spec.entry_of document key = Spec.entry_of config0 key)
  ∧ Config.enabled document = Config.enabled config0
  ∧ Config.channelName document = Config.channelName config0
  ∧ Config.filters document = Config.filters config0
  ∧ Config.format document = Config.format config0.
Proof.
  intros Hnodup. cbv zeta. rewrite new_unfold.
  destruct (Config.services config0) as [services|] eqn:Hservices.
  - pose proof (initialize_each_run require keys
                  {| config := config0; logger := logger0; notifiers := [];
                     recentNotifications := ∅ |} Hnodup) as Hrun.
    cbv zeta in Hrun. cbn [config] in Hrun.
    destruct Hrun as (_ & _ & Hk & Ho & He & Hc & Hf & Hm & _).
    repeat split; assumption.
  - cbn [config]. repeat split.
    intros key _. unfold Spec.entry_of. now rewrite Hservices.
Qed.

(** X20. Start-up says why a listed service does not become active: a
    debug line for a service that is not enabled, an error with the
    message of the exception when its module cannot be loaded, a warning
    when it is enabled but its completed entry fails validation.  The
    lines are added to what the logger held. *)
Theorem start_up_reports_inactive (require : string → Provider.Class + Error)
    (keys : list string) (config0 : Config.t) (logger0 : list LogEntry) :
  NoDup keys →
  let this := new require keys config0 logger0 in
  ∃ lines,
    logger this = logger0 ++ lines
    ∧ ∀ key entry, key ∈ keys → Spec.entry_of config0 key = Some entry →
        (truthy (get entry "enabled") = false →
           (LogDebug, "Skipping " +:+ key +:+ ": service is not enabled") ∈ lines)
        ∧ (∀ err, truthy (get entry "enabled") = true → require key = inr err →
             (LogError, "Failed to initialize " +:+ key +:+ ": " +:+ message err) ∈ lines)
        ∧ (∀ NotifierClass,
             truthy (get entry "enabled") = true → require key = inl NotifierClass →
             BaseNotifier.validate_loop (Provider.class_variables NotifierClass)
               (Spec.written require key entry) = false →
             (LogWarn, key +:+ " is enabled but failed validation") ∈ lines).
Proof.
  intros Hnodup. cbv zeta. rewrite new_unfold.
  destruct (Config.services config0) as [services|] eqn:Hservices.
  - pose proof (initialize_each_run require keys
                  {| config := config0; logger := logger0; notifiers := [];
                     recentNotifications := ∅ |} Hnodup) as Hrun.
    cbv zeta in Hrun. cbn [config logger] in Hrun.
    destruct Hrun as (_ & _ & _ & _ & _ & _ & _ & _ & lines & Hl & Hrep).
    exists lines. split; [exact Hl|].
    intros key entry Hin Hentry. split; [|split].
    + intros Hoff. apply (Hrep key entry _ Hin Hentry).
      unfold Spec.start_up_report. now rewrite Hoff.
    + intros err Hon Hrequire. apply (Hrep key entry _ Hin Hentry).
      unfold Spec.start_up_report. now rewrite Hon, Hrequire.
    + intros c Hon Hrequire Hbad. apply (Hrep key entry _ Hin Hentry).
      unfold Spec.start_up_report. now rewrite Hon, Hrequire, Hbad.
  - exists []. split; [cbn; now rewrite app_nil_r|].
    intros key entry _ Hentry. unfold Spec.entry_of in Hentry.
    rewrite Hservices in Hentry. discriminate.
Qed.

End StartUp.

(** ** The stored document *)

Section StoredDocument.
Context `{Host}.
Import Js ConfigManager.

Lemma validateConfig_populated (raw : Raw) : Spec.populated (validateConfig raw).
Proof.
  unfold Spec.populated, validateConfig. cbn. split; [|split; [reflexivity|]].
  - destruct (services raw); eauto.
  - eexists. split; [reflexivity|]. cbn.
    repeat split; unfold string_or; destruct (get _ _); eauto.
Qed.

Lemma validateConfig_as_raw (config : Config.t) :
  Spec.populated config → validateConfig (Spec.as_raw config) = config.
Proof.
  destruct config as [en ch sv [owa hl chs] fmt].
  intros ([entries Hsv] & Hch & (format & Hfmt & [t Ht] & [tc Htc] & [m Hm] & [a Ha])).
  cbn in Hsv, Hch, Hfmt. subst sv chs fmt.
  destruct format as [ft ftc fm fa]. cbn in Ht, Htc, Hm, Ha. subst ft ftc fm fa.
  reflexivity.
Qed.

(** X21. [validateConfig] brings every document into one form and leaves
    a document of that form alone.  Whatever it is given, the result has
    a services map and a format with all four templates and has no
    channel lists: [filters.channels] is dropped from every document that
    is loaded or saved.  A document of that form goes through unchanged,
    so validating twice is validating once; and [load] returns a document
    of that form whatever is on disk. *)
Theorem validateConfig_normal_form (raw : Raw) :
  Spec.populated (validateConfig raw)
  ∧ Config.channels (Config.filters (validateConfig raw)) = None
  ∧ validateConfig (Spec.as_raw (validateConfig raw)) = validateConfig raw
  ∧ (∀ config, Spec.populated config → validateConfig (Spec.as_raw config) = config)
  ∧ (∀ file, Spec.populated (load file)).
Proof.
  split; [apply validateConfig_populated|]. split; [reflexivity|].
  split; [apply validateConfig_as_raw, validateConfig_populated|].
  split; [apply validateConfig_as_raw|].
  intros [| | |config]; cbn [load]; try apply validateConfig_populated.
  all: unfold Spec.populated, getDefaultConfig; cbn; repeat split; eauto;
    eexists; (split; [reflexivity|]); cbn; repeat split; eauto.
Qed.

Lemma construct_validate (c : Provider.Class) (config : gmap string JsVal) :
  BaseNotifier.validate (Provider.construct c config).1
  = BaseNotifier.validate_loop (Provider.class_variables c)
      (Provider.apply_defaults (BaseNotifier.normalize_all (Provider.class_variables c))
         config).
Proof.
  unfold BaseNotifier.validate. rewrite construct_config.
  assert (Hvars : BaseNotifier.registerVariables (Provider.construct c config).1
                  = BaseNotifier.normalize_all (Provider.class_variables c)).
  { unfold Provider.construct.
    destruct (truthy _); [destruct (BaseNotifier.validateWithLogging _).1|];
      reflexivity. }
  now rewrite Hvars, validate_loop_normalize.
Qed.

(** X23. [isValid] holds exactly when some listed service has a module
    under its lower-cased name and an entry that, completed with the
    defaults of the class, passes the validation of the class.  Whether
    the service is enabled plays no part. *)
Theorem isValid_some_service_valid (require : string → Provider.Class + Promise.Error)
    (keys : list string) (file : File) :
  isValid require keys file = true ↔
  ∃ key entry NotifierClass,
    key ∈ keys
    ∧ Spec.entry_of (load file) key = Some entry
    ∧ require (toLowerCase key) = inl NotifierClass
    ∧ BaseNotifier.validate_loop (Provider.class_variables NotifierClass)
        (Provider.apply_defaults
           (BaseNotifier.normalize_all (Provider.class_variables NotifierClass)) entry)
      = true.
Proof.
  unfold isValid, Spec.entry_of.
  destruct (Config.services (load file)) as [services|]; cbn [mbind option_bind].
  2: { split; [discriminate | intros (? & ? & ? & _ & [=] & _)]. }
  rewrite existsb_exists. split.
  - intros (key & Hin & Hvalid). apply list_elem_of_In in Hin.
    destruct (services !! key) as [entry|] eqn:Hentry; [|discriminate].
    destruct (require (toLowerCase key)) as [c|] eqn:Hrequire; [|discriminate].
    rewrite construct_validate in Hvalid. exists key, entry, c. auto.
  - intros (key & entry & c & Hin & Hentry & Hrequire & Hvalid).
    exists key. split; [now apply list_elem_of_In|].
    now rewrite Hentry, Hrequire, construct_validate.
Qed.

(** X24. Whenever start-up makes some service of the loaded document
    active, [isValid] holds for that document, provided the modules of
    the listed services are found under their lower-cased names as they
    are under the names as written.  (The converse fails: [isValid] also
    holds for a valid service that is not enabled.) *)
Theorem start_up_active_implies_isValid
    (require : string → Provider.Class + Promise.Error) (keys : list string)
    (file : File) (logger0 : list LogEntry) (name : string) :
  NoDup keys →
  (∀ key, key ∈ keys → require (toLowerCase key) = require key) →
  is_Some (NotificationManager.obj_get name
             (NotificationManager.notifiers
                (NotificationManager.new require keys (load file) logger0))) →
  isValid require keys file = true.
Proof.
  intros Hnodup Hcase Hactive. rewrite new_unfold in Hactive.
  destruct (Config.services (load file)) as [services|] eqn:Hservices.
  2: { destruct Hactive as [? [=]]. }
  pose proof (initialize_each_run require keys
                {| NotificationManager.config := load file;
                   NotificationManager.logger := logger0;
                   NotificationManager.notifiers := [];
                   NotificationManager.recentNotifications := ∅ |} Hnodup) as Hrun.
  cbv zeta in Hrun. destruct Hrun as (_ & Hn & _).
  apply Hn in Hactive as [[? [=]]|(key & entry & n & Hin & Hentry & Hact & _)].
  cbn [NotificationManager.config] in Hentry.
  apply activated_spec in Hact as (c & Henabled & Hrequire & Hvalid & _).
  unfold Spec.written in Hvalid. rewrite Henabled, Hrequire in Hvalid.
  unfold isValid. rewrite Hservices. apply existsb_exists.
  exists key. split; [now apply list_elem_of_In|].
  unfold Spec.entry_of in Hentry. rewrite Hservices in Hentry. cbn in Hentry.
  now rewrite Hentry, (Hcase key Hin), Hrequire, construct_validate.
Qed.

End StoredDocument.

(** ** The messages of the chat server *)

Section ChatMessages.
Context `{Host}.
Variable toLocaleTimeString : Date → string.
Variable no_timestamp : string.
Import JsString Js Promise Plugin.

(** An event that the filter refuses is answered with null. *)
Lemma processMessage_refused (this : NotificationManager.t) (messageData : MessageData.t)
    (client : NotificationManager.Client) (world : NotificationManager.World) :
  (NotificationManager.shouldNotify messageData client this).1 = false →
  (NotificationManager.processMessage messageData client world this).1 = Fulfilled None.
Proof.
  unfold NotificationManager.processMessage, NotificationManager.bind at 1.
  destruct (NotificationManager.shouldNotify messageData client this) as [pass this1].
  cbn [fst]. now intros ->.
Qed.

(** An event whose key is in the set of recent keys is answered with
    null. *)
Lemma processMessage_seen (this : NotificationManager.t) (messageData : MessageData.t)
    (client : NotificationManager.Client) (world : NotificationManager.World) :
  NotificationManager.getDeduplicationKey messageData
    ∈ NotificationManager.recentNotifications this →
  (NotificationManager.processMessage messageData client world this).1 = Fulfilled None.
Proof.
  intros Hseen.
  pose proof (shouldNotify_frame this messageData client) as Hframe. cbv zeta in Hframe.
  unfold NotificationManager.processMessage, NotificationManager.bind at 1.
  destruct (NotificationManager.shouldNotify messageData client this) as [pass this1].
  cbn [snd] in Hframe. destruct Hframe as (_ & _ & Hr).
  destruct pass; [|reflexivity]. cbn [negb].
  unfold NotificationManager.bind at 1, NotificationManager.gets at 1. rewrite Hr.
  rewrite bool_decide_eq_true_2 by exact Hseen.
  reflexivity.
Qed.

(** A result carries the notification formatted from the event. *)
Lemma processMessage_result (this : NotificationManager.t) (messageData : MessageData.t)
    (client : NotificationManager.Client) (world : NotificationManager.World)
    (result : NotificationManager.Result) :
  (NotificationManager.processMessage messageData client world this).1
  = Fulfilled (Some result) →
  (NotificationManager.shouldNotify messageData client this).1 = true
  ∧ NotificationManager.notification result
    = NotificationManager.formatNotification (NotificationManager.config this)
        (NotificationManager.now world) messageData.
Proof.
  intros Hout.
  destruct (NotificationManager.shouldNotify messageData client this).1 eqn:Hpass.
  2: { rewrite processMessage_refused in Hout by exact Hpass. discriminate. }
  split; [reflexivity|].
  destruct (decide (NotificationManager.getDeduplicationKey messageData
                      ∈ NotificationManager.recentNotifications this)) as [Hseen|Hfresh].
  { rewrite processMessage_seen in Hout by exact Hseen. discriminate. }
  destruct (processMessage_sent this messageData client world Hpass Hfresh)
    as (this' & Hrun & _).
  rewrite Hrun in Hout. cbn [fst] in Hout.
  destruct (Promise.all _); [|discriminate]. now injection Hout as <-.
Qed.

(** The plugin hands a message of the chat server to the manager only
    when notifications are enabled for the session, the message is not
    the user's own, and its type is one of message, action and notice.
    Every other message is dropped without a trace. *)
Lemma handleTheloungeMessage_skips (state : State) (channel_name : string) (msg : Msg)
    (world : NotificationManager.World) :
  enabled state = false
  ∨ notificationManager state = None
  ∨ self msg = true
  ∨ (type msg ≠ "message" ∧ type msg ≠ "action" ∧ type msg ≠ "notice") →
  handleTheloungeMessage toLocaleTimeString no_timestamp state channel_name msg world
  = (state, []).
Proof.
  unfold handleTheloungeMessage, notifiable_type.
  intros [Hoff|[Hnone|[Hself|(Hm & Ha & Hn)]]].
  - rewrite Hoff. now destruct (notificationManager state).
  - now rewrite Hnone.
  - rewrite Hself. destruct (notificationManager state); [|reflexivity].
    now destruct (negb (enabled state)).
  - apply String.eqb_neq in Hm, Ha, Hn. rewrite Hm, Ha, Hn. cbn.
    destruct (notificationManager state); [|reflexivity].
    destruct (negb (enabled state)); [reflexivity|]. now destruct (self msg).
Qed.

(** X22. A line appears in the virtual channel only for a message that
    was in fact notified: the session is enabled, the message is not the
    user's own, it is a message, an action or a notice and a highlight,
    the highlights filter is on, the manager resolved with a result that
    names at least one service, and the message carries a time.  The
    line is then the only one, and it names the time, the services, the
    title and the text of that result. *)
Theorem handleTheloungeMessage_posts_notified (state : State) (channel_name : string)
    (msg : Msg) (world : NotificationManager.World) (line : string) :
  line ∈ (handleTheloungeMessage toLocaleTimeString no_timestamp state channel_name
            msg world).2 →
  ∃ manager result timestamp,
    notificationManager state = Some manager
    ∧ enabled state = true
    ∧ self msg = false
    ∧ notifiable_type (type msg) = true
    ∧ highlight msg = Some true
    ∧ Config.highlights (Config.filters (NotificationManager.config manager)) = true
    ∧ (NotificationManager.processMessage (messageData_of state channel_name msg)
         (client state) world manager).1 = Fulfilled (Some result)
    ∧ NotificationManager.services result ≠ []
    ∧ time msg = Some timestamp
    ∧ (handleTheloungeMessage toLocaleTimeString no_timestamp state channel_name
         msg world).2
      = [ "[" +:+ toLocaleTimeString timestamp +:+ "] Notification sent via "
            +:+ join ", " (NotificationManager.services result) +:+ ": "
            +:+ Notification.title (NotificationManager.notification result) +:+ " - "
            +:+ Notification.message (NotificationManager.notification result) ].
Proof.
  unfold handleTheloungeMessage.
  destruct (notificationManager state) as [manager|] eqn:Hmanager; [|intros Hin; inversion Hin].
  destruct (enabled state) eqn:Hon; cbn [negb]; [|intros Hin; inversion Hin].
  destruct (self msg) eqn:Hself; [intros Hin; inversion Hin|].
  destruct (notifiable_type (type msg)) eqn:Htype; cbn [negb];
    [|intros Hin; inversion Hin].
  set (messageData := messageData_of state channel_name msg).
  destruct (NotificationManager.processMessage messageData (client state) world manager).1
    as [[result|]|[n|err]] eqn:Hout; cbn; try (intros Hin; inversion Hin; fail).
  destruct (processMessage_result manager messageData (client state) world result Hout)
    as [Hpass Hnotification].
  rewrite shouldNotify_answer in Hpass.
  assert (Hhl : Config.highlights (Config.filters (NotificationManager.config manager)) = true
                ∧ highlight msg = Some true).
  { destruct (Config.onlyWhenAway _ && _); [discriminate|].
    apply andb_true_iff in Hpass as [Hh Hm]. split; [exact Hh|].
    unfold messageData, messageData_of in Hm. cbn in Hm.
    destruct (highlight msg) as [[]|]; (reflexivity || discriminate). }
  destruct Hhl as [Hfilter Hhighlight].
  destruct (NotificationManager.services result) as [|service rest] eqn:Hservices;
    [intros Hin; inversion Hin|].
  unfold logNotificationToChannel.
  assert (Hstamp : Notification.timestamp (NotificationManager.notification result)
                   = time msg) by (now rewrite Hnotification).
  rewrite Hstamp.
  destruct (time msg) as [timestamp|]; cbn; [|intros Hin; inversion Hin].
  intros _. exists manager, result, timestamp.
  rewrite Hservices. repeat split; try assumption; try reflexivity. discriminate.
Qed.

End ChatMessages.

(** ** The comparison of versions *)

Section VersionOrder.
Import JsString VersionCheck.
#[local] Arguments Ascii.eqb : simpl never.
Variable Number : string → Num.

Lemma part_number (parts : list Num) (i : nat) : part parts i ≠ NaN.
Proof.
  unfold part. destruct (parts !! i) as [[]|]; cbn; try discriminate.
  destruct (negb _); discriminate.
Qed.

Lemma Qcompare_same (p : QArith_base.Q) : QArith_base.Qcompare p p = Eq.
Proof. apply QArith_base.Qeq_alt, QArith_base.Qeq_refl. Qed.

Lemma Qcompare_swap (p q : QArith_base.Q) :
  QArith_base.Qcompare q p = CompOpp (QArith_base.Qcompare p q).
Proof. symmetry. apply QArith_base.Qcompare_antisym. Qed.

Lemma num_lt_irrefl (a : Num) : lt a a = false.
Proof. destruct a; cbn [lt]; try reflexivity. now rewrite Qcompare_same. Qed.

Lemma num_lt_asym (a b : Num) : lt a b = true → lt b a = false.
Proof.
  destruct a, b; cbn [lt]; try reflexivity; try discriminate.
  rewrite (Qcompare_swap q q0). now destruct (QArith_base.Qcompare q q0).
Qed.

Lemma num_lt_trans (a b c : Num) : lt a b = true → lt b c = true → lt a c = true.
Proof.
  destruct a as [| |p|], b as [| |q|], c as [| |r|]; cbn [lt];
    try reflexivity; try discriminate.
  destruct (QArith_base.Qcompare p q) eqn:Hpq; try discriminate.
  destruct (QArith_base.Qcompare q r) eqn:Hqr; try discriminate.
  intros _ _.
  pose proof (QArith_base.Qlt_trans p q r (proj2 (QArith_base.Qlt_alt p q) Hpq)
                (proj2 (QArith_base.Qlt_alt q r) Hqr)) as Hpr.
  now rewrite (proj1 (QArith_base.Qlt_alt p r) Hpr).
Qed.

(** Two numbers neither of which is below the other compare alike with
    every third. *)
Lemma num_lt_equiv (a b c : Num) :
  a ≠ NaN → b ≠ NaN → lt a b = false → lt b a = false →
  lt a c = lt b c ∧ lt c a = lt c b.
Proof.
  destruct a as [| |p|], b as [| |q|]; cbn [lt]; try congruence; try discriminate;
    intros _ _; try discriminate; try (split; reflexivity).
  rewrite (Qcompare_swap p q).
  destruct (QArith_base.Qcompare p q) eqn:Hpq; cbn [lt]; try discriminate.
  intros _ _. pose proof (proj2 (QArith_base.Qeq_alt p q) Hpq) as Heq.
  destruct c as [| |r|]; cbn [lt]; try (split; reflexivity).
  rewrite (QArith_base.Qcompare_comp p q Heq r r (QArith_base.Qeq_refl r)).
  rewrite (QArith_base.Qcompare_comp r r (QArith_base.Qeq_refl r) p q Heq).
  split; reflexivity.
Qed.

Lemma compare_from_range (i n : nat) (A B : list Num) :
  compare_from i n A B = (-1)%Z ∨ compare_from i n A B = 0%Z
  ∨ compare_from i n A B = 1%Z.
Proof.
  revert i. induction n as [|n IH]; intros i; cbn; [auto|].
  destruct (lt _ _); [auto|]. destruct (lt _ _); auto.
Qed.

Lemma compare_from_refl (i n : nat) (A : list Num) : compare_from i n A A = 0%Z.
Proof.
  revert i. induction n as [|n IH]; intros i; cbn; [reflexivity|].
  now rewrite num_lt_irrefl.
Qed.

Lemma compare_from_swap (i n : nat) (A B : list Num) :
  compare_from i n B A = (- compare_from i n A B)%Z.
Proof.
  revert i. induction n as [|n IH]; intros i; cbn; [reflexivity|].
  destruct (lt (part A i) (part B i)) eqn:Hab.
  - now rewrite (num_lt_asym _ _ Hab).
  - destruct (lt (part B i) (part A i)); [reflexivity | apply IH].
Qed.

Lemma compare_from_trans (i n : nat) (A B C : list Num) :
  (compare_from i n A B <= 0)%Z → (compare_from i n B C <= 0)%Z →
  (compare_from i n A C <= 0)%Z
  ∧ (compare_from i n A B = (-1)%Z ∨ compare_from i n B C = (-1)%Z →
     compare_from i n A C = (-1)%Z).
Proof.
  revert i. induction n as [|n IH]; intros i; cbn.
  - intros _ _. split; [lia | intros [|]; discriminate].
  - pose proof (part_number A i) as Ha. pose proof (part_number B i) as Hb.
    pose proof (part_number C i) as Hc.
    destruct (lt (part A i) (part B i)) eqn:Hab.
    + intros _. destruct (lt (part B i) (part C i)) eqn:Hbc.
      * intros _. rewrite (num_lt_trans _ _ _ Hab Hbc). split; [lia | reflexivity].
      * destruct (lt (part C i) (part B i)) eqn:Hcb; [lia|]. intros _.
        destruct (num_lt_equiv (part B i) (part C i) (part A i) Hb Hc Hbc Hcb) as [_ Heq].
        rewrite <- Heq, Hab. split; [lia | reflexivity].
    + destruct (lt (part B i) (part A i)) eqn:Hba; [lia|].
      destruct (num_lt_equiv (part A i) (part B i) (part C i) Ha Hb Hab Hba) as [Hl Hr].
      rewrite Hl, Hr.
      destruct (lt (part B i) (part C i)); [intros _ _; split; [lia | reflexivity]|].
      destruct (lt (part C i) (part B i)); [lia|]. apply IH.
Qed.

(** X25. [compareVersions] is the comparison of a total preorder on
    version strings, whatever [Number] makes of their parts: it answers
    -1, 0 or 1; a version equals itself; exchanging the arguments negates
    the answer; and the order is transitive, strictly so when one of the
    two steps is strict.  So no chain of versions, each older than the
    next, leads back to its start. *)
Theorem compareVersions_total_preorder (a b c : string) :
  (compareVersions Number a b = (-1)%Z ∨ compareVersions Number a b = 0%Z
   ∨ compareVersions Number a b = 1%Z)
  ∧ compareVersions Number a a = 0%Z
  ∧ compareVersions Number b a = (- compareVersions Number a b)%Z
  ∧ ((compareVersions Number a b <= 0)%Z → (compareVersions Number b c <= 0)%Z →
     (compareVersions Number a c <= 0)%Z
     ∧ (compareVersions Number a b = (-1)%Z ∨ compareVersions Number b c = (-1)%Z →
        compareVersions Number a c = (-1)%Z)).
Proof.
  unfold compareVersions. split; [apply compare_from_range|].
  split; [apply compare_from_refl|]. split; [apply compare_from_swap|].
  apply compare_from_trans.
Qed.

Lemma split_dots_last (piece x : string) :
  mem "."%char x = false → split_dots piece x = [piece +:+ x].
Proof.
  revert piece. induction x as [|c x IH]; intros piece Hfree.
  - cbn. now rewrite append_empty_r.
  - cbn in Hfree. apply orb_false_iff in Hfree as [Hc Hx].
    cbn [split_dots]. rewrite Ascii.eqb_sym, Hc, (IH _ Hx).
    now rewrite append_assoc.
Qed.

Lemma split_dots_piece (piece x rest : string) :
  mem "."%char x = false →
  split_dots piece (x +:+ String "." rest) = (piece +:+ x) :: split_dots "" rest.
Proof.
  revert piece. induction x as [|c x IH]; intros piece Hfree.
  - cbn. now rewrite append_empty_r.
  - cbn in Hfree. apply orb_false_iff in Hfree as [Hc Hx].
    rewrite append_cons. cbn [split_dots]. rewrite Ascii.eqb_sym, Hc, (IH _ Hx).
    now rewrite append_assoc.
Qed.

Lemma strip_v_kept (x rest : string) :
  startsWith x "v" = false →
  strip_v (x +:+ String "." rest) = x +:+ String "." rest
  ∧ strip_v x = x.
Proof.
  destruct x as [|c x]; [now split|]. unfold startsWith.
  rewrite append_cons. cbn [strip_prefix strip_v]. rewrite Ascii.eqb_sym.
  now destruct (Ascii.eqb c "v").
Qed.

Lemma dot_append (s : string) : "." +:+ s = String "." s.
Proof. reflexivity. Qed.

(** The loop reads its arguments through [part] alone. *)
Lemma compare_from_ext (i n : nat) (A A' B : list Num) :
  (∀ j, i <= j < i + n → part A j = part A' j) →
  compare_from i n A B = compare_from i n A' B
  ∧ compare_from i n B A = compare_from i n B A'.
Proof.
  revert i. induction n as [|n IH]; intros i Hsame; cbn; [now split|].
  rewrite (Hsame i) by lia.
  destruct (IH (S i)) as [Hl Hr]; [intros j Hj; apply Hsame; lia|].
  now rewrite Hl, Hr.
Qed.

(** X26. Of a version, [compareVersions] reads one leading [v] as
    nothing and only the first three parts between dots; and a part that
    is missing, or that [Number] reads as NaN or as zero, counts as zero.
    So a version with a prefix and further parts compares with every
    version as its first three parts do, and a version of one part
    compares as the version of three parts whose second and third read
    as nothing. *)
Theorem compareVersions_reads_three_parts (x y z tail other : string) :
  mem "."%char x = false → mem "."%char y = false → mem "."%char z = false →
  startsWith x "v" = false →
  let short := x +:+ "." +:+ y +:+ "." +:+ z in
  let long := "v" +:+ x +:+ "." +:+ y +:+ "." +:+ z +:+ "." +:+ tail in
  compareVersions Number long other = compareVersions Number short other
  ∧ compareVersions Number other long = compareVersions Number other short
  ∧ (truthy (Number y) = false → truthy (Number z) = false →
       compareVersions Number x other = compareVersions Number short other
       ∧ compareVersions Number other x = compareVersions Number other short).
Proof.
  intros Hx Hy Hz Hv short long.
  assert (Hshort : split (strip_v short) = [x; y; z]).
  { unfold short. rewrite !dot_append.
    rewrite (proj1 (strip_v_kept x _ Hv)). unfold split.
    rewrite (split_dots_piece "" x) by exact Hx. rewrite append_empty_l.
    rewrite (split_dots_piece "" y) by exact Hy. rewrite append_empty_l.
    now rewrite (split_dots_last "" z) by exact Hz. }
  assert (Hlong : ∃ more, split (strip_v long) = [x; y; z] ++ more).
  { unfold long. change ("v" +:+ ?s) with (String "v" s).
    rewrite !dot_append. cbn [strip_v].
    change (Ascii.eqb "v" "v") with true. cbv iota. unfold split.
    rewrite (split_dots_piece "" x) by exact Hx. rewrite append_empty_l.
    rewrite (split_dots_piece "" y) by exact Hy. rewrite append_empty_l.
    rewrite (split_dots_piece "" z) by exact Hz. rewrite append_empty_l.
    eexists. reflexivity. }
  destruct Hlong as [more Hlong].
  assert (Hone : split (strip_v x) = [x]).
  { rewrite (proj2 (strip_v_kept x "" Hv)). unfold split.
    now rewrite (split_dots_last "" x) by exact Hx. }
  unfold compareVersions. rewrite Hshort, Hlong, Hone. cbn [List.map app].
  split; [|split].
  - apply compare_from_ext. intros j Hj. unfold part.
    destruct j as [|[|[|j]]]; (reflexivity || lia).
  - apply compare_from_ext. intros j Hj. unfold part.
    destruct j as [|[|[|j]]]; (reflexivity || lia).
  - intros Hny Hnz.
    apply compare_from_ext. intros j Hj. unfold part.
    destruct j as [|[|[|j]]]; cbn [lookup list_lookup]; try lia.
    + reflexivity.
    + now rewrite Hny.
    + now rewrite Hnz.
Qed.

End VersionOrder.

(** ** The further properties on concrete objects *)

Section FurtherInstances.
#[local] Existing Instance ExampleHost.host.
Import JsString Js Promise.

(** X1 on a title template, with a message that holds a dollar pattern
    and a placeholder. *)
Lemma process_ignores_unused_values_witness :
  FormatTemplate.process
    (Some (Template.text [Template.Lit "on "; Template.Var "network"]))
    [("message", Some "costs $& in {{network}}"); ("network", Some "freenode")]
  = Template.render
      [("message", Some "costs $& in {{network}}"); ("network", Some "freenode")]
      [Template.Lit "on "; Template.Var "network"].
Proof.
  apply (process_ignores_unused_values
           [Template.Lit "on "; Template.Var "network"]
           [("message", Some "costs $& in {{network}}"); ("network", Some "freenode")]).
  - repeat constructor.
  - repeat apply List.Forall_cons; try apply List.Forall_nil;
      (split; [reflexivity|]); intros Hused; [discriminate Hused | split; reflexivity].
Defined.

Example process_ignores_unused_values_run :
  FormatTemplate.process (Some "on {{network}}")
    [("message", Some "costs $& in {{network}}"); ("network", Some "freenode")]
  = "on freenode".
Proof. reflexivity. Qed.

(** X2 on the default message template and a nick with a dollar pair. *)
Lemma process_expands_replacement_patterns_witness :
  let template := "<" +:+ FormatTemplate.placeholder "nick" +:+ "> hi" in
  FormatTemplate.process (Some template) [("nick", Some "a$$b")]
  = "<" +:+ GetSubstitution (FormatTemplate.placeholder "nick") "<" "> hi" "a$$b" +:+ "> hi"
  ∧ FormatTemplate.process (Some template) [("nick", Some "$$")] = "<" +:+ "$" +:+ "> hi"
  ∧ FormatTemplate.process (Some template) [("nick", Some "$&")] = template
  ∧ FormatTemplate.process (Some template) [("nick", Some "$`")] = "<" +:+ "<" +:+ "> hi"
  ∧ FormatTemplate.process (Some template) [("nick", Some "$'")]
    = "<" +:+ "> hi" +:+ "> hi".
Proof.
  apply (process_expands_replacement_patterns "nick" "<" "> hi" "a$$b"); reflexivity.
Defined.

Example process_expands_replacement_patterns_run :
  FormatTemplate.process (Some "<{{nick}}> hi") [("nick", Some "a$$b")] = "<a$b> hi"
  ∧ FormatTemplate.process (Some "<{{nick}}> hi") [("nick", Some "$&")] = "<{{nick}}> hi".
Proof. split; reflexivity. Qed.

(** X3: a message that spells the placeholder of the network. *)
Lemma process_rescans_inserted_values_witness :
  FormatTemplate.process (Some (FormatTemplate.placeholder "message"))
    [("message", Some (FormatTemplate.placeholder "network")); ("network", Some "freenode")]
  = "freenode"
  ∧ FormatTemplate.process (Some (FormatTemplate.placeholder "message"))
      [("network", Some "freenode"); ("message", Some (FormatTemplate.placeholder "network"))]
    = FormatTemplate.placeholder "network"
  ∧ (numeral "message" = None → numeral "network" = None →
       Provider.processTemplate (FormatTemplate.placeholder "message")
         [("message", FormatTemplate.placeholder "network"); ("network", "freenode")]
       = "freenode"
       ∧ Provider.processTemplate (FormatTemplate.placeholder "message")
           [("network", "freenode"); ("message", FormatTemplate.placeholder "network")]
         = FormatTemplate.placeholder "network").
Proof.
  apply (process_rescans_inserted_values "message" "network" "freenode").
  - reflexivity.
  - reflexivity.
  - discriminate.
  - split; reflexivity.
Defined.

(** The same through [formatNotification]: what a user wrote is
    expanded. *)
Example formatNotification_rescans_message :
  Notification.message
    (NotificationManager.formatNotification Examples.config tt
       (Examples.event "message" "#test" "I am on {{network}}"))
  = "<bob> I am on freenode".
Proof. reflexivity. Qed.

(** In [processTemplate] a key that is a numeral does not stand for its
    placeholder: the pattern of the key [2] matches two opening braces
    followed by one closing brace. *)
Example processTemplate_numeral_key_run :
  Provider.processTemplate "{{2}} or {{}" [("2", "x")] = "{{2}} or x"
  ∧ Provider.processTemplate "{{2}} or {{}" [("two", "x")] = "{{2}} or {{}"
  ∧ FormatTemplate.process (Some "{{2}} or {{}") [("2", Some "x")] = "x or {{}".
Proof. repeat split. Qed.

(** X4 on an action in a channel. *)
Lemma formatNotification_default_templates_witness :
  let config := Examples.config in
  let messageData := Examples.event "action" "#test" "waves" in
  let notification := NotificationManager.formatNotification config tt messageData in
  let channel := MessageData.channel messageData in
  let network := MessageData.network messageData in
  let nick := MessageData.nick messageData in
  let message := MessageData.message messageData in
  (Template.plain_text network → startsWith channel "#" = false →
     Notification.title notification = network)
  ∧ (Template.plain_text network → Template.plain_text channel →
     startsWith channel "#" = true →
       Notification.title notification = network +:+ " - " +:+ channel)
  ∧ (Template.plain_text nick → Template.plain_text message →
       Notification.message notification =
         if String.eqb (MessageData.type messageData) "action"
         then "* " +:+ nick +:+ " " +:+ message
         else "<" +:+ nick +:+ "> " +:+ message)
  ∧ Notification.timestamp notification = MessageData.timestamp messageData.
Proof.
  apply (formatNotification_default_templates Examples.config tt
           (Examples.event "action" "#test" "waves")).
  reflexivity.
Defined.

(** X5 on a message that is no highlight. *)
Lemma processMessage_filtered_event_witness :
  let out :=
    NotificationManager.processMessage Examples.chatter Examples.present
      (Examples.world []) Examples.manager in
  out.1 = Fulfilled None
  ∧ NotificationManager.config out.2 = NotificationManager.config Examples.manager
  ∧ NotificationManager.notifiers out.2 = NotificationManager.notifiers Examples.manager
  ∧ NotificationManager.recentNotifications out.2
    = NotificationManager.recentNotifications Examples.manager
  ∧ ∃ lines,
      NotificationManager.logger out.2 = NotificationManager.logger Examples.manager ++ lines
      ∧ Forall (fun entry => entry.1 = LogDebug) lines.
Proof.
  apply (processMessage_filtered_event Examples.manager Examples.chatter Examples.present
           (Examples.world [])).
  left. reflexivity.
Defined.

(** X6 on two long messages with the same first fifty code units. *)
Lemma processMessage_same_key_suppressed_witness :
  let first := Examples.event "message" "#test" (Examples.long_message "first") in
  let second := Examples.event "message" "#test" (Examples.long_message "other") in
  let sent :=
    NotificationManager.processMessage first Examples.present (Examples.world [])
      Examples.manager in
  let out :=
    NotificationManager.processMessage second Examples.present (Examples.world [1]) sent.2 in
  out.1 = Fulfilled None
  ∧ NotificationManager.notifiers out.2 = NotificationManager.notifiers Examples.manager
  ∧ NotificationManager.recentNotifications out.2
    = NotificationManager.recentNotifications sent.2
  ∧ ∃ lines,
      NotificationManager.logger out.2 = NotificationManager.logger sent.2 ++ lines
      ∧ Forall (fun entry => entry.1 = LogDebug) lines.
Proof.
  apply (processMessage_same_key_suppressed Examples.manager
           (Examples.event "message" "#test" (Examples.long_message "first"))
           (Examples.event "message" "#test" (Examples.long_message "other"))
           Examples.present Examples.present (Examples.world []) (Examples.world [1])).
  - reflexivity.
  - apply not_elem_of_empty.
  - reflexivity.
Defined.

(** X7 on two channels of two networks. *)
Example getDeduplicationKey_separator_collision_run :
  NotificationManager.getDeduplicationKey
    {| MessageData.type := "message"; MessageData.network := "irc-eu";
       MessageData.channel := "#dev"; MessageData.nick := "bob";
       MessageData.message := "hey"; MessageData.timestamp := None;
       MessageData.highlight := true |}
  = NotificationManager.getDeduplicationKey
      {| MessageData.type := "message"; MessageData.network := "irc";
         MessageData.channel := "eu-#dev"; MessageData.nick := "bob";
         MessageData.message := "hey"; MessageData.timestamp := None;
         MessageData.highlight := true |}.
Proof. reflexivity. Qed.

(** X8 on the example manager: the server of [down] cannot be reached
    the first time and answers the second time. *)
Lemma cleanup_ends_suppression_witness :
  let this := Examples.manager in
  let messageData := Examples.event "message" "#test" "hey bob" in
  let world := Examples.world [] in
  let world' := Examples.fair [1] in
  let first := NotificationManager.processMessage messageData Examples.present world this in
  let cleaned := (NotificationManager.cleanupRecentNotifications first.2).2 in
  let again :=
    NotificationManager.processMessage messageData Examples.present world' cleaned in
  let notification :=
    NotificationManager.formatNotification (NotificationManager.config this)
      (NotificationManager.now world') messageData in
  let settles name notifier :=
    BaseNotifier.outcome
      (BaseNotifier.send notifier notification (NotificationManager.reply world' name)) in
  NotificationManager.recentNotifications cleaned = ∅
  ∧ NotificationManager.notifiers cleaned = NotificationManager.notifiers this
  ∧ NotificationManager.config cleaned = NotificationManager.config this
  ∧ again.1 ≠ Fulfilled None
  ∧ (∃ lines,
       NotificationManager.logger again.2 = NotificationManager.logger cleaned ++ lines
       ∧ ∀ name, name ∈ (NotificationManager.notifiers this).*1 →
           (LogDebug, "Sending notification via " +:+ name) ∈ lines)
  ∧ NotificationManager.recentNotifications again.2
    = {[ NotificationManager.getDeduplicationKey messageData ]}
  ∧ ((∀ name notifier, (name, notifier) ∈ NotificationManager.notifiers this →
        ¬ Spec.without_reason (settles name notifier)) →
     ∃ resent,
       again.1 = Fulfilled (Some resent)
       ∧ NotificationManager.notification resent = notification
       ∧ ∀ name, name ∈ NotificationManager.services resent ↔
           ∃ notifier, (name, notifier) ∈ NotificationManager.notifiers this
                       ∧ settles name notifier = Fulfilled tt).
Proof.
  apply (cleanup_ends_suppression Examples.manager
           (Examples.event "message" "#test" "hey bob") Examples.present
           (Examples.world []) (Examples.fair [1])).
  - reflexivity.
  - apply not_elem_of_empty.
Defined.

(** On that run the first call is delivered by [up] alone, the second by
    both, [down] ending first. *)
Example cleanup_ends_suppression_run :
  let messageData := Examples.event "message" "#test" "hey bob" in
  let first :=
    NotificationManager.processMessage messageData Examples.present (Examples.world [])
      Examples.manager in
  let cleaned := (NotificationManager.cleanupRecentNotifications first.2).2 in
  let again :=
    NotificationManager.processMessage messageData Examples.present (Examples.fair [1])
      cleaned in
  Spec.delivered_by first.1 = Some ["up"]
  ∧ Spec.delivered_by again.1 = Some ["down"; "up"].
Proof. vm_compute. split; reflexivity. Qed.

(** X9 on the example manager: one of its two services fails, and the
    manager does not report it; the error line is the notifier's own. *)
Example sendTestNotification_all_or_nothing_run :
  (NotificationManager.sendTestNotification "send is not a function" None
     (Examples.world []) Examples.manager).1
  = Rejected (Value {| message := "connect ECONNREFUSED" |})
  ∧ NotificationManager.logger
      (NotificationManager.sendTestNotification "send is not a function" None
         (Examples.world []) Examples.manager).2
    = [ (LogInfo, "Sending test notification via up");
        (LogInfo, "Sending test notification via down");
        (LogDebug, "up notification sent");
        (LogError, "down error: connect ECONNREFUSED") ].
Proof. split; reflexivity. Qed.

(** The example host lower-cases a text that is in lower case to
    itself. *)
Lemma lower_ascii_idempotent (c : ascii) :
  ExampleHost.lower_ascii (ExampleHost.lower_ascii c) = ExampleHost.lower_ascii c.
Proof.
  destruct c as [b0 b1 b2 b3 b4 b5 b6 b7].
  destruct b0, b1, b2, b3, b4, b5, b6, b7; reflexivity.
Qed.

Lemma lower_idempotent (s : string) :
  ExampleHost.lower (ExampleHost.lower s) = ExampleHost.lower s.
Proof.
  induction s as [|c s IH]; [reflexivity|].
  cbn [ExampleHost.lower]. now rewrite lower_ascii_idempotent, IH.
Qed.

(** So no text is lower-cased to a name with a capital. *)
Lemma lower_image (name : string) :
  ExampleHost.lower name ≠ name → ∀ text, ExampleHost.lower text ≠ name.
Proof. intros Hcapital text <-. apply Hcapital, lower_idempotent. Qed.

(** X27 on a manager whose notifier is registered as Prowl. *)
Lemma test_command_reaches_lower_case_names_witness :
  let this := Examples.prowl_manager in
  let arg := "Prowl" in
  let world := Examples.fair [] in
  let name := toLowerCase arg in
  let out :=
    NotificationManager.sendTestNotification "send is not a function"
      (Commands.test_serviceName (Some arg)) world this in
  let not_found :=
    Rejected (Value {| message := "Service " +:+ NotificationManager.dquote +:+ name
                                    +:+ NotificationManager.dquote
                                    +:+ " not found or not configured" |}) in
  (∀ notifier,
     NotificationManager.obj_get name (NotificationManager.notifiers this) = Some notifier →
     let sending :=
       BaseNotifier.send notifier
         (NotificationManager.test_notification (NotificationManager.now world))
         (NotificationManager.reply world name) in
     out.1 = BaseNotifier.outcome sending
     ∧ NotificationManager.logger out.2
       = NotificationManager.logger this
           ++ (LogInfo, "Sending test notification via " +:+ name)
              :: BaseNotifier.started sending ++ BaseNotifier.ended sending)
  ∧ (name ∉ (NotificationManager.notifiers this).*1 → out = (not_found, this))
  ∧ ((∀ registered, registered ∈ (NotificationManager.notifiers this).*1 →
        ∀ text, toLowerCase text ≠ registered) →
     out = (not_found, this)).
Proof.
  apply (test_command_reaches_lower_case_names "send is not a function"
           Examples.prowl_manager "Prowl" (Examples.fair [])).
  - discriminate.
  - discriminate.
  - reflexivity.
Defined.

(** The notifier is there and delivers, no text is lower-cased to its
    name, and the test by name fails. *)
Example test_command_misses_Prowl_run :
  (∀ registered,
     registered ∈ (NotificationManager.notifiers Examples.prowl_manager).*1 →
     ∀ text, toLowerCase text ≠ registered)
  ∧ (NotificationManager.sendTestNotification "send is not a function"
       (Commands.test_serviceName (Some "Prowl")) (Examples.fair [])
       Examples.prowl_manager).1
    = Rejected (Value {| message := "Service " +:+ NotificationManager.dquote +:+ "prowl"
                                      +:+ NotificationManager.dquote
                                      +:+ " not found or not configured" |})
  ∧ (NotificationManager.sendTestNotification "send is not a function" None
       (Examples.fair []) Examples.prowl_manager).1 = Fulfilled tt.
Proof.
  split; [|split; reflexivity].
  intros registered Hin. cbn in Hin. apply list_elem_of_singleton in Hin as ->.
  now apply lower_image.
Qed.

(** A test by name that reaches its notifier. *)
Example test_command_reaches_up_run :
  let out :=
    NotificationManager.sendTestNotification "send is not a function"
      (Commands.test_serviceName (Some "UP")) (Examples.world []) Examples.manager in
  out.1 = Fulfilled tt
  ∧ NotificationManager.logger out.2
    = [ (LogInfo, "Sending test notification via up");
        (LogDebug, "up notification sent") ].
Proof. split; reflexivity. Qed.

(** X10 on the base notifier: an [enabled] key makes no difference. *)
Lemma validate_declared_fields_only_witness :
  let self :=
    BaseNotifier.new (<[ "userKey" := VStr "u" ]> {[ "apiToken" := VStr "t" ]}) in
  let other :=
    BaseNotifier.with_config self
      (<[ "enabled" := VBool true ]> (BaseNotifier.config self)) in
  BaseNotifier.validate other = BaseNotifier.validate self.
Proof.
  apply (validate_declared_fields_only
           (BaseNotifier.new (<[ "userKey" := VStr "u" ]> {[ "apiToken" := VStr "t" ]}))
           (BaseNotifier.with_config
              (BaseNotifier.new (<[ "userKey" := VStr "u" ]> {[ "apiToken" := VStr "t" ]}))
              (<[ "enabled" := VBool true ]>
                 (<[ "userKey" := VStr "u" ]> {[ "apiToken" := VStr "t" ]})))).
  - reflexivity.
  - intros key Hdecl. unfold Spec.declared in Hdecl. cbn in Hdecl.
    apply elem_of_cons in Hdecl as [->|Hdecl]; [reflexivity|].
    apply elem_of_cons in Hdecl as [->|Hdecl]; [reflexivity|].
    inversion Hdecl.
Defined.

(** X12 on the example class and an entry with the token alone. *)
Lemma constructor_applies_defaults_witness :
  let c := Examples.pager in
  let config : gmap string JsVal := {[ "token" := VStr "secret" ]} in
  let stored := BaseNotifier.config (Provider.construct c config).1 in
  (∀ key d, (key, d) ∈ Provider.class_variables c →
     get stored key
     = if negb (from_option id false (FieldDescriptor.required d))
          && BaseNotifier.is_undefined (get config key)
       then BaseNotifier.prop (FieldDescriptor.default d)
       else get config key)
  ∧ (∀ key, key ∉ (Provider.class_variables c).*1 → get stored key = get config key)
  ∧ (∀ key, BaseNotifier.is_undefined (get config key) = false →
       get stored key = get config key).
Proof.
  apply (constructor_applies_defaults Examples.pager {[ "token" := VStr "secret" ]}).
  apply (bool_decide_unpack _). vm_compute. exact I.
Defined.

Example constructor_applies_defaults_run :
  let stored :=
    BaseNotifier.config
      (Provider.construct Examples.pager {[ "token" := VStr "secret" ]}).1 in
  get stored "sound" = VStr "pulse"
  ∧ get stored "token" = VStr "secret"
  ∧ get stored "enabled" = VUndefined.
Proof. repeat split. Qed.

(** X13 on the example class: without [enabled] the notifier does not
    send, with it it does. *)
Example constructed_notifier_gate_run :
  BaseNotifier.send
    (Provider.construct Examples.pager {[ "token" := VStr "secret" ]}).1
    (NotificationManager.test_notification tt) (Some 200)
  = BaseNotifier.refused {| message := "pager notifier is not properly configured" |}
  ∧ BaseNotifier.send
      (Provider.construct Examples.pager
         (<[ "enabled" := VBool true ]> {[ "token" := VStr "secret" ]})).1
      (NotificationManager.test_notification tt) (Some 200)
    = {| BaseNotifier.started := [];
         BaseNotifier.ended := [(LogDebug, "pager notification sent")];
         BaseNotifier.outcome := Fulfilled tt |}.
Proof. split; reflexivity. Qed.

(** X14 on the base notifier. *)
Lemma defaultServiceConfig_values_witness :
  let self := Examples.base in
  let defaults := BaseNotifier.defaultServiceConfig self in
  (∀ key d, (key, d) ∈ BaseNotifier.registerVariables self →
     defaults !! key
     = Some (if negb (BaseNotifier.is_undefined
                        (BaseNotifier.prop (FieldDescriptor.default d)))
             then BaseNotifier.prop (FieldDescriptor.default d)
             else if negb (BaseNotifier.is_undefined
                             (BaseNotifier.prop (FieldDescriptor.example d)))
                  then BaseNotifier.prop (FieldDescriptor.example d)
                  else VNull))
  ∧ (¬ Spec.declared self "enabled" → defaults !! "enabled" = Some (VBool false))
  ∧ (∀ key, ¬ Spec.declared self key → key ≠ "enabled" → defaults !! key = None).
Proof.
  apply (defaultServiceConfig_values Examples.base).
  - reflexivity.
  - apply (bool_decide_unpack _). vm_compute. exact I.
Defined.

(** A field written without default and example gets null, whatever its
    type is meant to be. *)
Example defaultServiceConfig_null_run :
  BaseNotifier.defaultServiceConfig
    (BaseNotifier.set_registerVariables Examples.base [("port", Examples.bare)])
    !! "port"
  = Some VNull.
Proof. reflexivity. Qed.

(** X15 on the base notifier: the user key given twice. *)
Lemma handleConfig_repeated_witness :
  let first := BaseNotifier.handleConfig Examples.base Examples.config "userkey" "abc" in
  let second := BaseNotifier.handleConfig Examples.base first.2 "userkey" "abc" in
  BaseNotifier.success second.1 = true
  ∧ BaseNotifier.autoEnabled second.1 = Some false
  ∧ second.2 = first.2.
Proof.
  apply (handleConfig_repeated Examples.base Examples.config "userkey" "abc").
  - unfold Spec.declared. apply (bool_decide_unpack _). vm_compute. exact I.
  - reflexivity.
Defined.

(** X16 on the base notifier. *)
Lemma handleConfig_stores_typed_value_witness :
  ∃ key variable,
    BaseNotifier.find_setting Examples.base "userkey" = Some (key, variable)
    ∧ let stored :=
        get (BaseNotifier.service_entry Examples.base
               (BaseNotifier.handleConfig Examples.base Examples.config "userkey" "abc").2)
          key in
      BaseNotifier.rejected_by_validator variable stored = false
      ∧ match typeof (BaseNotifier.prop (FieldDescriptor.example variable)) with
        | TNumber => stored = VNum (parseFloat "abc") ∧ isNaN (parseFloat "abc") = false
        | TBoolean =>
            (stored = VBool true
             ∧ (toLowerCase "abc" = "true" ∨ toLowerCase "abc" = "1"))
            ∨ (stored = VBool false
               ∧ (toLowerCase "abc" = "false" ∨ toLowerCase "abc" = "0"))
        | _ => stored = VStr "abc"
        end.
Proof.
  apply (handleConfig_stores_typed_value Examples.base Examples.config "userkey" "abc").
  - unfold Spec.declared. apply (bool_decide_unpack _). vm_compute. exact I.
  - reflexivity.
Defined.

(** X17 on the example document: of its four services the pager alone
    becomes active. *)
Lemma start_up_registers_exactly_witness :
  let this :=
    NotificationManager.new Examples.require Examples.service_names Examples.document [] in
  is_Some (NotificationManager.obj_get "gong" (NotificationManager.notifiers this)) ↔
  ∃ key NotifierClass entry,
    key ∈ Examples.service_names
    ∧ Spec.activates Examples.require Examples.document key NotifierClass entry
    ∧ Provider.class_name NotifierClass = "gong".
Proof.
  apply (start_up_registers_exactly Examples.require Examples.service_names
           Examples.document [] "gong").
  apply (bool_decide_unpack _). vm_compute. exact I.
Defined.

Example start_up_run :
  let this :=
    NotificationManager.new Examples.require Examples.service_names Examples.document [] in
  (NotificationManager.notifiers this).*1 = ["pager"]
  ∧ NotificationManager.logger this
    = [ (LogInfo, "pager notifier initialized");
        (LogError, "Failed to initialize beeper: Cannot find module");
        (LogDebug, "Skipping siren: service is not enabled");
        (LogError, "Token must be a non-empty string");
        (LogWarn, "gong is enabled but failed validation") ]
  ∧ Spec.entry_of (NotificationManager.config this) "gong"
    = Some (<[ "sound" := VStr "pulse" ]> {[ "enabled" := VBool true ]}).
Proof. repeat split. Qed.

(** X19 on the example document. *)
Lemma start_up_completes_entries_witness :
  let document :=
    NotificationManager.config
      (NotificationManager.new Examples.require Examples.service_names
         Examples.document []) in
  (∀ key, key ∈ Examples.service_names →
     Spec.entry_of document key
     = Spec.written Examples.require key <$> Spec.entry_of Examples.document key)
  ∧ (∀ key, key ∉ Examples.service_names →
       Spec.entry_of document key = Spec.entry_of Examples.document key)
  ∧ Config.enabled document = Config.enabled Examples.document
  ∧ Config.channelName document = Config.channelName Examples.document
  ∧ Config.filters document = Config.filters Examples.document
  ∧ Config.format document = Config.format Examples.document.
Proof.
  apply (start_up_completes_entries Examples.require Examples.service_names
           Examples.document []).
  apply (bool_decide_unpack _). vm_compute. exact I.
Defined.

(** X20 on the example document. *)
Lemma start_up_reports_inactive_witness :
  let this :=
    NotificationManager.new Examples.require Examples.service_names Examples.document [] in
  ∃ lines,
    NotificationManager.logger this = [] ++ lines
    ∧ ∀ key entry, key ∈ Examples.service_names →
        Spec.entry_of Examples.document key = Some entry →
        (truthy (get entry "enabled") = false →
           (LogDebug, "Skipping " +:+ key +:+ ": service is not enabled") ∈ lines)
        ∧ (∀ err, truthy (get entry "enabled") = true → Examples.require key = inr err →
             (LogError, "Failed to initialize " +:+ key +:+ ": " +:+ message err) ∈ lines)
        ∧ (∀ NotifierClass,
             truthy (get entry "enabled") = true →
             Examples.require key = inl NotifierClass →
             BaseNotifier.validate_loop (Provider.class_variables NotifierClass)
               (Spec.written Examples.require key entry) = false →
             (LogWarn, key +:+ " is enabled but failed validation") ∈ lines).
Proof.
  apply (start_up_reports_inactive Examples.require Examples.service_names
           Examples.document []).
  apply (bool_decide_unpack _). vm_compute. exact I.
Defined.

(** A message of the user's own is dropped. *)
Example handleTheloungeMessage_skips_run :
  Plugin.handleTheloungeMessage Examples.clock "no time" Examples.session "#test"
    (Examples.pushed true (Some true)) (Examples.world [])
  = (Examples.session, []).
Proof.
  apply (handleTheloungeMessage_skips Examples.clock "no time" Examples.session "#test"
           (Examples.pushed true (Some true)) (Examples.world [])).
  right. right. left. reflexivity.
Qed.

(** X22 on a highlight: the line names the one service that
    delivered. *)
Lemma handleTheloungeMessage_posts_notified_witness :
  ∃ manager result timestamp,
    Plugin.notificationManager Examples.session = Some manager
    ∧ Plugin.enabled Examples.session = true
    ∧ Plugin.self (Examples.pushed false (Some true)) = false
    ∧ Plugin.notifiable_type (Plugin.type (Examples.pushed false (Some true))) = true
    ∧ Plugin.highlight (Examples.pushed false (Some true)) = Some true
    ∧ Config.highlights (Config.filters (NotificationManager.config manager)) = true
    ∧ (NotificationManager.processMessage
         (Plugin.messageData_of Examples.session "#test" (Examples.pushed false (Some true)))
         (Plugin.client Examples.session) (Examples.world []) manager).1
      = Fulfilled (Some result)
    ∧ NotificationManager.services result ≠ []
    ∧ Plugin.time (Examples.pushed false (Some true)) = Some timestamp
    ∧ (Plugin.handleTheloungeMessage Examples.clock "no time" Examples.session "#test"
         (Examples.pushed false (Some true)) (Examples.world [])).2
      = [ "[" +:+ Examples.clock timestamp +:+ "] Notification sent via "
            +:+ join ", " (NotificationManager.services result) +:+ ": "
            +:+ Notification.title (NotificationManager.notification result) +:+ " - "
            +:+ Notification.message (NotificationManager.notification result) ].
Proof.
  apply (handleTheloungeMessage_posts_notified Examples.clock "no time" Examples.session
           "#test" (Examples.pushed false (Some true)) (Examples.world [])
           "[12:00:00] Notification sent via up: freenode - #test - <bob> hey alice").
  apply (bool_decide_unpack _). vm_compute. exact I.
Defined.

(** X23 and X24 on the example document as it is read from disk. *)
Lemma start_up_active_implies_isValid_witness :
  ConfigManager.isValid Examples.require Examples.service_names
    (ConfigManager.Parsed (Spec.as_raw Examples.document)) = true.
Proof.
  apply (start_up_active_implies_isValid Examples.require Examples.service_names
           (ConfigManager.Parsed (Spec.as_raw Examples.document)) [] "pager").
  - apply (bool_decide_unpack _). vm_compute. exact I.
  - intros key Hin. unfold Examples.service_names in Hin.
    repeat (apply elem_of_cons in Hin as [->|Hin]; [reflexivity|]). inversion Hin.
  - eexists. reflexivity.
Defined.

(** [isValid] also holds when the one valid service is not enabled. *)
Example isValid_ignores_enabled_run :
  ConfigManager.isValid Examples.require ["siren"]
    (ConfigManager.Parsed (Spec.as_raw Examples.document)) = true
  ∧ NotificationManager.notifiers
      (NotificationManager.new Examples.require ["siren"] Examples.document []) = [].
Proof. split; reflexivity. Qed.

(** X25 and X26 on decimal numerals. *)
Lemma compareVersions_reads_three_parts_witness :
  let short := "1" +:+ "." +:+ "0" +:+ "." +:+ "0" in
  let long := "v" +:+ "1" +:+ "." +:+ "0" +:+ "." +:+ "0" +:+ "." +:+ "7" in
  VersionCheck.compareVersions Examples.Number long "1.0.1"
  = VersionCheck.compareVersions Examples.Number short "1.0.1"
  ∧ VersionCheck.compareVersions Examples.Number "1.0.1" long
    = VersionCheck.compareVersions Examples.Number "1.0.1" short
  ∧ (VersionCheck.truthy (Examples.Number "0") = false →
     VersionCheck.truthy (Examples.Number "0") = false →
       VersionCheck.compareVersions Examples.Number "1" "1.0.1"
       = VersionCheck.compareVersions Examples.Number short "1.0.1"
       ∧ VersionCheck.compareVersions Examples.Number "1.0.1" "1"
         = VersionCheck.compareVersions Examples.Number "1.0.1" short).
Proof.
  apply (compareVersions_reads_three_parts Examples.Number "1" "0" "0" "7" "1.0.1");
    reflexivity.
Defined.

Example compareVersions_run :
  VersionCheck.compareVersions Examples.Number "1.0.0" "1.0.1" = (-1)%Z
  ∧ VersionCheck.compareVersions Examples.Number "v1.0.0" "1.0.0" = 0%Z
  ∧ VersionCheck.compareVersions Examples.Number "1" "1.0.0" = 0%Z
  ∧ VersionCheck.compareVersions Examples.Number "1.10.0" "1.9.0" = 1%Z
  ∧ VersionCheck.compareVersions Examples.Number "1.0.0-beta" "1.0.0" = 0%Z
  ∧ VersionCheck.compareVersions Examples.Number "1.0.0.9" "1.0.0.1" = 0%Z.
Proof. repeat split. Qed.

End FurtherInstances.
